(** * Credit-Default data portal: the ingestion and registry core

    A shallow embedding of [frontend_mysql/app.py]: the pandas dataframe
    the upload page builds, the MySQL statements the helper functions
    issue, the upload registry, and the error-message sanitizer, followed
    by the properties of the ingestion-and-registry subsystem.

    Conventions of the embedding.
    - A Python [str] is a [string]: its characters are the code points
      below 256, the Latin-1 range of Unicode, and on that range case
      conversion, whitespace, digits and printable characters are
      Python's.  A text with a code point above 255 is outside the
      model.
    - A dataframe cell is a [cell]; NaN, None and NaT are the one null
      [CNull], which is what [pd.notnull] distinguishes.
    - The MySQL server is a finite map from table names to tables.  The
      registry [_uploaded_tables] lives in that same name space, as it
      does in the database.
    - A call that talks to the server takes a flag saying whether the
      storage layer raises [mysql.connector.Error] during that call. *)

From Stdlib Require Import Ascii ZArith Lia Sorting.Sorted Permutation.
From stdpp Require Import gmap strings list fin_maps sorting.

Local Open Scope Z_scope.

(** ** Python strings *)

Module PyStr.

Definition code (c : ascii) : nat := nat_of_ascii c.

Definition between (lo hi : nat) (c : ascii) : bool :=
  Nat.leb lo (code c) && Nat.leb (code c) hi.

(** The characters with a lowercase form: A to Z, and the capital
    letters of Latin-1, U+00C0 to U+00DE without the multiplication sign
    U+00D7.  The lowercase form is 32 code points further on. *)
Definition is_capital (c : ascii) : bool :=
  between 65 90 c || (between 192 222 c && negb (Nat.eqb (code c) 215)).

(** The characters whose uppercase form is 32 code points before them:
    a to z, and U+00E0 to U+00FE without the division sign U+00F7. *)
Definition is_small (c : ascii) : bool :=
  between 97 122 c || (between 224 254 c && negb (Nat.eqb (code c) 247)).

(** the decimal digits: no character of Latin-1 beside 0 to 9 is one *)
Definition isdigit (c : ascii) : bool := between 48 57 c.

(** [str.isspace] on one character, which is also [\s] of [re]: TAB,
    LF, VT, FF, CR, the four separators 0x1c..0x1f, the blank, NEL
    (U+0085) and the no-break space (U+00A0). *)
Definition isspace (c : ascii) : bool :=
  between 9 13 c || between 28 32 c
  || Nat.eqb (code c) 133 || Nat.eqb (code c) 160.

Definition lower_char (c : ascii) : ascii :=
  if is_capital c then ascii_of_nat (code c + 32) else c.

(** [str.upper] on one character, as code points: the uppercase form of
    the sharp s is SS, those of the micro sign and of y with diaeresis
    lie above Latin-1 (U+039C and U+0178). *)
Definition upper_char (c : ascii) : list N :=
  if is_small c then [N.of_nat (code c - 32)]
  else if Nat.eqb (code c) 223 then [83%N; 83%N]
  else if Nat.eqb (code c) 181 then [924%N]
  else if Nat.eqb (code c) 255 then [376%N]
  else [N.of_nat (code c)].

Fixpoint lower (s : string) : string :=
  match s with
  | EmptyString => EmptyString
  | String c s' => String (lower_char c) (lower s')
  end.

Fixpoint upper (s : string) : list N :=
  match s with
  | EmptyString => []
  | String c s' => upper_char c ++ upper s'
  end.

(** the code points of a text *)
Fixpoint code_points (s : string) : list N :=
  match s with
  | EmptyString => []
  | String c s' => N.of_nat (code c) :: code_points s'
  end.

Fixpoint lstrip (s : string) : string :=
  match s with
  | EmptyString => EmptyString
  | String c s' => if isspace c then lstrip s' else s
  end.

(** [rstrip] keeps a character when it is not a space or when something
    that is kept follows it. *)
Fixpoint rstrip (s : string) : string :=
  match s with
  | EmptyString => EmptyString
  | String c s' =>
      match rstrip s' with
      | EmptyString => if isspace c then EmptyString else String c EmptyString
      | r => String c r
      end
  end.

Definition strip (s : string) : string := rstrip (lstrip s).

Definition is_empty (s : string) : bool :=
  match s with EmptyString => true | _ => false end.

Fixpoint startswith (p s : string) : bool :=
  match p, s with
  | EmptyString, _ => true
  | String a p', String b s' => Ascii.eqb a b && startswith p' s'
  | String _ _, EmptyString => false
  end.

(** [needle in hay] *)
Fixpoint contains (needle hay : string) : bool :=
  startswith needle hay ||
  match hay with
  | EmptyString => false
  | String _ hay' => contains needle hay'
  end.

(** [needle in hay], for texts given by their code points *)
Fixpoint starts_with_codes (p l : list N) : bool :=
  match p, l with
  | [], _ => true
  | a :: p', b :: l' => N.eqb a b && starts_with_codes p' l'
  | _ :: _, [] => false
  end.

Fixpoint contains_codes (needle hay : list N) : bool :=
  starts_with_codes needle hay ||
  match hay with
  | [] => false
  | _ :: hay' => contains_codes needle hay'
  end.

(** the first [n] characters *)
Fixpoint take (n : nat) (s : string) : string :=
  match n, s with
  | S n', String c s' => String c (take n' s')
  | _, _ => EmptyString
  end.

(** [str.isprintable] on one character: the controls, DEL, U+0080 to
    U+00A0 and the soft hyphen U+00AD are not printable. *)
Definition isprintable (c : ascii) : bool :=
  negb (Nat.ltb (code c) 32 || between 127 160 c || Nat.eqb (code c) 173).

Definition hex_digit (n : nat) : ascii :=
  ascii_of_nat (if Nat.ltb n 10 then 48 + n else 87 + n).

Definition quote : ascii := "'"%char.
Definition double_quote : ascii := ascii_of_nat 34.
Definition backslash : ascii := ascii_of_nat 92.

(** [repr] of a text: in single quotes, or in double quotes when the
    text has a single quote and no double quote; the quote character
    and the backslash are escaped, TAB, LF and CR are written with
    their letters, any other character that is not printable as
    [\xhh]. *)
Definition repr (s : string) : string :=
  let q := if contains (String quote "") s
              && negb (contains (String double_quote "") s)
           then double_quote else quote in
  let fix body (s : string) : string :=
    match s with
    | EmptyString => String q EmptyString
    | String c s' =>
        if Ascii.eqb c q || Ascii.eqb c backslash
        then String backslash (String c (body s'))
        else if Nat.eqb (code c) 9 then String backslash (String "t" (body s'))
        else if Nat.eqb (code c) 10 then String backslash (String "n" (body s'))
        else if Nat.eqb (code c) 13 then String backslash (String "r" (body s'))
        else if isprintable c then String c (body s')
        else String backslash
               (String "x"
                  (String (hex_digit (code c / 16))
                     (String (hex_digit (code c mod 16)) (body s'))))
    end in
  String q (body s).

(** the digits of [int(s)] in base 10: at least one, with single
    underscores between them at most *)
Fixpoint int_digits (acc : Z) (after_digit : bool) (s : string) : option Z :=
  match s with
  | EmptyString => if after_digit then Some acc else None
  | String c s' =>
      if isdigit c then
        int_digits (10 * acc + (Z.of_nat (code c) - 48)) true s'
      else if Ascii.eqb c "_" then
        if after_digit then int_digits acc false s' else None
      else None
  end.

(** [int(s)]: the whitespace around the text is ignored, one sign may
    come before the digits; [None] is a ValueError. *)
Definition int (s : string) : option Z :=
  match strip s with
  | String "+" t => int_digits 0 false t
  | String "-" t => Z.opp <$> int_digits 0 false t
  | t => int_digits 0 false t
  end.

End PyStr.

(** ** The fragment of Python's [re] the sanitizer uses

    A backtracking matcher in continuation-passing style: alternatives
    are tried left to right, repetitions are greedy and give characters
    back one at a time, so the first success is the match [re] reports. *)

Module Re.

Inductive regex : Type :=
| Chr (p : ascii → bool)                 (* one character of a class *)
| Seq (r1 r2 : regex)
| Alt (r1 r2 : regex)
| Star (p : ascii → bool)                (* cls*  *)
| Rep (p : ascii → bool) (lo hi : nat)   (* cls{lo,hi} *)
| Eps.

Section Matcher.
Context {A : Type}.

Fixpoint star (p : ascii → bool) (s : string) (k : string → option A)
  : option A :=
  match s with
  | String c s' =>
      if p c then
        match star p s' k with
        | Some r => Some r
        | None => k s
        end
      else k s
  | EmptyString => k s
  end.

(** at least [lo] and at most [lo + extra] characters of the class *)
Fixpoint rep (p : ascii → bool) (lo extra : nat) (s : string)
    (k : string → option A) : option A :=
  match lo with
  | S lo' =>
      match s with
      | String c s' => if p c then rep p lo' extra s' k else None
      | EmptyString => None
      end
  | O =>
      (fix more (extra : nat) (s : string) : option A :=
         match extra with
         | O => k s
         | S e =>
             match s with
             | String c s' =>
                 if p c then
                   match more e s' with
                   | Some r => Some r
                   | None => k s
                   end
                 else k s
             | EmptyString => k s
             end
         end) extra s
  end.

Fixpoint run (r : regex) (s : string) (k : string → option A) : option A :=
  match r with
  | Chr p =>
      match s with
      | String c s' => if p c then k s' else None
      | EmptyString => None
      end
  | Seq r1 r2 => run r1 s (λ s1, run r2 s1 k)
  | Alt r1 r2 =>
      match run r1 s k with
      | Some r => Some r
      | None => run r2 s k
      end
  | Star p => star p s k
  | Rep p lo hi => rep p lo (hi - lo) s k
  | Eps => k s
  end.
End Matcher.

(** [re.match] at the start of [s]: what follows the match. *)
Definition match_at (r : regex) (s : string) : option string :=
  run r s Some.

(** A pattern [(g)r] with one group: what follows the group, and what
    follows the whole match. *)
Definition match_group (g r : regex) (s : string) : option (string * string) :=
  run g s (λ s1, run r s1 (λ s2, Some (s1, s2))).

Definition one (a : ascii) : ascii → bool := Ascii.eqb a.
Definition is_nocase (a : ascii) : ascii → bool :=
  λ c, Ascii.eqb (PyStr.lower_char a) (PyStr.lower_char c).
Definition none_of (l : list ascii) : ascii → bool :=
  λ c, negb (existsb (Ascii.eqb c) l).

Fixpoint lit (nocase : bool) (s : string) : regex :=
  match s with
  | EmptyString => Eps
  | String c s' => Seq (Chr (if nocase then is_nocase c else one c)) (lit nocase s')
  end.

Definition alts (rs : list regex) : regex :=
  match rs with
  | [] => Eps
  | r :: rs' => fold_left Alt rs' r
  end.

(** [re.sub]: scan from the left; where the pattern matches, emit the
    replacement and resume after the match; elsewhere copy a character.
    [m] gives, for the text at the current position, the replacement and
    the text after the match.  [skip] counts the characters of a match
    still to be passed over.  An empty match emits its replacement and
    the scan moves on by one character. *)
Fixpoint sub_from (m : string → option (string * string)) (skip : nat)
    (s : string) : string :=
  match skip with
  | S n =>
      match s with
      | String _ s' => sub_from m n s'
      | EmptyString => EmptyString
      end
  | O =>
      match s with
      | EmptyString =>
          match m s with
          | Some (repl, _) => repl
          | None => EmptyString
          end
      | String c s' =>
          match m s with
          | Some (repl, rest) =>
              let used := (String.length s - String.length rest)%nat in
              match used with
              | O => repl +:+ String c (sub_from m O s')
              | S n => repl +:+ sub_from m n s'
              end
          | None => String c (sub_from m O s')
          end
      end
  end.

Definition sub (r : regex) (repl : string) (s : string) : string :=
  sub_from (λ t, (λ rest, (repl, rest)) <$> match_at r t) O s.

(** [re.sub] for a pattern [(g)r] whose replacement is the group
    followed by [tail] (a template of the form [\1tail]). *)
Definition sub_group (g r : regex) (tail : string) (s : string) : string :=
  sub_from
    (λ t, (λ '(s1, s2),
             (PyStr.take (String.length t - String.length s1) t +:+ tail, s2))
          <$> match_group g r t) O s.

End Re.

(** ** [sanitize_error_message] *)

Definition generic_error : string :=
  "An unexpected error occurred. Please try again.".

Definition database_error : string :=
  "Database operation failed. Please check your data and try again.".

Definition dot : ascii := "."%char.

(** [\d{1,3}\.\d{1,3}\.\d{1,3}\.\d{1,3}] *)
Definition re_ip : Re.regex :=
  let d := Re.Rep PyStr.isdigit 1 3 in
  let p := Re.Chr (Re.one dot) in
  Re.Seq d (Re.Seq p (Re.Seq d (Re.Seq p (Re.Seq d (Re.Seq p d))))).

(** [localhost|127\.0\.0\.1], IGNORECASE *)
Definition re_localhost : Re.regex :=
  Re.Alt (Re.lit true "localhost") (Re.lit true "127.0.0.1").

(** [(database|user|password|host|port)], IGNORECASE *)
Definition re_cred_key : Re.regex :=
  Re.alts (Re.lit true <$> ["database"; "user"; "password"; "host"; "port"]).

(** [\s*[=:][^,;\)\n]*] *)
Definition re_cred_value : Re.regex :=
  Re.Seq (Re.Star PyStr.isspace)
    (Re.Seq (Re.Chr (λ c, Re.one "="%char c || Re.one ":"%char c))
       (Re.Star (Re.none_of [","%char; ";"%char; ")"%char; "010"%char]))).

Definition nonspace (c : ascii) : bool := negb (PyStr.isspace c).

(** [[C-Z]:\\[^\s]*] *)
Definition re_drive_path : Re.regex :=
  Re.Seq (Re.Chr (PyStr.between 67 90))
    (Re.Seq (Re.Chr (Re.one ":"%char))
       (Re.Seq (Re.Chr (Re.one "\"%char)) (Re.Star nonspace))).

(** [/[^\s]*\.[^\s]+] *)
Definition re_slash_path : Re.regex :=
  Re.Seq (Re.Chr (Re.one "/"%char))
    (Re.Seq (Re.Star nonspace)
       (Re.Seq (Re.Chr (Re.one dot))
          (Re.Seq (Re.Chr nonspace) (Re.Star nonspace)))).

Definition mentions_sql (s : string) : bool :=
  let u := PyStr.upper s in
  let within (word : string) := PyStr.contains_codes (PyStr.code_points word) u in
  within "SQL" || within "SELECT" || within "INSERT".

Definition sanitize_error_message (error_str : string) : string :=
  if PyStr.is_empty error_str then generic_error
  else
    let sanitized := error_str in
    (* Hide IP addresses and hostnames *)
    let sanitized := Re.sub re_ip "[HOST]" sanitized in
    let sanitized := Re.sub re_localhost "[HOST]" sanitized in
    (* Hide database names and user info *)
    let sanitized := Re.sub_group re_cred_key re_cred_value "=[REDACTED]" sanitized in
    (* Hide SQL queries *)
    let sanitized := if mentions_sql sanitized then database_error else sanitized in
    (* Hide file paths *)
    let sanitized := Re.sub re_drive_path "[PATH]" sanitized in
    let sanitized := Re.sub re_slash_path "[PATH]" sanitized in
    if PyStr.is_empty (PyStr.strip sanitized) then generic_error else sanitized.

(** ** pandas: dtypes, cells and dataframes *)

(** The dtypes a column of a dataframe can carry. *)
Inductive dtype : Type :=
| int32 | int64 | uint64 | Int64
| float32 | float64
| bool_ | boolean
| datetime64_ns | datetime64_ns_tz
| timedelta64_ns | object_ | string_ | category.

Module pd_types.
Definition is_integer_dtype (d : dtype) : bool :=
  match d with int32 | int64 | uint64 | Int64 => true | _ => false end.
Definition is_float_dtype (d : dtype) : bool :=
  match d with float32 | float64 => true | _ => false end.
Definition is_bool_dtype (d : dtype) : bool :=
  match d with bool_ | boolean => true | _ => false end.
Definition is_datetime64_any_dtype (d : dtype) : bool :=
  match d with datetime64_ns | datetime64_ns_tz => true | _ => false end.
End pd_types.

(** Infer MySQL types from pandas *)
Definition infer_mysql_type (d : dtype) : string :=
  if pd_types.is_integer_dtype d then "INT"
  else if pd_types.is_float_dtype d then "DOUBLE"
  else if pd_types.is_bool_dtype d then "BOOLEAN"
  else if pd_types.is_datetime64_any_dtype d then "DATETIME"
  else "TEXT".

(** A cell of a dataframe or of a stored row.  A finite float is the
    dyadic number [m * 2 ^ e]; a timestamp is stored as [CInt], the
    seconds of the server clock. *)
Inductive cell : Type :=
| CNull
| CInt (z : Z)
| CFloat (m e : Z)
| CBool (b : bool)
| CStr (s : string).

Global Instance cell_eq_dec : EqDecision cell.
Proof. solve_decision. Defined.

Global Instance cell_inhabited : Inhabited cell := populate CNull.

Definition notnull (c : cell) : bool :=
  match c with CNull => false | _ => true end.

Record Series := { s_dtype : dtype; s_values : list cell }.

Record DataFrame := {
  df_columns : list (string * dtype);   (* header, in order *)
  df_rows : list (list cell)            (* one list of cells per row *)
}.

Definition columns (df : DataFrame) : list string := (df_columns df).*1.
Definition len (df : DataFrame) : nat := length (df_rows df).

(** [list.index], [None] when the name is absent *)
Fixpoint index_of (c : string) (l : list string) : option nat :=
  match l with
  | [] => None
  | x :: l' => if decide (x = c) then Some O else S <$> index_of c l'
  end.

(** [df[col]] for the column at position [i] *)
Definition column_at (i : nat) (df : DataFrame) : Series :=
  {| s_dtype := default object_ (snd <$> df_columns df !! i);
     s_values := (λ r, r !!! i) <$> df_rows df |}.

(** [df.dropna(subset=[col])] for the column at position [i] *)
Definition dropna (i : nat) (df : DataFrame) : DataFrame :=
  {| df_columns := df_columns df;
     df_rows := filter (λ r, notnull (r !!! i) = true) (df_rows df) |}.

(** [df.where(pd.notnull(df), None)]: the null cells become [None];
    both are [CNull] here. *)
Definition where_notnull (df : DataFrame) : DataFrame := df.

(** the positions of the columns named [c], counted from [n] *)
Fixpoint positions_from (n : nat) (c : string) (l : list string) : list nat :=
  match l with
  | [] => []
  | x :: l' =>
      (if decide (x = c) then [n] else []) ++ positions_from (S n) c l'
  end.

(** [df[names]]: for each of [names], in their order, every column of
    that name; a repeated name in the header is selected as often as it
    is asked for.  (A name the header does not have is a KeyError in
    pandas; the application takes the names from the header.) *)
Definition select (names : list string) (df : DataFrame) : DataFrame :=
  let idx := names ≫= (λ c, positions_from 0 c (columns df)) in
  {| df_columns := omap (λ i, df_columns df !! i) idx;
     df_rows := (λ r, (λ i, r !!! i) <$> idx) <$> df_rows df |}.

(** ** Exceptions and the state of the world

    [MySQLError] is [mysql.connector.Error]; [PyError] is any other
    [Exception], with its [str(e)]. *)
Inductive exn : Type :=
| MySQLError
| PyError (msg : string).

Inductive result (A : Type) : Type :=
| Ok (a : A)
| Raise (e : exn).
Arguments Ok {A} a.
Arguments Raise {A} e.

(** ** MySQL tables

    A table is its column definitions and its rows, oldest first.  Of a
    column definition the model keeps the name, the type as written in
    the CREATE TABLE statement, whether it is the primary key, and
    whether it is AUTO_INCREMENT or DEFAULT CURRENT_TIMESTAMP.  The
    primary key column is NOT NULL; no other column is, and no column
    has a DEFAULT value. *)

Inductive col_extra : Type := Plain | AutoIncrement | DefaultNow.

Global Instance col_extra_eq_dec : EqDecision col_extra.
Proof. solve_decision. Defined.

Record Column := {
  col_name : string;
  col_type : string;
  col_primary : bool;
  col_extra_of : col_extra
}.

Global Instance Column_eq_dec : EqDecision Column.
Proof. solve_decision. Defined.

Record Table := {
  t_columns : list Column;
  t_rows : list (list cell)
}.

Global Instance Table_eq_dec : EqDecision Table.
Proof. solve_decision. Defined.

Definition registry_name : string := "_uploaded_tables".

(** The columns of [CREATE TABLE IF NOT EXISTS `_uploaded_tables`]. *)
Definition registry_columns : list Column :=
  [ {| col_name := "id"; col_type := "INT"; col_primary := true;
       col_extra_of := AutoIncrement |};
    {| col_name := "table_name"; col_type := "VARCHAR(255)";
       col_primary := false; col_extra_of := Plain |};
    {| col_name := "uploaded_by"; col_type := "VARCHAR(255)";
       col_primary := false; col_extra_of := Plain |};
    {| col_name := "uploaded_at"; col_type := "TIMESTAMP";
       col_primary := false; col_extra_of := DefaultNow |};
    {| col_name := "row_count"; col_type := "INT"; col_primary := false;
       col_extra_of := Plain |} ].

Module MySQL.

Definition column_names (t : Table) : list string := col_name <$> t_columns t.

(** [CREATE TABLE IF NOT EXISTS]: nothing happens when the name is
    taken; a definition without columns or with a repeated column name
    is rejected. *)
Definition create_table_if_not_exists (name : string) (cols : list Column)
    (db : gmap string Table) : result (gmap string Table) :=
  match db !! name with
  | Some _ => Ok db
  | None =>
      if bool_decide (cols ≠ [] ∧ NoDup (col_name <$> cols))
      then Ok (<[name := {| t_columns := cols; t_rows := [] |}]> db)
      else Raise MySQLError
  end.

(** the next AUTO_INCREMENT value of the column at position [j] *)
Definition next_auto (j : nat) (rows : list (list cell)) : Z :=
  1 + foldr (λ r acc, match r !!! j with CInt z => Z.max z acc | _ => acc end)
        0 rows.

(** The two statements of the application.  A value that does not fit
    its column (an integer out of the range of the type, a text that is
    too long or given for a number, NULL for the primary key) is an
    error for a plain INSERT under the strict SQL mode, the default of
    the server: the call fails, which is the fault of the statement
    (the [fail] argument of the caller), and a plain INSERT that does
    not fail stores its values unchanged.  INSERT IGNORE turns the error
    into a warning and stores the value adjusted: [fit c v] is the value
    MySQL stores in the column [c] when it is given the value [v]. *)
Inductive mode : Type :=
| Strict
| Ignore (fit : Column → cell → cell).

Definition stored (m : mode) (c : Column) (v : cell) : cell :=
  match m with
  | Strict => v
  | Ignore fit => fit c v
  end.

(** The stored row for an INSERT that names [cols] and gives [vals]:
    a named column takes its value, any other its default, which is
    NULL for a column without AUTO_INCREMENT and DEFAULT. *)
Definition stored_row (m : mode) (now : Z) (t : Table) (cols : list string)
    (vals : list cell) : list cell :=
  imap (λ j c,
          let given := (λ i, vals !!! i) <$> index_of (col_name c) cols in
          match col_extra_of c, given with
          | AutoIncrement, (None | Some CNull) => CInt (next_auto j (t_rows t))
          | DefaultNow, None => CInt now
          | _, Some v => stored m c v
          | _, None => stored m c CNull
          end)
       (t_columns t).

Definition primary_positions (t : Table) : list nat :=
  omap (λ '(j, c), if col_primary c then Some j else None)
       (imap pair (t_columns t)).

(** a stored row with the same primary key *)
Definition duplicate_key (t : Table) (row : list cell) : bool :=
  let pk := primary_positions t in
  negb (bool_decide (pk = [])) &&
  existsb (λ r, forallb (λ j, bool_decide (r !!! j = row !!! j)) pk)
          (t_rows t).

(** One [INSERT [IGNORE] INTO t (cols) VALUES (vals)].  An unknown or
    repeated column is an error; a duplicate primary key is an error
    for INSERT and a skipped row for INSERT IGNORE. *)
Definition insert_row (m : mode) (now : Z) (cols : list string)
    (t : Table) (vals : list cell) : result Table :=
  if bool_decide (NoDup cols ∧ cols ⊆ column_names t) then
    let row := stored_row m now t cols vals in
    if duplicate_key t row then
      match m with
      | Ignore _ => Ok t
      | Strict => Raise MySQLError
      end
    else Ok {| t_columns := t_columns t; t_rows := t_rows t ++ [row] |}
  else Raise MySQLError.

(** [cursor.executemany]: the rows one after the other *)
Fixpoint insert_rows (m : mode) (now : Z) (cols : list string)
    (t : Table) (data : list (list cell)) : result Table :=
  match data with
  | [] => Ok t
  | vals :: data' =>
      match insert_row m now cols t vals with
      | Ok t' => insert_rows m now cols t' data'
      | Raise e => Raise e
      end
  end.

(** the statement against the table [name], committed as a whole *)
Definition insert_into (m : mode) (now : Z) (name : string)
    (cols : list string) (data : list (list cell))
    (db : gmap string Table) : result (gmap string Table) :=
  match db !! name with
  | None => Raise MySQLError
  | Some t =>
      match insert_rows m now cols t data with
      | Ok t' => Ok (<[name := t']> db)
      | Raise e => Raise e
      end
  end.

End MySQL.

(** ** The application: state, effects and the helper functions *)

(** What the page shows: [st.error], [st.warning] and [st.success].  The
    texts are those of the source without the leading pictogram; the
    numbers of the warning and of the success line are kept as numbers. *)
Inductive message : Type :=
| StError (msg : string)
| StWarningDropped (dropped : nat)
| StSuccess (rows : nat) (table_name uploader : string).

Record World := {
  server : gmap string Table;   (* the MySQL database *)
  screen : list message         (* what has been shown, oldest first *)
}.

(** Computations that read and change the world and may raise. *)
Definition M (A : Type) : Type := World → World * result A.

Global Instance M_ret : MRet M := λ A a w, (w, Ok a).

Global Instance M_bind : MBind M := λ A B f m w,
  match m w with
  | (w', Ok a) => f a w'
  | (w', Raise e) => (w', Raise e)
  end.

Definition throw {A : Type} (e : exn) : M A := λ w, (w, Raise e).

(** [try: m except Exception as e: h e] *)
Definition try_except {A : Type} (m : M A) (h : exn → M A) : M A := λ w,
  match m w with
  | (w', Ok a) => (w', Ok a)
  | (w', Raise e) => h e w'
  end.

(** a statement and its commit: all of it or, on an error, none *)
Definition execute (fail : bool)
    (stmt : gmap string Table → result (gmap string Table)) : M () := λ w,
  if fail then (w, Raise MySQLError)
  else match stmt (server w) with
       | Ok db' => ({| server := db'; screen := screen w |}, Ok ())
       | Raise e => (w, Raise e)
       end.

(** a query: the server is read, not changed *)
Definition query {A : Type} (fail : bool)
    (q : gmap string Table → result A) : M A := λ w,
  if fail then (w, Raise MySQLError) else (w, q (server w)).

Definition show (msg : message) : M () := λ w,
  ({| server := server w; screen := screen w ++ [msg] |}, Ok ()).

(** Where the storage layer fails during one click on the upload button. *)
Record Faults := {
  f_connect : bool;
  f_registry : bool;
  f_cursor : bool;
  f_check : bool;
  f_describe : bool;
  f_create : bool;
  f_insert : bool;
  f_register : bool
}.

Definition no_faults : Faults :=
  {| f_connect := false; f_registry := false; f_cursor := false;
     f_check := false;
     f_describe := false; f_create := false; f_insert := false;
     f_register := false |}.

Definition get_connection (fail : bool) : M () := query fail (λ _, Ok ()).

(** create table from dataframe *)
Definition create_table_from_df (fail : bool) (df : DataFrame)
    (table_name : string) : M () :=
  if bool_decide (NoDup (columns df)) then
    let cols :=
      imap (λ i col,
              let mysql_type := infer_mysql_type (s_dtype (column_at i df)) in
              {| col_name := col; col_type := mysql_type;
                 col_primary := bool_decide (col = "applicant_id");  (* set as PK *)
                 col_extra_of := Plain |})
           (columns df) in
    execute fail (MySQL.create_table_if_not_exists table_name cols)
  else
    (* [df[col]] of a repeated name is a frame, which has no [dtype] *)
    throw (PyError "'DataFrame' object has no attribute 'dtype'").

(** Insert the data in bulk *)
Definition insert_dataframe (fit : Column → cell → cell) (fail : bool) (now : Z)
    (df : DataFrame) (table_name : string) : M () :=
  let df := where_notnull df in
  let data := df_rows df in
  execute fail
    (MySQL.insert_into (MySQL.Ignore fit) now table_name (columns df) data).

(** Create the _uploaded_tables tracking table if it doesn't exist *)
Definition ensure_registry (fail : bool) : M () :=
  execute fail (MySQL.create_table_if_not_exists registry_name registry_columns).

(** Record every upload with table name, uploader, timestamp and row count *)
Definition register_table (fail : bool) (now : Z) (table_name uploader : string)
    (row_count : nat) : M () :=
  execute fail
    (MySQL.insert_into MySQL.Strict now registry_name
       ["table_name"; "uploaded_by"; "row_count"]
       [[CStr table_name; CStr uploader; CInt (Z.of_nat row_count)]]).

(** Get all existing columns in a table; [None] on a database error *)
Definition get_table_columns (fail : bool) (table_name : string)
    : M (option (list string)) :=
  try_except
    (query fail (λ db,
       match db !! table_name with
       | Some t => Ok (Some (MySQL.column_names t))
       | None => Raise MySQLError
       end))
    (λ _, mret None).

(** Validate data before insertion.  If the table exists, only the
    columns that already exist are kept.  Returns the dataframe, or
    [None] and a message. *)
Definition validate_and_append_data (F : Faults) (df : DataFrame)
    (table_name : string) : M (option DataFrame * option string) :=
  (* [cursor = conn.cursor()] comes before the [try] *)
  query (f_cursor F) (λ _, Ok ());;
  try_except
    (table_exists ← query (f_check F) (λ db, Ok (bool_decide (is_Some (db !! table_name))));
     if table_exists : bool then
       existing_columns ← get_table_columns (f_describe F) table_name;
       match existing_columns with
       | Some ((_ :: _) as existing) =>
           let columns_to_keep :=
             filter (λ col, col ∈ existing) (columns df) in
           match columns_to_keep with
           | [] => mret (None, Some "No matching columns found in existing table.")
           | _ => mret (Some (select columns_to_keep df), None)
           end
       | _ => mret (Some df, None)
       end
     else mret (Some df, None))
    (λ _, mret (None, Some "Unable to validate table structure. Please try again.")).

(** [df.columns = df.columns.str.lower().str.strip()] *)
Definition normalize_name (h : string) : string := PyStr.strip (PyStr.lower h).

Definition normalize_columns (df : DataFrame) : DataFrame :=
  {| df_columns := (λ '(h, d), (normalize_name h, d)) <$> df_columns df;
     df_rows := df_rows df |}.

Definition blank (s : string) : bool :=
  PyStr.is_empty s || PyStr.is_empty (PyStr.strip s).

(** The outcome of [int(x)] on one cell: the integer, or the text of the
    exception pandas raises. *)
Inductive cast : Type :=
| Cast (z : Z)
| CastError (msg : string).

Section Portal.

(** What MySQL stores in a column for a value given to INSERT IGNORE. *)
Variable fit : Column → cell → cell.

(** [Series.astype(int)] on one non-null cell, as pandas defines it. *)
Variable astype_int : cell → cast.

Fixpoint astype_rows (i : nat) (rows : list (list cell))
  : result (list (list cell)) :=
  match rows with
  | [] => Ok []
  | r :: rows' =>
      match astype_int (r !!! i) with
      | CastError msg => Raise (PyError msg)
      | Cast z =>
          match astype_rows i rows' with
          | Ok rs => Ok (<[i := CInt z]> r :: rs)
          | Raise e => Raise e
          end
      end
  end.

(** [df[col] = df[col].astype(int)] for the column at position [i] *)
Definition astype_column (i : nat) (df : DataFrame) : result DataFrame :=
  match astype_rows i (df_rows df) with
  | Ok rows =>
      Ok {| df_columns := alter (λ '(c, _), (c, int64)) i (df_columns df);
            df_rows := rows |}
  | Raise e => Raise e
  end.

(** The steps of [show_app] from the reconciliation on: validate and
    filter the columns, create the table when it is missing, insert,
    register, report. *)
Definition reconcile_and_insert (F : Faults) (now : Z) (df : DataFrame)
    (table_name uploader_name : string) : M () :=
  '(df_filtered, error_msg) ← validate_and_append_data F df table_name;
  match error_msg with
  | Some msg => show (StError msg)
  | None =>
      match df_filtered with
      | None => throw (PyError "'NoneType' object has no attribute 'columns'")
      | Some df_filtered =>
          (* Create table if it doesn't exist, otherwise it's already validated *)
          create_table_from_df (f_create F) df_filtered table_name;;
          insert_dataframe fit (f_insert F) now df_filtered table_name;;
          (* Register the upload *)
          register_table (f_register F) now table_name uploader_name
            (len df_filtered);;
          show (StSuccess (len df_filtered) table_name uploader_name)
      end
  end.

(** [if st.button("Upload to MySQL"):] the body of the handler, for the
    dataframe with its normalized header. *)
Definition upload_to_mysql (F : Faults) (now : Z) (df : DataFrame)
    (table_name uploader_name : string) : M () :=
  try_except
    (if blank uploader_name then
       show (StError "Your Full Name is required. Please provide your name to upload.")
     else if blank table_name then
       show (StError "Target Table Name is required.")
     else
       match index_of "applicant_id" (columns df) with
       | None =>
           show (StError "CSV must contain an 'applicant_id' column to use as primary key.")
       | Some i =>
           (* Drop rows with missing applicant_id: PK cannot be null *)
           let before := len df in
           let df := dropna i df in
           match astype_column i df with
           | Raise e => throw e
           | Ok df =>
               let dropped := (before - len df)%nat in
               (if Nat.ltb 0 dropped then show (StWarningDropped dropped)
                else mret ());;
               (* Replace remaining NaNs with None for MySQL NULL *)
               let df := where_notnull df in
               get_connection (f_connect F);;
               (* Ensure registry exists *)
               ensure_registry (f_registry F);;
               reconcile_and_insert F now df table_name uploader_name
           end
       end)
    (λ e,
       match e with
       | MySQLError =>
           show (StError "Unable to connect to database. Please check your network and try again.")
       | PyError msg => show (StError (sanitize_error_message msg))
       end).

(** The upload page for an uploaded file: the header is normalized
    before anything else looks at the dataframe. *)
Definition show_app_upload (F : Faults) (now : Z) (df : DataFrame)
    (table_name uploader_name : string) : M () :=
  upload_to_mysql F now (normalize_columns df) table_name uploader_name.

End Portal.

(** ** Reading the registry *)

(** MySQL's order on a TIMESTAMP column: NULL before every timestamp. *)
Definition timestamp_of (c : cell) : option Z :=
  match c with CInt z => Some z | _ => None end.

Definition timestamp_le (a b : option Z) : Prop :=
  match a, b with
  | None, _ => True
  | Some _, None => False
  | Some x, Some y => x ≤ y
  end.

Global Instance timestamp_le_dec a b : Decision (timestamp_le a b).
Proof. destruct a, b; simpl; apply _. Defined.

(** [ORDER BY] the column at position [j] [DESC]: [r1] may precede [r2] *)
Definition order_desc (j : nat) (r1 r2 : list cell) : Prop :=
  timestamp_le (timestamp_of (r2 !!! j)) (timestamp_of (r1 !!! j)).

Global Instance order_desc_dec j r1 r2 : Decision (order_desc j r1 r2).
Proof. unfold order_desc. apply _. Defined.

(** [SELECT cols FROM t ORDER BY by DESC] *)
Definition select_order_by_desc (name : string) (cols : list string) (by_ : string)
    (db : gmap string Table) : result (list string * list (list cell)) :=
  match db !! name with
  | None => Raise MySQLError
  | Some t =>
      let names := MySQL.column_names t in
      match index_of by_ names, mapM (M := option) (λ c, index_of c names) cols with
      | Some j, Some idx =>
          Ok (cols,
              (λ r, (λ i, r !!! i) <$> idx) <$> merge_sort (order_desc j) (t_rows t))
      | _, _ => Raise MySQLError
      end
  end.

(** Fetch the full registry table data for display *)
Definition get_registry_data (fail : bool) : M (list string * list (list cell)) :=
  try_except
    (query fail
       (select_order_by_desc registry_name
          ["table_name"; "uploaded_by"; "uploaded_at"; "row_count"] "uploaded_at"))
    (λ e, match e with
          | MySQLError => mret ([], [])
          | PyError msg => throw (PyError msg)
          end).

(** the rows of the registry; none when the table is missing *)
Definition registry_rows (db : gmap string Table) : list (list cell) :=
  match db !! registry_name with
  | Some t => t_rows t
  | None => []
  end.

Definition table_rows (name : string) (db : gmap string Table) : list (list cell) :=
  match db !! name with
  | Some t => t_rows t
  | None => []
  end.

(** An instance of MySQL's adjustments for the examples: an integer is
    clamped to the range of an INT or of a BOOLEAN (a TINYINT) column, a
    Python bool arrives as 1 or 0, a text is cut to the 65535 bytes of a
    TEXT column (in utf8mb4 a code point above 127 of the model's range
    takes two bytes) or to the 255 characters of a VARCHAR(255) column,
    and NULL for the primary key becomes the implicit default of the
    type.  What MySQL makes of a value of another kind than the column
    (a text for a number, a number for a text or a date) is not part of
    the instance: such a value is kept as given; the examples have
    none. *)
Definition clamp (lo hi z : Z) : Z := Z.max lo (Z.min hi z).

Fixpoint take_bytes (n : N) (s : string) : string :=
  match s with
  | EmptyString => EmptyString
  | String c s' =>
      let k := if Nat.ltb (PyStr.code c) 128 then 1%N else 2%N in
      if (k <=? n)%N then String c (take_bytes (n - k)%N s') else EmptyString
  end.

Definition is_text_type (ty : string) : bool :=
  bool_decide (ty = "TEXT") || bool_decide (ty = "VARCHAR(255)").

Definition mysql_fit_int (ty : string) (z : Z) : cell :=
  if bool_decide (ty = "INT") then CInt (clamp (-2147483648) 2147483647 z)
  else if bool_decide (ty = "BOOLEAN") then CInt (clamp (-128) 127 z)
  else CInt z.

Definition mysql_fit (c : Column) (v : cell) : cell :=
  let ty := col_type c in
  match v with
  | CNull =>
      if col_primary c
      then if is_text_type ty then CStr "" else CInt 0
      else CNull
  | CInt z => mysql_fit_int ty z
  | CBool b => mysql_fit_int ty (Z.b2z b)
  | CFloat m e => CFloat m e
  | CStr s =>
      if bool_decide (ty = "TEXT") then CStr (take_bytes 65535 s)
      else if bool_decide (ty = "VARCHAR(255)") then CStr (PyStr.take 255 s)
      else CStr s
  end.

(** the 64-bit two's complement integer an integer wraps to *)
Definition wrap64 (z : Z) : Z :=
  (z + 9223372036854775808) mod 18446744073709551616 - 9223372036854775808.

Definition in_int64 (z : Z) : bool :=
  (-9223372036854775808 <=? z) && (z <=? 9223372036854775807).

(** An instance of the cast for examples, [astype(int)] cell by cell.
    An integer of an int64 or uint64 column is cast to int64, wrapping.
    A bool is 1 or 0.  A finite float is truncated toward zero; out of
    the range of int64 the result is the smallest int64, as the cast of
    numpy gives it on x86-64.  A text of an object column goes through
    [int()], which raises ValueError with the [repr] of the text when
    it is not the decimal notation of an integer, and the result must
    fit into int64.  A null, which the handler has dropped before, is
    the error of pandas for NaN. *)
Definition int_of_cell (c : cell) : cast :=
  match c with
  | CInt z => Cast (wrap64 z)
  | CBool b => Cast (Z.b2z b)
  | CFloat m e =>
      let t := if 0 <=? e then m * 2 ^ e else Z.quot m (2 ^ (- e)) in
      Cast (if in_int64 t then t else -9223372036854775808)
  | CStr s =>
      match PyStr.int s with
      | Some z =>
          if in_int64 z then Cast z
          else CastError "Python int too large to convert to C long"
      | None =>
          CastError ("invalid literal for int() with base 10: "
                     +:+ PyStr.repr s)
      end
  | CNull => CastError "Cannot convert non-finite values (NA or inf) to integer"
  end.

Definition empty_world : World := {| server := ∅; screen := [] |}.

(** ** Example data *)

(** The scenario of the upload page: five rows, one without applicant id. *)
Definition risk_batch1 : DataFrame :=
  {| df_columns := [("applicant_id", float64); ("age", int64); ("income", int64)];
     df_rows := [[CFloat 1 0; CInt 30; CInt 100];
                 [CFloat 2 0; CInt 41; CInt 200];
                 [CNull; CInt 52; CInt 300];
                 [CFloat 4 0; CInt 63; CInt 400];
                 [CFloat 5 0; CInt 74; CInt 500]] |}.

(** Two complete rows. *)
Definition two_applicants : DataFrame :=
  {| df_columns := [("applicant_id", int64); ("age", int64)];
     df_rows := [[CInt 1; CInt 30]; [CInt 2; CInt 41]] |}.

(** A file whose columns are named like those of the registry. *)
Definition registry_lookalike : DataFrame :=
  {| df_columns := [("applicant_id", int64); ("table_name", object_);
                    ("uploaded_by", object_); ("row_count", int64)];
     df_rows := [[CInt 1; CStr "payroll"; CStr "Mallory"; CInt 900];
                 [CInt 2; CStr "ledger"; CStr "Mallory"; CInt 700]] |}.

(** the [row_count] column of the registry *)
Definition registry_row_counts (db : gmap string Table) : list cell :=
  (λ r, r !!! 4%nat) <$> registry_rows db.

Definition sum_counts (l : list cell) : Z :=
  foldr (λ c acc, match c with CInt z => z + acc | _ => acc end) 0 l.

Definition once (df : DataFrame) (now : Z) (table_name : string) (w : World) : World :=
  (upload_to_mysql mysql_fit int_of_cell no_faults now df table_name "Ann" w).1.

(** A file with a column the table [risk] does not have. *)
Definition with_city : DataFrame :=
  {| df_columns := [("applicant_id", int64); ("age", int64); ("city", object_)];
     df_rows := [[CInt 3; CInt 52; CStr "Kisumu"]] |}.

(** A file whose key column holds text that is not a number. *)
Definition bad_key_file : DataFrame :=
  {| df_columns := [("applicant_id", object_); ("age", int64)];
     df_rows := [[CStr "7"; CInt 30]; [CStr "abc"; CInt 41]] |}.

(** the server after the two-row file went into the new table [risk] *)
Definition risk_world : World := once two_applicants 1000 "risk" empty_world.

(** the table [risk] as that upload created it *)
Definition risk_table : Table :=
  {| t_columns :=
       [ {| col_name := "applicant_id"; col_type := "INT"; col_primary := true;
            col_extra_of := Plain |};
         {| col_name := "age"; col_type := "INT"; col_primary := false;
            col_extra_of := Plain |} ];
     t_rows := [[CInt 1; CInt 30]; [CInt 2; CInt 41]] |}.

(** a table made outside the portal, keyed by customer *)
Definition legacy_table : Table :=
  {| t_columns :=
       [ {| col_name := "customer"; col_type := "INT"; col_primary := true;
            col_extra_of := Plain |};
         {| col_name := "balance"; col_type := "DOUBLE"; col_primary := false;
            col_extra_of := Plain |} ];
     t_rows := [[CInt 7; CFloat 5 (-1)]] |}.

Definition legacy_world : World :=
  {| server := {["legacy" := legacy_table]}; screen := [] |}.

(** A file whose header has the name age twice once it is normalized. *)
Definition age_twice : DataFrame :=
  {| df_columns := [("applicant_id", int64); ("Age", int64); ("age ", object_)];
     df_rows := [[CInt 3; CInt 52; CStr "fifty-two"]] |}.

(** ** Vocabulary of the statements *)

Definition storage_tags : list string := ["INT"; "DOUBLE"; "BOOLEAN"; "DATETIME"; "TEXT"].

(** A column read from a file whose cells are all empty: pandas gives it
    the dtype float64, every value NaN. *)
Definition all_null_column : Series :=
  {| s_dtype := float64; s_values := [CNull; CNull; CNull] |}.

Definition errno13 : string := "[Errno 13] Permission denied: '/etc/shadow'".

(** the text is empty or starts with a character that is not a space *)
Definition trimmed_left (s : string) : Prop :=
  match s with
  | EmptyString => True
  | String c _ => PyStr.isspace c = false
  end.

(** the four selected columns of a row of the registry *)
Definition registry_view (r : list cell) : list cell :=
  [r !!! 1%nat; r !!! 2%nat; r !!! 3%nat; r !!! 4%nat].

Definition registry_header : list string :=
  ["table_name"; "uploaded_by"; "uploaded_at"; "row_count"].

Definition no_match_msg : string := "No matching columns found in existing table.".

(** the server once the registry has been ensured *)
Definition with_registry (db : gmap string Table) : gmap string Table :=
  match db !! registry_name with
  | Some _ => db
  | None => <[registry_name := {| t_columns := registry_columns; t_rows := [] |}]> db
  end.

(** the [except] clauses of the handler *)
Definition report_exception (e : exn) : M () :=
  match e with
  | MySQLError =>
      show (StError "Unable to connect to database. Please check your network and try again.")
  | PyError msg => show (StError (sanitize_error_message msg))
  end.

(** the handler once the primary key has been cleaned: [dropped] rows are
    reported, then the storage layer is used *)
Definition after_cleaning (fit : Column → cell → cell) (F : Faults) (now : Z)
    (dropped : nat) (df : DataFrame) (table_name uploader_name : string) : M () :=
  try_except
    ((if Nat.ltb 0 dropped then show (StWarningDropped dropped) else mret ());;
     get_connection (f_connect F);;
     ensure_registry (f_registry F);;
     reconcile_and_insert fit F now df table_name uploader_name)
    report_exception.

(** every table of [db] is in [db'] with the columns it had *)
Definition schema_kept (db db' : gmap string Table) : Prop :=
  ∀ name t, db !! name = Some t →
            ∃ t', db' !! name = Some t' ∧ t_columns t' = t_columns t.

Definition schema_kept_in : relation World :=
  λ w w', schema_kept (server w) (server w').

(** what has been shown stays on the screen *)
Definition screen_grows : relation World :=
  λ w w', screen w `prefix_of` screen w'.

(** the world before and after a computation are related by [R] *)
Definition keeps (R : relation World) {A : Type} (m : M A) : Prop :=
  ∀ w, R w (m w).1.

Definition missing_key_msg : string :=
  "CSV must contain an 'applicant_id' column to use as primary key.".

(** the server is not written *)
Definition server_same : relation World := λ w w', server w' = server w.

(** ** Stored rows and primary keys *)

(** every table of [db] is in [db'] with the columns it had, and the rows
    it had come first in it, in their order *)
Definition rows_kept (db db' : gmap string Table) : Prop :=
  ∀ name t, db !! name = Some t →
            ∃ t', db' !! name = Some t'
                  ∧ t_columns t' = t_columns t
                  ∧ t_rows t `prefix_of` t_rows t'.

Definition rows_kept_in : relation World :=
  λ w w', rows_kept (server w) (server w').

(** the primary key of a stored row *)
Definition key_of (t : Table) (r : list cell) : list cell :=
  (λ j, r !!! j) <$> MySQL.primary_positions t.

(** no two rows of the table have the same primary key *)
Definition keys_unique (t : Table) : Prop := NoDup (key_of t <$> t_rows t).

Definition keys_unique_all (db : gmap string Table) : Prop :=
  ∀ name t, db !! name = Some t → MySQL.primary_positions t ≠ [] → keys_unique t.

Definition keys_unique_in : relation World :=
  λ w w', keys_unique_all (server w) → keys_unique_all (server w').

(** a table without AUTO_INCREMENT and DEFAULT columns, as
    [create_table_from_df] makes them *)
Definition plain_table (t : Table) : Prop :=
  Forall (λ c, col_extra_of c = Plain) (t_columns t).

(** the registry entry of an upload *)
Definition registry_entry (id : Z) (table_name uploader : string) (now : Z)
    (row_count : nat) : list cell :=
  [CInt id; CStr table_name; CStr uploader; CInt now; CInt (Z.of_nat row_count)].

(** the registry, when there is one, has the columns the portal gives it *)
Definition registry_is_portals (db : gmap string Table) : Prop :=
  ∀ t, db !! registry_name = Some t → t_columns t = registry_columns.

Definition validate_failed_msg : string :=
  "Unable to validate table structure. Please try again.".

(** the column definitions [create_table_from_df] writes for a dataframe *)
Definition created_columns (df : DataFrame) : list Column :=
  imap (λ i col,
          {| col_name := col;
             col_type := infer_mysql_type (s_dtype (column_at i df));
             col_primary := bool_decide (col = "applicant_id");
             col_extra_of := Plain |})
       (columns df).

Definition connect_failed_msg : string :=
  "Unable to connect to database. Please check your network and try again.".

(** ** Signing in and out

    [st.session_state] holds the two keys the application sets.  The
    credentials are read from the environment when the script starts:
    [os.getenv] gives [None] for a variable that is not set. *)

Record SessionState := {
  authenticated : bool;
  username : option string
}.

(** the state the script gives a session that has none yet *)
Definition new_session : SessionState :=
  {| authenticated := false; username := None |}.

Section Login.

Variables app_username app_password : option string.

(** Authenticate user credentials *)
Definition authenticate (username_input password_input : string) : bool :=
  bool_decide (Some username_input = app_username)
  && bool_decide (Some password_input = app_password).

(** Securely logout user *)
Definition logout (st : SessionState) : SessionState :=
  {| authenticated := false; username := None |}.

(** [if submitted:] of the login form: the session and the error shown *)
Definition show_login (username_input password_input : string)
    (st : SessionState) : SessionState * option string :=
  if PyStr.is_empty username_input || PyStr.is_empty password_input then
    (st, Some "Please enter both username and password.")
  else if authenticate username_input password_input then
    ({| authenticated := true; username := Some username_input |}, None)
  else
    (st, Some "Invalid credentials. Access denied.").

(** What a user does on the page in front of them. *)
Inductive click : Type :=
| SignIn (username_input password_input : string)
| SignOut.

(** One run of the script: the login form is all there is until the
    session is authenticated, and the sign out button is on the pages
    behind it.  A click on a widget that is not on the page cannot
    happen; the session stays as it is. *)
Definition run_app (st : SessionState) (c : click) : SessionState :=
  if negb (authenticated st) then
    match c with
    | SignIn u p => (show_login u p st).1
    | SignOut => st
    end
  else
    match c with
    | SignOut => logout st
    | SignIn _ _ => st
    end.

End Login.

(** A later file for the table [risk]: applicant 2 again, and a new one. *)
Definition later_applicants : DataFrame :=
  {| df_columns := [("applicant_id", int64); ("age", int64)];
     df_rows := [[CInt 2; CInt 99]; [CInt 3; CInt 52]] |}.

(** the registry after the two-row file went into [risk] *)
Definition risk_registry : Table :=
  {| t_columns := registry_columns;
     t_rows := [[CInt 1; CStr "risk"; CStr "Ann"; CInt 1000; CInt 2]] |}.

(** the storage layer fails at CREATE TABLE, or at the bulk insert *)
Definition create_fails : Faults :=
  {| f_connect := false; f_registry := false; f_cursor := false;
     f_check := false; f_describe := false; f_create := true;
     f_insert := false; f_register := false |}.

Definition insert_fails : Faults :=
  {| f_connect := false; f_registry := false; f_cursor := false;
     f_check := false; f_describe := false; f_create := false;
     f_insert := true; f_register := false |}.

(** ** Words for the header of the file *)

(** Unicode's whitespace among the code points below 256 *)
Definition whitespace_codes : list nat :=
  [9; 10; 11; 12; 13; 28; 29; 30; 31; 32; 133; 160]%nat.

(** the code point of the lowercase form of a character: the capital
    letters A to Z and U+00C0 to U+00DE, the multiplication sign U+00D7
    apart, have theirs 32 further on; every other character is its own *)
Definition lowercase_code (n : nat) : nat :=
  if bool_decide ((65 ≤ n ≤ 90)%nat ∨ ((192 ≤ n ≤ 222)%nat ∧ n ≠ 215%nat))
  then (n + 32)%nat else n.

(** every character of the text is whitespace *)
Fixpoint all_space (s : string) : bool :=
  match s with
  | EmptyString => true
  | String c s' => PyStr.isspace c && all_space s'
  end.

(** the text is empty or ends with a character that is not a space *)
Fixpoint trimmed_right (s : string) : Prop :=
  match s with
  | EmptyString => True
  | String c s' =>
      match s' with
      | EmptyString => PyStr.isspace c = false
      | String _ _ => trimmed_right s'
      end
  end.

(** [n] is [h] without the whitespace around it, each character in
    lowercase *)
Definition lowered_and_stripped (h n : string) : Prop :=
  ∃ l m r,
    h = l +:+ m +:+ r
    ∧ all_space l = true ∧ all_space r = true
    ∧ trimmed_left m ∧ trimmed_right m
    ∧ String.length n = String.length m
    ∧ ∀ k c, String.get k m = Some c →
             ∃ c', String.get k n = Some c'
                   ∧ PyStr.code c' = lowercase_code (PyStr.code c).

(** two names that differ only in the case of their letters and in the
    whitespace around them *)
Definition same_but_case_and_space (h h' : string) : Prop :=
  ∃ l m r l' m' r',
    h = l +:+ m +:+ r ∧ h' = l' +:+ m' +:+ r'
    ∧ all_space l = true ∧ all_space r = true
    ∧ all_space l' = true ∧ all_space r' = true
    ∧ String.length m = String.length m'
    ∧ ∀ k c c', String.get k m = Some c → String.get k m' = Some c' →
                lowercase_code (PyStr.code c) = lowercase_code (PyStr.code c').

(** * Properties *)

(** ** Type inference *)

(** C2, as stated, fails: a column all of whose values are null does not
    always infer TEXT.  The inference reads the dtype of the column and
    never its values, and the all-NaN float64 column infers DOUBLE. *)
Lemma all_null_column_not_text :
  ¬ (∀ col : Series,
       Forall (λ v, v = CNull) (s_values col) →
       infer_mysql_type (s_dtype col) = "TEXT").
Proof.
  intros H. specialize (H all_null_column).
  assert (Hnull : Forall (λ v, v = CNull) (s_values all_null_column))
    by (repeat constructor).
  specialize (H Hnull). vm_compute in H. discriminate H.
Qed.

(** C2, amended: type inference is a total function of the dtype of the
    column.  For every column it returns one of the five tags INT,
    DOUBLE, BOOLEAN, DATETIME, TEXT, trying integer, then float, then
    boolean, then datetime, and falling back to TEXT; the values of the
    column play no part, so an all-null column infers TEXT exactly when
    its dtype is none of the four. *)
Theorem infer_mysql_type_rule_order (col : Series) :
  let d := s_dtype col in
  infer_mysql_type d ∈ storage_tags
  ∧ (pd_types.is_integer_dtype d = true → infer_mysql_type d = "INT")
  ∧ (pd_types.is_integer_dtype d = false →
     pd_types.is_float_dtype d = true → infer_mysql_type d = "DOUBLE")
  ∧ (pd_types.is_integer_dtype d = false → pd_types.is_float_dtype d = false →
     pd_types.is_bool_dtype d = true → infer_mysql_type d = "BOOLEAN")
  ∧ (pd_types.is_integer_dtype d = false → pd_types.is_float_dtype d = false →
     pd_types.is_bool_dtype d = false →
     pd_types.is_datetime64_any_dtype d = true → infer_mysql_type d = "DATETIME")
  ∧ (infer_mysql_type d = "TEXT" ↔
     pd_types.is_integer_dtype d = false ∧ pd_types.is_float_dtype d = false ∧
     pd_types.is_bool_dtype d = false ∧ pd_types.is_datetime64_any_dtype d = false)
  ∧ (∀ values, infer_mysql_type (s_dtype {| s_dtype := d; s_values := values |})
               = infer_mysql_type d).
Proof.
  destruct col as [d vs]; simpl.
  unfold infer_mysql_type, storage_tags.
  split; [destruct d; apply (bool_decide_unpack _); reflexivity |].
  destruct d; simpl; repeat split; intros;
    try reflexivity; try discriminate;
    repeat match goal with H : _ ∧ _ |- _ => destruct H end; discriminate.
Qed.

(** ** The sanitizer *)

(** C7 at a failing input: the text of a permission error comes back from
    the sanitizer as it went in, with the file-system path in it.  The
    pattern for paths wants a dot after the slash. *)
Theorem sanitize_error_message_keeps_path :
  sanitize_error_message errno13 = errno13
  ∧ PyStr.contains "/etc/shadow" (sanitize_error_message errno13) = true.
Proof. split; vm_compute; reflexivity. Qed.

(** The sanitizer never returns the empty text. *)
Lemma sanitize_error_message_nonempty (error_str : string) :
  sanitize_error_message error_str ≠ "".
Proof.
  unfold sanitize_error_message.
  destruct (PyStr.is_empty error_str); [discriminate |].
  match goal with
  | |- (if PyStr.is_empty (PyStr.strip ?s) then _ else _) ≠ _ =>
      destruct s as [| c s'] eqn:E
  end.
  - vm_compute. discriminate.
  - destruct (PyStr.is_empty _); discriminate.
Qed.

(** Further texts the sanitizer lets through: a host name, a path on
    drive A, a statement other than SELECT or INSERT. *)
Example sanitize_error_message_keeps_more :
  sanitize_error_message "Unknown server db-prod-01.corp.example.com"
  = "Unknown server db-prod-01.corp.example.com"
  ∧ sanitize_error_message "cannot open A:\secrets\keys"
    = "cannot open A:\secrets\keys"
  ∧ sanitize_error_message "near 'DROP TABLE accounts' at line 1"
    = "near 'DROP TABLE accounts' at line 1".
Proof. repeat split; vm_compute; reflexivity. Qed.

(** ** Ingesting the same file twice *)

(** C1 at a failing input: the two-row file is uploaded twice into the
    new table [risk].  The second upload inserts nothing, the table
    still has the two rows of the first.  Both registry entries carry
    [row_count] 2, the number of rows submitted, and the page reports
    two uploaded rows both times: the counts sum to 4, not to 2. *)
Theorem reingest_row_count_is_rows_submitted :
  let w1 := once two_applicants 1000 "risk" empty_world in
  let w2 := once two_applicants 2000 "risk" w1 in
  table_rows "risk" (server w1) = [[CInt 1; CInt 30]; [CInt 2; CInt 41]]
  ∧ table_rows "risk" (server w2) = table_rows "risk" (server w1)
  ∧ registry_row_counts (server w2) = [CInt 2; CInt 2]
  ∧ sum_counts (registry_row_counts (server w2)) = 4
  ∧ screen w2 = [StSuccess 2 "risk" "Ann"; StSuccess 2 "risk" "Ann"].
Proof. repeat split; vm_compute; reflexivity. Qed.

(** ** One registry entry per upload *)

(** C6 at a failing input: the target table name is the name of the
    registry itself and the file has columns named like the registry's.
    The bulk insert of the one upload writes the two rows of the file
    into the registry, and the registration adds a third. *)
Theorem upload_into_registry_appends_three :
  let w := once registry_lookalike 1000 registry_name empty_world in
  registry_rows (server empty_world) = []
  ∧ registry_rows (server w) =
      [[CInt 1; CStr "payroll"; CStr "Mallory"; CInt 1000; CInt 900];
       [CInt 2; CStr "ledger"; CStr "Mallory"; CInt 1000; CInt 700];
       [CInt 3; CStr "_uploaded_tables"; CStr "Ann"; CInt 1000; CInt 2]]
  ∧ screen w = [StSuccess 2 "_uploaded_tables" "Ann"].
Proof. repeat split; vm_compute; reflexivity. Qed.

(** ** The header of the uploaded file *)

Section Header.

Local Ltac by_cases_on c :=
  destruct c as [[] [] [] [] [] [] [] []]; reflexivity.

Lemma isspace_lower_char c : PyStr.isspace (PyStr.lower_char c) = PyStr.isspace c.
Proof. by_cases_on c. Qed.

Lemma lower_char_idem c : PyStr.lower_char (PyStr.lower_char c) = PyStr.lower_char c.
Proof. by_cases_on c. Qed.

Lemma lower_idem s : PyStr.lower (PyStr.lower s) = PyStr.lower s.
Proof. induction s as [| c s IH]; simpl; [done |]. by rewrite lower_char_idem, IH. Qed.

Lemma lstrip_lower s : PyStr.lstrip (PyStr.lower s) = PyStr.lower (PyStr.lstrip s).
Proof.
  induction s as [| c s IH]; simpl; [done |].
  rewrite isspace_lower_char. by destruct (PyStr.isspace c).
Qed.

Lemma rstrip_lower s : PyStr.rstrip (PyStr.lower s) = PyStr.lower (PyStr.rstrip s).
Proof.
  induction s as [| c s IH]; simpl; [done |].
  rewrite IH, isspace_lower_char.
  destruct (PyStr.rstrip s); simpl; [by destruct (PyStr.isspace c) | done].
Qed.

Lemma strip_lower s : PyStr.strip (PyStr.lower s) = PyStr.lower (PyStr.strip s).
Proof. unfold PyStr.strip. by rewrite lstrip_lower, rstrip_lower. Qed.

Lemma lstrip_trimmed s : trimmed_left (PyStr.lstrip s).
Proof.
  induction s as [| c s IH]; simpl; [done |].
  by destruct (PyStr.isspace c) eqn:E.
Qed.

Lemma lstrip_id s : trimmed_left s → PyStr.lstrip s = s.
Proof. destruct s as [| c s]; simpl; [done |]. by intros ->. Qed.

Lemma rstrip_trimmed s : trimmed_left s → trimmed_left (PyStr.rstrip s).
Proof.
  destruct s as [| c s]; simpl; [done |]. intros Hc.
  destruct (PyStr.rstrip s); simpl; by rewrite ?Hc.
Qed.

Lemma rstrip_idem s : PyStr.rstrip (PyStr.rstrip s) = PyStr.rstrip s.
Proof.
  induction s as [| c s IH]; simpl; [done |].
  destruct (PyStr.rstrip s) as [| a r] eqn:E.
  - destruct (PyStr.isspace c) eqn:Hc; simpl; by rewrite ?Hc.
  - change (PyStr.rstrip (String c (String a r))) with
      (match PyStr.rstrip (String a r) with
       | EmptyString =>
           if PyStr.isspace c then EmptyString else String c EmptyString
       | r0 => String c r0
       end).
    by rewrite IH.
Qed.

Lemma strip_idem s : PyStr.strip (PyStr.strip s) = PyStr.strip s.
Proof.
  unfold PyStr.strip.
  rewrite (lstrip_id (PyStr.rstrip (PyStr.lstrip s)))
    by apply rstrip_trimmed, lstrip_trimmed.
  apply rstrip_idem.
Qed.

Lemma normalize_name_lower h : PyStr.lower (normalize_name h) = normalize_name h.
Proof. unfold normalize_name. by rewrite <- strip_lower, lower_idem. Qed.

Lemma normalize_name_strip h : PyStr.strip (normalize_name h) = normalize_name h.
Proof. unfold normalize_name. apply strip_idem. Qed.

Lemma isspace_codes c :
  PyStr.isspace c = bool_decide (PyStr.code c ∈ whitespace_codes).
Proof. by_cases_on c. Qed.

Lemma lower_char_code c :
  PyStr.code (PyStr.lower_char c) = lowercase_code (PyStr.code c).
Proof. by_cases_on c. Qed.

Lemma code_inj c c' : PyStr.code c = PyStr.code c' → c = c'.
Proof.
  unfold PyStr.code. intros H.
  by rewrite <- (ascii_nat_embedding c), <- (ascii_nat_embedding c'), H.
Qed.

Lemma lower_length s : String.length (PyStr.lower s) = String.length s.
Proof. induction s as [| c s IH]; simpl; [done |]. by rewrite IH. Qed.

Lemma lower_get s k c :
  String.get k s = Some c →
  String.get k (PyStr.lower s) = Some (PyStr.lower_char c).
Proof.
  revert k. induction s as [| a s IH]; intros k; simpl; [done |].
  destruct k as [| k]; [by intros [= ->] | apply IH].
Qed.

Lemma lower_app a b : PyStr.lower (a +:+ b) = PyStr.lower a +:+ PyStr.lower b.
Proof. induction a as [| c a IH]; simpl; [done |]. by rewrite IH. Qed.

Lemma all_space_lower s : all_space (PyStr.lower s) = all_space s.
Proof.
  induction s as [| c s IH]; simpl; [done |].
  by rewrite isspace_lower_char, IH.
Qed.

Lemma lstrip_all_space s : all_space s = true → PyStr.lstrip s = "".
Proof.
  induction s as [| c s IH]; simpl; [done |].
  intros [Hc Hs]%andb_prop. rewrite Hc. by apply IH.
Qed.

Lemma rstrip_all_space s : all_space s = true → PyStr.rstrip s = "".
Proof.
  induction s as [| c s IH]; simpl; [done |].
  intros [Hc Hs]%andb_prop. by rewrite (IH Hs), Hc.
Qed.

Lemma lstrip_padded l s : all_space l = true → PyStr.lstrip (l +:+ s) = PyStr.lstrip s.
Proof.
  induction l as [| c l IH]; simpl; [done |].
  intros [Hc Hl]%andb_prop. rewrite Hc. by apply IH.
Qed.

Lemma rstrip_padded s r : all_space r = true → PyStr.rstrip (s +:+ r) = PyStr.rstrip s.
Proof.
  intros Hr. induction s as [| c s IH]; simpl.
  - by apply rstrip_all_space.
  - by rewrite IH.
Qed.

Lemma strip_padded_right s r :
  all_space r = true → PyStr.strip (s +:+ r) = PyStr.strip s.
Proof.
  intros Hr. unfold PyStr.strip. induction s as [| c s IH].
  - change (PyStr.rstrip (PyStr.lstrip r) = PyStr.rstrip (PyStr.lstrip "")).
    by rewrite (lstrip_all_space r Hr).
  - change (PyStr.lstrip (String c s +:+ r))
      with (if PyStr.isspace c then PyStr.lstrip (s +:+ r)
            else String c s +:+ r).
    change (PyStr.lstrip (String c s))
      with (if PyStr.isspace c then PyStr.lstrip s else String c s).
    destruct (PyStr.isspace c); [done |].
    by apply (rstrip_padded (String c s)).
Qed.

Lemma strip_padded l m r :
  all_space l = true → all_space r = true →
  PyStr.strip (l +:+ m +:+ r) = PyStr.strip m.
Proof.
  intros Hl Hr. unfold PyStr.strip at 1. rewrite lstrip_padded by done.
  by apply strip_padded_right.
Qed.

Lemma app_cons c a b : String c a +:+ b = String c (a +:+ b).
Proof. reflexivity. Qed.

Lemma app_empty b : "" +:+ b = b.
Proof. reflexivity. Qed.

Lemma lstrip_split s : ∃ l, s = l +:+ PyStr.lstrip s ∧ all_space l = true.
Proof.
  induction s as [| c s (l & Hs & Hl)]; simpl; [by exists "" |].
  destruct (PyStr.isspace c) eqn:Hc.
  - exists (String c l). rewrite app_cons. simpl. rewrite Hc, Hl.
    split; [by f_equal | done].
  - by exists "".
Qed.

Lemma rstrip_split s : ∃ r, s = PyStr.rstrip s +:+ r ∧ all_space r = true.
Proof.
  induction s as [| c s (r & Hs & Hr)]; simpl; [by exists "" |].
  destruct (PyStr.rstrip s) as [| a t] eqn:E.
  - rewrite app_empty in Hs. subst s. destruct (PyStr.isspace c) eqn:Hc.
    + exists (String c r). rewrite app_empty. simpl. by rewrite Hc, Hr.
    + exists r. by rewrite app_cons, app_empty.
  - exists r. split; [| done]. rewrite app_cons. by rewrite <- Hs.
Qed.

Lemma rstrip_trimmed_right s : trimmed_right (PyStr.rstrip s).
Proof.
  induction s as [| c s IH]; simpl; [done |].
  destruct (PyStr.rstrip s) as [| a t] eqn:E; simpl.
  - by destruct (PyStr.isspace c) eqn:Hc.
  - exact IH.
Qed.

Lemma normalize_name_lowered_and_stripped h :
  lowered_and_stripped h (normalize_name h).
Proof.
  destruct (lstrip_split h) as (l & Hh & Hl).
  destruct (rstrip_split (PyStr.lstrip h)) as (r & Hm & Hr).
  exists l, (PyStr.strip h), r. unfold PyStr.strip at 1.
  split; [by rewrite <- Hm |].
  split; [done |]. split; [done |].
  split; [apply rstrip_trimmed, lstrip_trimmed |].
  split; [apply rstrip_trimmed_right |].
  unfold normalize_name. rewrite strip_lower.
  split; [apply lower_length |].
  intros k c Hk. exists (PyStr.lower_char c).
  split; [by apply lower_get | apply lower_char_code].
Qed.

Lemma lower_eq_pointwise m m' :
  String.length m = String.length m' →
  (∀ k c c', String.get k m = Some c → String.get k m' = Some c' →
             lowercase_code (PyStr.code c) = lowercase_code (PyStr.code c')) →
  PyStr.lower m = PyStr.lower m'.
Proof.
  revert m'. induction m as [| c m IH]; intros [| c' m']; simpl; try done.
  intros [= Hlen] Hall. f_equal.
  - apply code_inj. rewrite !lower_char_code. by apply (Hall 0%nat).
  - apply IH; [done |]. intros k a a'. apply (Hall (S k)).
Qed.

Lemma lower_eq_pointwise_inv m m' :
  PyStr.lower m = PyStr.lower m' →
  String.length m = String.length m'
  ∧ ∀ k c c', String.get k m = Some c → String.get k m' = Some c' →
              lowercase_code (PyStr.code c) = lowercase_code (PyStr.code c').
Proof.
  intros H. split.
  - by rewrite <- (lower_length m), H, lower_length.
  - intros k c c' Hc Hc'. rewrite <- !lower_char_code. f_equal.
    apply lower_get in Hc, Hc'. rewrite H in Hc. congruence.
Qed.

Lemma normalize_name_padded l m r :
  all_space l = true → all_space r = true →
  normalize_name (l +:+ m +:+ r) = PyStr.strip (PyStr.lower m).
Proof.
  intros Hl Hr. unfold normalize_name. rewrite !lower_app.
  apply strip_padded; by rewrite all_space_lower.
Qed.

Lemma same_but_case_and_space_normalize h h' :
  same_but_case_and_space h h' → normalize_name h = normalize_name h'.
Proof.
  intros (l & m & r & l' & m' & r' & -> & -> & Hl & Hr & Hl' & Hr' & Hlen & Hall).
  rewrite !normalize_name_padded by done.
  by rewrite (lower_eq_pointwise m m').
Qed.

Lemma normalize_name_same_but_case_and_space h h' :
  normalize_name h = normalize_name h' → same_but_case_and_space h h'.
Proof.
  intros Heq.
  destruct (lstrip_split h) as (l & Hh & Hl).
  destruct (rstrip_split (PyStr.lstrip h)) as (r & Hm & Hr).
  destruct (lstrip_split h') as (l' & Hh' & Hl').
  destruct (rstrip_split (PyStr.lstrip h')) as (r' & Hm' & Hr').
  exists l, (PyStr.rstrip (PyStr.lstrip h)), r,
         l', (PyStr.rstrip (PyStr.lstrip h')), r'.
  split; [by rewrite <- Hm |]. split; [by rewrite <- Hm' |].
  repeat (split; [done |]).
  apply lower_eq_pointwise_inv.
  unfold normalize_name in Heq. by rewrite !strip_lower in Heq.
Qed.

Lemma rstrip_id s : trimmed_right s → PyStr.rstrip s = s.
Proof.
  induction s as [| c s IH]; [done |].
  destruct s as [| a t].
  - simpl. by intros ->.
  - intros Ht. change (PyStr.rstrip (String c (String a t)))
      with (match PyStr.rstrip (String a t) with
            | EmptyString =>
                if PyStr.isspace c then EmptyString else String c EmptyString
            | r0 => String c r0
            end).
    by rewrite (IH Ht).
Qed.

Lemma strip_id s : trimmed_left s → trimmed_right s → PyStr.strip s = s.
Proof.
  intros Hl Hr. unfold PyStr.strip. rewrite lstrip_id by done.
  by apply rstrip_id.
Qed.

(** the lowered and stripped form of a name is its normalized name, and
    nothing else is *)
Lemma lowered_and_stripped_unique h n :
  lowered_and_stripped h n → n = normalize_name h.
Proof.
  intros (l & m & r & -> & Hl & Hr & Hml & Hmr & Hlen & Hget).
  rewrite normalize_name_padded, strip_lower, strip_id by done.
  clear l r Hl Hr Hml Hmr. revert n Hlen Hget.
  induction m as [| c m IH]; intros [| a n]; simpl; try done.
  intros [= Hlen] Hget. f_equal.
  - destruct (Hget 0%nat c eq_refl) as (c' & [= <-] & Hc').
    apply code_inj. by rewrite lower_char_code.
  - apply IH; [done |]. intros k b Hb. apply (Hget (S k) b Hb).
Qed.

Lemma columns_normalize_columns df :
  columns (normalize_columns df) = normalize_name <$> columns df.
Proof.
  unfold columns, normalize_columns; simpl.
  induction (df_columns df) as [| [h d] l IH]; [done |].
  rewrite !fmap_cons. by f_equal.
Qed.

Lemma normalize_columns_ext df df' :
  normalize_name <$> columns df' = normalize_name <$> columns df →
  (df_columns df').*2 = (df_columns df).*2 →
  df_rows df' = df_rows df →
  normalize_columns df' = normalize_columns df.
Proof.
  intros Hn Hd Hr. unfold normalize_columns. f_equal; [| done].
  unfold columns in Hn. revert Hn Hd. generalize (df_columns df).
  induction (df_columns df') as [| [h d] l IH]; intros [| [h2 d2] l2];
    rewrite ?fmap_cons, ?fmap_nil; intros Hn Hd; try discriminate; [done |].
  simpl in Hn, Hd. simplify_eq. f_equal; [by f_equal | by apply IH].
Qed.

Lemma index_of_is_Some c l : is_Some (index_of c l) ↔ c ∈ l.
Proof.
  induction l as [| x l IH]; simpl.
  - split; [intros [? ?]; discriminate | intros H; inversion H].
  - destruct (decide (x = c)) as [-> | Hne].
    + split; [intros _; left | intros _; by eexists].
    + rewrite fmap_is_Some, IH. split; [by right |].
      intros H. inversion H; subst; [done | assumption].
Qed.

End Header.

(** C10: the header of the uploaded file is normalized before anything
    else looks at it: the handler runs on the frame with the normalized
    header, which has the dtypes and the rows of the file.  The
    normalized name of a header cell is the cell without the whitespace
    around it (Unicode's whitespace, the no-break space included), each
    character in lowercase, and nothing else.  Every column name the
    handler sees is lowercase and has no surrounding whitespace; the
    check for the primary-key column succeeds exactly when some header
    cell normalizes to [applicant_id], as "Applicant_ID " does; two
    names have the same normalized name exactly when they differ in the
    case of their letters and in the whitespace around them only; and
    two files that differ only in this way in their header cells are
    handled the same, in the requirement check and in the matching
    against the columns of an existing table alike. *)
Theorem header_case_and_whitespace_ignored
    (fit : Column → cell → cell) (astype_int : cell → cast) (F : Faults)
    (now : Z) (df : DataFrame)
    (table_name uploader_name : string) (w : World) :
  (∀ c, c ∈ columns (normalize_columns df) →
        PyStr.lower c = c ∧ PyStr.strip c = c)
  ∧ (is_Some (index_of "applicant_id" (columns (normalize_columns df))) ↔
     ∃ h, h ∈ columns df ∧ normalize_name h = "applicant_id")
  ∧ normalize_name "Applicant_ID " = "applicant_id"
  ∧ (∀ df' : DataFrame,
       normalize_name <$> columns df' = normalize_name <$> columns df →
       (df_columns df').*2 = (df_columns df).*2 →
       df_rows df' = df_rows df →
       show_app_upload fit astype_int F now df' table_name uploader_name w
       = show_app_upload fit astype_int F now df table_name uploader_name w
       ∧ validate_and_append_data F (normalize_columns df') table_name w
         = validate_and_append_data F (normalize_columns df) table_name w)
  ∧ show_app_upload fit astype_int F now df table_name uploader_name w
    = upload_to_mysql fit astype_int F now (normalize_columns df) table_name
        uploader_name w
  ∧ (columns (normalize_columns df) = normalize_name <$> columns df
     ∧ (df_columns (normalize_columns df)).*2 = (df_columns df).*2
     ∧ df_rows (normalize_columns df) = df_rows df)
  ∧ (∀ c, PyStr.isspace c = true ↔ PyStr.code c ∈ whitespace_codes)
  ∧ (∀ h n, lowered_and_stripped h n ↔ n = normalize_name h)
  ∧ normalize_name (String (ascii_of_nat 160) "Applicant_ID"
                    +:+ String (ascii_of_nat 133) "")
    = "applicant_id"
  ∧ (∀ h h', normalize_name h = normalize_name h' ↔
             same_but_case_and_space h h')
  ∧ (∀ df' : DataFrame,
       Forall2 same_but_case_and_space (columns df') (columns df) →
       (df_columns df').*2 = (df_columns df).*2 →
       df_rows df' = df_rows df →
       show_app_upload fit astype_int F now df' table_name uploader_name w
       = show_app_upload fit astype_int F now df table_name uploader_name w
       ∧ validate_and_append_data F (normalize_columns df') table_name w
         = validate_and_append_data F (normalize_columns df) table_name w).
Proof.
  split; [| split; [| split; [| split; [| split; [| split; [| split;
    [| split; [| split; [| split]]]]]]]]].
  - intros c H. rewrite columns_normalize_columns in H.
    apply list_elem_of_fmap in H as (h & -> & _).
    split; [apply normalize_name_lower | apply normalize_name_strip].
  - rewrite index_of_is_Some, columns_normalize_columns. split.
    + intros (h & -> & Hin)%list_elem_of_fmap. eauto.
    + intros (h & Hin & <-). by apply list_elem_of_fmap_2.
  - vm_compute. reflexivity.
  - intros df' Hn Hd Hr. unfold show_app_upload.
    by rewrite (normalize_columns_ext df df').
  - reflexivity.
  - split; [apply columns_normalize_columns |]. split; [| done].
    unfold normalize_columns; simpl.
    induction (df_columns df) as [| [h d] l IH]; [done |].
    rewrite !fmap_cons. by f_equal.
  - intros c. rewrite isspace_codes. apply bool_decide_eq_true.
  - intros h n. split.
    + apply lowered_and_stripped_unique.
    + intros ->. apply normalize_name_lowered_and_stripped.
  - vm_compute. reflexivity.
  - intros h h'. split.
    + apply normalize_name_same_but_case_and_space.
    + apply same_but_case_and_space_normalize.
  - intros df' Hn Hd Hr.
    assert (normalize_name <$> columns df' = normalize_name <$> columns df)
      as Heq.
    { induction Hn as [| h h' l l' Hh Hn IH]; [done |].
      rewrite !fmap_cons. f_equal; [| exact IH].
      by apply same_but_case_and_space_normalize. }
    unfold show_app_upload. by rewrite (normalize_columns_ext df df').
Qed.

(** ** Reading the registry *)

Section RegistryRead.

Global Instance timestamp_le_total : Total timestamp_le.
Proof. intros [x |] [y |]; simpl; auto. lia. Qed.

Global Instance timestamp_le_trans : Transitive timestamp_le.
Proof. intros [x |] [y |] [z |]; simpl; auto; try done. lia. Qed.

Global Instance order_desc_total j : Total (order_desc j).
Proof. intros r1 r2. unfold order_desc. destruct (total timestamp_le
  (timestamp_of (r1 !!! j)) (timestamp_of (r2 !!! j))); auto. Qed.

Global Instance order_desc_trans j : Transitive (order_desc j).
Proof. intros r1 r2 r3 H12 H23. unfold order_desc in *. by etrans. Qed.

Lemma select_registry_sorted db cols data :
  select_order_by_desc registry_name registry_header "uploaded_at" db
    = Ok (cols, data) →
  StronglySorted (order_desc 2) data.
Proof.
  unfold select_order_by_desc, registry_header.
  destruct (db !! registry_name) as [t |]; [| discriminate].
  destruct (index_of "uploaded_at" (MySQL.column_names t)) as [j |] eqn:Hj;
    [| discriminate].
  cbn -[merge_sort index_of]. rewrite Hj.
  destruct (index_of "table_name" _) as [i0 |]; [| discriminate].
  destruct (index_of "uploaded_by" _) as [i1 |]; [| discriminate].
  destruct (index_of "row_count" _) as [i3 |]; [| discriminate].
  cbn -[merge_sort]. intros [= <- <-].
  apply StronglySorted_fmap with (R1 := order_desc j).
  - intros r1 r2 H. exact H.
  - apply StronglySorted_merge_sort; apply _.
Qed.

Lemma select_registry_complete db t :
  db !! registry_name = Some t →
  t_columns t = registry_columns →
  ∃ data,
    select_order_by_desc registry_name registry_header "uploaded_at" db
      = Ok (registry_header, data)
    ∧ data ≡ₚ registry_view <$> t_rows t.
Proof.
  intros Ht Hc. unfold select_order_by_desc. rewrite Ht.
  unfold MySQL.column_names. rewrite Hc. cbn -[merge_sort].
  eexists; split; [reflexivity |].
  apply fmap_Permutation, merge_sort_Permutation.
Qed.

End RegistryRead.

(** C9: reading the registry changes nothing and never raises.  It
    returns the rows ordered by upload timestamp, newest first; when the
    storage layer is unavailable it returns the empty sequence; and when
    the registry is there, every entry is in the result. *)
Theorem get_registry_data_pure_newest_first (fail : bool) (w : World) :
  ∃ cols data,
    get_registry_data fail w = (w, Ok (cols, data))
    ∧ StronglySorted (order_desc 2) data
    ∧ (fail = true → cols = [] ∧ data = [])
    ∧ (∀ t, fail = false →
            server w !! registry_name = Some t →
            t_columns t = registry_columns →
            cols = registry_header ∧ data ≡ₚ registry_view <$> t_rows t).
Proof.
  unfold get_registry_data, try_except, query.
  destruct fail.
  - exists [], []. repeat split; [constructor | intros; discriminate ..].
  - fold registry_header.
    destruct (select_order_by_desc registry_name registry_header "uploaded_at"
                (server w)) as [[cols data] | e] eqn:E.
    + exists cols, data. repeat split; try (intros; discriminate).
      * eapply select_registry_sorted, E.
      * destruct (select_registry_complete _ _ H0 H1) as (d & Hd & _). congruence.
      * destruct (select_registry_complete _ _ H0 H1) as (d & Hd & Hp).
        rewrite E in Hd. by simplify_eq.
    + assert (e = MySQLError) as ->.
      { unfold select_order_by_desc in E.
        repeat case_match; simplify_eq; done. }
      exists [], []. repeat split; try constructor; try (intros; discriminate).
      * destruct (select_registry_complete _ _ H0 H1) as (d & Hd & _). congruence.
      * destruct (select_registry_complete _ _ H0 H1) as (d & Hd & _). congruence.
Qed.

(** ** Reconciliation against an existing table *)

Section Reconcile.

(** what the reconciliation answers for an existing table *)
Lemma validate_existing_table F df table_name w tbl :
  server w !! table_name = Some tbl →
  t_columns tbl ≠ [] →
  f_cursor F = false → f_check F = false → f_describe F = false →
  validate_and_append_data F df table_name w =
    (w, Ok match filter (λ col, col ∈ MySQL.column_names tbl) (columns df) with
           | [] => (None, Some no_match_msg)
           | keep => (Some (select keep df), None)
           end).
Proof.
  intros Ht Hne Hcur Hc Hd.
  unfold validate_and_append_data, get_table_columns, try_except, query,
    mbind, M_bind, mret, M_ret.
  rewrite Hcur, Hc, Hd, Ht. rewrite bool_decide_eq_true_2 by eauto.
  simpl. rewrite Ht. unfold MySQL.column_names.
  destruct (t_columns tbl) as [| c cs] eqn:E; [done |].
  rewrite fmap_cons.
  by destruct (filter _ (columns df)).
Qed.

Lemma validate_existing_table_kept F df table_name w tbl :
  server w !! table_name = Some tbl →
  t_columns tbl ≠ [] →
  f_cursor F = false → f_check F = false → f_describe F = false →
  filter (λ col, col ∈ MySQL.column_names tbl) (columns df) ≠ [] →
  validate_and_append_data F df table_name w =
    (w, Ok (Some (select (filter (λ col, col ∈ MySQL.column_names tbl)
                            (columns df)) df), None)).
Proof.
  intros Ht Hne Hcur Hc Hd Hkeep.
  rewrite (validate_existing_table F df table_name w tbl) by done.
  by destruct (filter _ (columns df)).
Qed.

End Reconcile.

Section Select.

Lemma index_of_Some c l i : index_of c l = Some i → l !! i = Some c.
Proof.
  revert i. induction l as [| x l IH]; intros i; simpl; [done |].
  destruct (decide (x = c)) as [-> | Hne].
  - by intros [= <-].
  - destruct (index_of c l) as [j |]; simpl; [| done].
    intros [= <-]. by apply IH.
Qed.

Lemma index_of_lookup (l : list string) j c :
  NoDup l → l !! j = Some c → index_of c l = Some j.
Proof.
  intros Hnd. revert j. induction Hnd as [| x l Hx Hnd IH]; intros j; [done |].
  simpl. destruct j as [| j]; simpl.
  - intros [= ->]. by rewrite decide_True.
  - intros Hj. rewrite decide_False.
    + by rewrite (IH j Hj).
    + intros ->. apply Hx. by eapply list_elem_of_lookup_2.
Qed.

Lemma elem_of_positions_from n c l i :
  i ∈ positions_from n c l ↔ ∃ j, i = (n + j)%nat ∧ l !! j = Some c.
Proof.
  revert n. induction l as [| x l IH]; intros n; simpl.
  - split; [intros H; inversion H | intros (j & _ & H); done].
  - rewrite elem_of_app, IH. split.
    + intros [Hx | (j & -> & Hj)].
      * destruct (decide (x = c)) as [-> |]; [| inversion Hx].
        apply list_elem_of_singleton in Hx as ->. exists 0%nat.
        split; [lia | done].
      * exists (S j). split; [lia | done].
    + intros ([| j] & -> & Hj); simpl in Hj.
      * left. injection Hj as ->. rewrite decide_True by done.
        rewrite Nat.add_0_r. by left.
      * right. exists j. split; [lia | done].
Qed.

(** in a header without repeated names a name has its one position *)
Lemma positions_from_NoDup n c l :
  NoDup l →
  positions_from n c l = (λ j, (n + j)%nat) <$> option_list (index_of c l).
Proof.
  intros Hnd. revert n. induction Hnd as [| x l Hx Hnd IH]; intros n; [done |].
  simpl. rewrite IH. destruct (decide (x = c)) as [-> | Hne].
  - assert (index_of c l = None) as ->.
    { destruct (index_of c l) eqn:E; [| done].
      destruct Hx. apply index_of_is_Some. by rewrite E. }
    simpl. by rewrite Nat.add_0_r.
  - destruct (index_of c l) as [j |]; simpl; [| done].
    f_equal. lia.
Qed.

Lemma select_positions_NoDup names l :
  NoDup l →
  names ≫= (λ c, positions_from 0 c l) = omap (λ c, index_of c l) names.
Proof.
  intros Hnd. induction names as [| c names IH]; [done |].
  cbn [mbind list_bind omap list_omap]. rewrite IH, positions_from_NoDup by done.
  by destruct (index_of c l).
Qed.

Lemma len_select keep df : len (select keep df) = len df.
Proof. unfold len, select; simpl. by rewrite length_fmap. Qed.

(** the names of the selected columns are the names asked for that the
    header has, whatever the header *)
Lemma elem_of_columns_select keep df c :
  c ∈ columns (select keep df) ↔ c ∈ keep ∧ c ∈ columns df.
Proof.
  unfold select, columns at 1; simpl.
  rewrite list_elem_of_fmap. split.
  - intros ([c' d] & -> & Hin). simpl.
    apply list_elem_of_omap in Hin as (i & Hi & Hl).
    apply list_elem_of_bind in Hi as (name & Hi & Hname).
    apply elem_of_positions_from in Hi as (j & -> & Hj). simpl in Hl.
    assert (columns df !! j = Some c') as Hc
      by (unfold columns; by rewrite list_lookup_fmap, Hl).
    rewrite Hj in Hc. injection Hc as ->.
    split; [done | by eapply list_elem_of_lookup_2].
  - intros [Hk Hc]. apply list_elem_of_lookup in Hc as [j Hj].
    pose proof Hj as Hj'. unfold columns in Hj'.
    rewrite list_lookup_fmap in Hj'.
    destruct (df_columns df !! j) as [[c' d] |] eqn:E; [| done].
    simpl in Hj'. injection Hj' as ->.
    exists (c, d). split; [done |].
    apply list_elem_of_omap. exists j. split; [| done].
    apply list_elem_of_bind. exists c. split; [| done].
    apply elem_of_positions_from. by exists j.
Qed.

(** [df[names]] in a header without repeated names: the column of each
    name *)
Lemma select_NoDup keep df :
  NoDup (columns df) →
  select keep df
  = let idx := omap (λ c, index_of c (columns df)) keep in
    {| df_columns := omap (λ i, df_columns df !! i) idx;
       df_rows := (λ r, (λ i, r !!! i) <$> idx) <$> df_rows df |}.
Proof. intros Hnd. unfold select. by rewrite select_positions_NoDup. Qed.

Lemma columns_select keep df :
  NoDup (columns df) → keep ⊆ columns df → columns (select keep df) = keep.
Proof.
  intros Hnd. rewrite select_NoDup by done.
  unfold columns; simpl. fold (columns df).
  induction keep as [| c keep IH]; intros Hsub; [done |].
  assert (c ∈ columns df) as Hc by (apply Hsub; left).
  apply index_of_is_Some in Hc as [i Hi].
  pose proof (index_of_Some _ _ _ Hi) as Hl.
  unfold columns in Hl. rewrite list_lookup_fmap in Hl.
  destruct (df_columns df !! i) as [[c' d] |] eqn:E; [| done].
  simpl in Hl. simplify_eq.
  cbn [omap list_omap]. rewrite Hi. cbn [omap list_omap]. rewrite E.
  rewrite fmap_cons. simpl. f_equal.
  apply IH. intros x Hx. apply Hsub. by right.
Qed.

Lemma omap_lookup_Some {A B} (f : A → option B) (l : list A) j x y :
  (∀ a, a ∈ l → is_Some (f a)) →
  l !! j = Some x → f x = Some y → omap f l !! j = Some y.
Proof.
  revert j. induction l as [| a l IH]; intros j Hall Hj Hy; [done |].
  destruct (Hall a) as [b Hb]; [left |].
  cbn [omap list_omap]. rewrite Hb. destruct j as [| j]; simpl in *.
  - injection Hj as ->. congruence.
  - apply IH; [| done | done]. intros a' Ha'. apply Hall. by right.
Qed.

(** the position in the selection of a name that is kept *)
Lemma select_lookup_NoDup keep l j c i :
  NoDup l → keep ⊆ l → keep !! j = Some c → l !! i = Some c →
  omap (λ c, index_of c l) keep !! j = Some i.
Proof.
  intros Hnd Hsub Hj Hi. revert j Hj.
  induction keep as [| c0 keep IH]; intros j Hj; [done |].
  assert (c0 ∈ l) as Hc0 by (apply Hsub; left).
  apply index_of_is_Some in Hc0 as [i0 Hi0].
  cbn [omap list_omap]. rewrite Hi0. destruct j as [| j]; simpl in *.
  - injection Hj as ->. by rewrite (index_of_lookup _ _ _ Hnd Hi) in Hi0.
  - apply IH; [| done]. intros x Hx. apply Hsub. by right.
Qed.

Lemma length_select_NoDup keep l :
  keep ⊆ l → length (omap (λ c, index_of c l) keep) = length keep.
Proof.
  induction keep as [| c keep IH]; intros Hsub; [done |].
  assert (c ∈ l) as Hc by (apply Hsub; left).
  apply index_of_is_Some in Hc as [i Hi].
  cbn [omap list_omap]. rewrite Hi. simpl. f_equal.
  apply IH. intros x Hx. apply Hsub. by right.
Qed.

Lemma filter_columns_subseteq (P : string → Prop) `{∀ c, Decision (P c)}
    (l : list string) :
  filter P l ⊆ l.
Proof. intros x Hx. by apply list_elem_of_filter in Hx as [_ ?]. Qed.

End Select.

(** ** What every step of the upload keeps *)

Section Keeps.
Context (R : relation World) `{!PreOrder R}.
Variable fit : Column → cell → cell.

Lemma keeps_ret {A} (a : A) : keeps R (mret a).
Proof. intros w. simpl. reflexivity. Qed.

Lemma keeps_throw {A} e : keeps R (throw (A := A) e).
Proof. intros w. simpl. reflexivity. Qed.

Lemma keeps_query {A} fail (q : gmap string Table → result A) :
  keeps R (query fail q).
Proof. intros w. unfold query. destruct fail; simpl; reflexivity. Qed.

Lemma keeps_bind {A B} (m : M A) (f : A → M B) :
  keeps R m → (∀ a, keeps R (f a)) → keeps R (m ≫= f).
Proof.
  intros Hm Hf w. unfold mbind, M_bind.
  specialize (Hm w). destruct (m w) as [w' [a | e]]; simpl in *; [| done].
  etrans; [exact Hm | apply Hf].
Qed.

Lemma keeps_try {A} (m : M A) (h : exn → M A) :
  keeps R m → (∀ e, keeps R (h e)) → keeps R (try_except m h).
Proof.
  intros Hm Hh w. unfold try_except.
  specialize (Hm w). destruct (m w) as [w' [a | e]]; simpl in *; [done |].
  etrans; [exact Hm | apply Hh].
Qed.

(** [R] holds across a message and across the statements of the upload *)
Hypothesis R_show : ∀ w msg,
  R w {| server := server w; screen := screen w ++ [msg] |}.
Hypothesis R_create : ∀ w name cols db',
  MySQL.create_table_if_not_exists name cols (server w) = Ok db' →
  R w {| server := db'; screen := screen w |}.
Hypothesis R_insert : ∀ w ignore now name cols data db',
  MySQL.insert_into ignore now name cols data (server w) = Ok db' →
  R w {| server := db'; screen := screen w |}.

Lemma keeps_show msg : keeps R (show msg).
Proof. intros w. apply R_show. Qed.

Lemma keeps_execute fail stmt :
  (∀ w db', stmt (server w) = Ok db' →
            R w {| server := db'; screen := screen w |}) →
  keeps R (execute fail stmt).
Proof.
  intros H w. unfold execute. destruct fail; simpl; [reflexivity |].
  destruct (stmt (server w)) eqn:E; simpl; [by apply H | reflexivity].
Qed.

Lemma validate_and_append_data_keeps F df table_name :
  keeps R (validate_and_append_data F df table_name).
Proof.
  unfold validate_and_append_data, get_table_columns.
  apply keeps_bind; [apply keeps_query | intros _].
  apply keeps_try; [| intros; apply keeps_ret].
  apply keeps_bind; [apply keeps_query |].
  intros []; [| apply keeps_ret].
  apply keeps_bind.
  - apply keeps_try; [apply keeps_query | intros; apply keeps_ret].
  - intros [[| ? ?] |]; try apply keeps_ret.
    destruct (filter _ _); apply keeps_ret.
Qed.

Lemma reconcile_and_insert_keeps F now df table_name uploader_name :
  keeps R (reconcile_and_insert fit F now df table_name uploader_name).
Proof.
  unfold reconcile_and_insert.
  apply keeps_bind; [apply validate_and_append_data_keeps |].
  intros [[dff |] [msg |]]; try apply keeps_show; [| apply keeps_throw].
  apply keeps_bind.
  { unfold create_table_from_df. case_bool_decide; [| apply keeps_throw].
    apply keeps_execute. intros; by eapply R_create. }
  intros _. apply keeps_bind.
  { apply keeps_execute. intros; by eapply R_insert. }
  intros _. apply keeps_bind.
  { apply keeps_execute. intros; by eapply R_insert. }
  intros _. apply keeps_show.
Qed.

Lemma storage_steps_keeps F now df table_name uploader_name :
  keeps R (get_connection (f_connect F);;
           ensure_registry (f_registry F);;
           reconcile_and_insert fit F now df table_name uploader_name).
Proof.
  apply keeps_bind; [apply keeps_query |].
  intros _. apply keeps_bind.
  { apply keeps_execute. intros; by eapply R_create. }
  intros _. apply reconcile_and_insert_keeps.
Qed.

Lemma report_exception_keeps e : keeps R (report_exception e).
Proof. destruct e; apply keeps_show. Qed.

Lemma after_cleaning_keeps F now dropped df table_name uploader_name :
  keeps R (after_cleaning fit F now dropped df table_name uploader_name).
Proof.
  unfold after_cleaning.
  apply keeps_try; [| apply report_exception_keeps].
  apply keeps_bind; [| intros _; apply storage_steps_keeps].
  destruct (Nat.ltb _ _); [apply keeps_show | apply keeps_ret].
Qed.

Lemma upload_to_mysql_keeps astype_int F now df table_name uploader_name :
  keeps R (upload_to_mysql fit astype_int F now df table_name uploader_name).
Proof.
  unfold upload_to_mysql.
  apply keeps_try; [| apply report_exception_keeps].
  destruct (blank uploader_name); [apply keeps_show |].
  destruct (blank table_name); [apply keeps_show |].
  destruct (index_of _ _) as [i |]; [| apply keeps_show].
  destruct (astype_column _ _ _) as [df' | e]; [| apply keeps_throw].
  apply keeps_bind; [| intros _; apply storage_steps_keeps].
  destruct (Nat.ltb _ _); [apply keeps_show | apply keeps_ret].
Qed.

End Keeps.

Section Schema.
Variable fit : Column → cell → cell.

Global Instance schema_kept_preorder : PreOrder schema_kept.
Proof.
  split.
  - intros db name t Ht. eauto.
  - intros db1 db2 db3 H12 H23 name t Ht.
    destruct (H12 _ _ Ht) as (t2 & Ht2 & Hc2).
    destruct (H23 _ _ Ht2) as (t3 & Ht3 & Hc3).
    exists t3. split; [done | congruence].
Qed.

Global Instance schema_kept_in_preorder : PreOrder schema_kept_in.
Proof.
  split.
  - intros w. unfold schema_kept_in. reflexivity.
  - intros w1 w2 w3. unfold schema_kept_in. apply transitivity.
Qed.

Global Instance screen_grows_preorder : PreOrder screen_grows.
Proof.
  split.
  - intros w. unfold screen_grows. reflexivity.
  - intros w1 w2 w3. unfold screen_grows. apply transitivity.
Qed.

Lemma create_table_schema_kept name cols db db' :
  MySQL.create_table_if_not_exists name cols db = Ok db' → schema_kept db db'.
Proof.
  unfold MySQL.create_table_if_not_exists.
  destruct (db !! name) eqn:E; [intros [= <-]; reflexivity |].
  case_bool_decide; [| done]. intros [= <-] n t Ht.
  exists t. split; [| done].
  rewrite lookup_insert_ne; [done | congruence].
Qed.

Lemma insert_row_columns ignore now cols t vals t' :
  MySQL.insert_row ignore now cols t vals = Ok t' → t_columns t' = t_columns t.
Proof.
  unfold MySQL.insert_row. repeat case_match; intros; by simplify_eq.
Qed.

Lemma insert_rows_columns ignore now cols data : ∀ t t',
  MySQL.insert_rows ignore now cols t data = Ok t' → t_columns t' = t_columns t.
Proof.
  induction data as [| vals data IH]; intros t t'; simpl; [by intros [= <-] |].
  destruct (MySQL.insert_row ignore now cols t vals) as [t1 | e] eqn:E; [| done].
  intros H. rewrite (IH _ _ H). by eapply insert_row_columns.
Qed.

Lemma insert_into_schema_kept ignore now name cols data db db' :
  MySQL.insert_into ignore now name cols data db = Ok db' → schema_kept db db'.
Proof.
  unfold MySQL.insert_into.
  destruct (db !! name) as [t |] eqn:E; [| done].
  destruct (MySQL.insert_rows ignore now cols t data) as [t' | e] eqn:E';
    [| done].
  intros [= <-] n t0 Ht0.
  destruct (decide (n = name)) as [-> | Hne].
  - rewrite lookup_insert_eq. exists t'. split; [done |].
    rewrite (insert_rows_columns _ _ _ _ _ _ E'). congruence.
  - rewrite lookup_insert_ne by done. eauto.
Qed.

Lemma upload_to_mysql_schema_kept astype_int F now df table_name uploader_name :
  keeps schema_kept_in
    (upload_to_mysql fit astype_int F now df table_name uploader_name).
Proof.
  apply upload_to_mysql_keeps; [apply _ | | |]; unfold schema_kept_in; simpl.
  - intros; reflexivity.
  - intros; by eapply create_table_schema_kept.
  - intros; by eapply insert_into_schema_kept.
Qed.

Lemma after_cleaning_screen_grows F now dropped df table_name uploader_name :
  keeps screen_grows (after_cleaning fit F now dropped df table_name uploader_name).
Proof.
  apply after_cleaning_keeps; [apply _ | | |]; unfold screen_grows; simpl;
    intros; try reflexivity.
  by apply prefix_app_r.
Qed.

Lemma storage_steps_screen_grows F now df table_name uploader_name :
  keeps screen_grows
    (get_connection (f_connect F);;
     ensure_registry (f_registry F);;
     reconcile_and_insert fit F now df table_name uploader_name).
Proof.
  apply storage_steps_keeps; [apply _ | | |]; unfold screen_grows; simpl;
    intros; try reflexivity.
  by apply prefix_app_r.
Qed.

End Schema.

(** A header with a repeated name: [df[names]] gives every column of the
    name for each time the name is asked for, five columns for the three
    of the file; no table can be created from such a frame, the upload
    ends on the message of the attribute error and the table [risk] is
    as it was. *)
Example repeated_name_is_selected_twice :
  let df := normalize_columns age_twice in
  columns df = ["applicant_id"; "age"; "age"]
  ∧ select (columns df) df
    = {| df_columns := [("applicant_id", int64); ("age", int64);
                        ("age", object_); ("age", int64); ("age", object_)];
         df_rows := [[CInt 3; CInt 52; CStr "fifty-two"; CInt 52;
                      CStr "fifty-two"]] |}
  ∧ (let w' := (show_app_upload mysql_fit int_of_cell no_faults 2000 age_twice
                  "risk" "Ben" risk_world).1 in
     server w' = server risk_world
     ∧ last (screen w')
       = Some (StError "'DataFrame' object has no attribute 'dtype'")).
Proof. repeat split; vm_compute; reflexivity. Qed.

(** C8: for a target table that exists, the usable columns are the
    columns of the file that the table has too; the other columns of the
    file are dropped without an error, and every row of the file is
    kept.  With a header without repeated names the usable columns are
    that intersection in the order of the file, each with its dtype, and
    each row holds, under every kept name, the cell the file has in the
    column of that name and nothing else.  After the upload the table
    has the columns it had. *)
Theorem existing_table_intersection_in_file_order
    (fit : Column → cell → cell) (astype_int : cell → cast) (F : Faults)
    (now : Z) (df : DataFrame)
    (table_name uploader_name : string) (w : World) (tbl : Table) :
  server w !! table_name = Some tbl →
  t_columns tbl ≠ [] →
  f_cursor F = false → f_check F = false → f_describe F = false →
  let keep := filter (λ col, col ∈ MySQL.column_names tbl) (columns df) in
  keep `sublist_of` columns df
  ∧ (∀ c, c ∈ keep ↔ c ∈ columns df ∧ c ∈ MySQL.column_names tbl)
  ∧ (keep ≠ [] →
     ∃ df', validate_and_append_data F df table_name w = (w, Ok (Some df', None))
            ∧ len df' = len df
            ∧ (∀ c, c ∈ columns df' ↔
                    c ∈ columns df ∧ c ∈ MySQL.column_names tbl)
            ∧ (NoDup (columns df) →
               columns df' = keep
               ∧ (∀ j c i d,
                    keep !! j = Some c → df_columns df !! i = Some (c, d) →
                    df_columns df' !! j = Some (c, d))
               ∧ (∀ k r, df_rows df !! k = Some r →
                    ∃ r', df_rows df' !! k = Some r'
                          ∧ length r' = length keep
                          ∧ ∀ j c i,
                              keep !! j = Some c → columns df !! i = Some c →
                              r' !!! j = r !!! i)))
  ∧ (∃ tbl',
       server (upload_to_mysql fit astype_int F now df table_name uploader_name w).1
         !! table_name = Some tbl'
       ∧ t_columns tbl' = t_columns tbl).
Proof.
  intros Ht Hne Hcur Hc Hd keep. split; [| split; [| split]].
  - apply sublist_filter.
  - intros c. unfold keep. rewrite list_elem_of_filter. tauto.
  - intros Hkeep.
    rewrite (validate_existing_table_kept F df table_name w tbl) by done.
    fold keep.
    assert (keep ⊆ columns df) as Hsub by apply filter_columns_subseteq.
    exists (select keep df). split; [done |].
    split; [apply len_select |].
    split.
    { intros c. rewrite elem_of_columns_select. unfold keep.
      rewrite list_elem_of_filter. tauto. }
    intros Hnodup. split; [by apply columns_select |].
    rewrite select_NoDup by done. cbn zeta. cbn [df_columns df_rows].
    split.
    + intros j c i d Hj Hi.
      assert (columns df !! i = Some c) as Hci
        by (unfold columns; by rewrite list_lookup_fmap, Hi).
      apply (omap_lookup_Some _ _ j i).
      * intros i' Hi'. apply list_elem_of_omap in Hi' as (c' & _ & Hc').
        apply index_of_Some in Hc'. unfold columns in Hc'.
        rewrite list_lookup_fmap in Hc'.
        by destruct (df_columns df !! i').
      * by apply (select_lookup_NoDup keep (columns df) j c i).
      * done.
    + intros k r Hk. rewrite list_lookup_fmap, Hk. simpl.
      eexists. split; [reflexivity |].
      split; [rewrite length_fmap; by apply length_select_NoDup |].
      intros j c i Hj Hi. apply list_lookup_total_correct.
      rewrite list_lookup_fmap.
      by rewrite (select_lookup_NoDup keep (columns df) j c i).
  - apply (upload_to_mysql_schema_kept fit astype_int F now df table_name
             uploader_name w _ _ Ht).
Qed.

(** ** The handler, step by step *)

Section Handler.
Variable fit : Column → cell → cell.
Variable astype_int : cell → cast.

Lemma upload_to_mysql_cleaned F now df table_name uploader_name i df' :
  blank uploader_name = false →
  blank table_name = false →
  index_of "applicant_id" (columns df) = Some i →
  astype_column astype_int i (dropna i df) = Ok df' →
  upload_to_mysql fit astype_int F now df table_name uploader_name
  = after_cleaning fit F now (len df - len df') df' table_name uploader_name.
Proof.
  intros Hu Ht Hi Hc. unfold upload_to_mysql, after_cleaning.
  rewrite Hu, Ht, Hi, Hc. reflexivity.
Qed.

Lemma ensure_registry_ok w :
  ensure_registry false w
  = ({| server := with_registry (server w); screen := screen w |}, Ok ()).
Proof.
  unfold ensure_registry, execute, MySQL.create_table_if_not_exists,
    with_registry.
  destruct (server w !! registry_name); [done |].
  by rewrite bool_decide_eq_true_2 by (split; [done | by apply (bool_decide_unpack _)]).
Qed.

Lemma with_registry_lookup_ne db name :
  name ≠ registry_name → with_registry db !! name = db !! name.
Proof.
  intros Hne. unfold with_registry.
  destruct (db !! registry_name); [done |]. by rewrite lookup_insert_ne.
Qed.

Lemma with_registry_lookup_Some db name t :
  db !! name = Some t → with_registry db !! name = Some t.
Proof.
  intros Ht. unfold with_registry.
  destruct (db !! registry_name) eqn:E; [done |].
  rewrite lookup_insert_ne; [done | congruence].
Qed.

Lemma with_registry_rows db : registry_rows (with_registry db) = registry_rows db.
Proof.
  unfold registry_rows, with_registry.
  destruct (db !! registry_name) eqn:E; [by rewrite E |].
  by rewrite lookup_insert_eq.
Qed.

Lemma columns_astype_column i df df' :
  astype_column astype_int i df = Ok df' → columns df' = columns df.
Proof.
  unfold astype_column. destruct (astype_rows _ _ _); [| done].
  intros [= <-]. unfold columns; simpl.
  apply list_eq. intros j. rewrite !list_lookup_fmap.
  destruct (decide (i = j)) as [-> | Hne].
  - rewrite list_lookup_alter_eq. by destruct (df_columns df !! j) as [[? ?] |].
  - by rewrite list_lookup_alter_ne.
Qed.

Lemma reconcile_no_match F now df table_name uploader_name w tbl :
  server w !! table_name = Some tbl →
  t_columns tbl ≠ [] →
  f_cursor F = false → f_check F = false → f_describe F = false →
  (∀ c, c ∈ columns df → c ∉ MySQL.column_names tbl) →
  validate_and_append_data F df table_name w = (w, Ok (None, Some no_match_msg))
  ∧ reconcile_and_insert fit F now df table_name uploader_name w
    = ({| server := server w; screen := screen w ++ [StError no_match_msg] |},
       Ok ()).
Proof.
  intros Ht Hne Hcur Hc Hd Hdisj.
  assert (validate_and_append_data F df table_name w
          = (w, Ok (None, Some no_match_msg))) as Hv.
  { rewrite (validate_existing_table F df table_name w tbl) by done.
    destruct (filter _ (columns df)) as [| c k] eqn:E; [done |].
    assert (c ∈ filter (λ col, col ∈ MySQL.column_names tbl) (columns df))
      as Hin by (rewrite E; left).
    apply list_elem_of_filter in Hin as [Hin1 Hin2].
    by destruct (Hdisj c Hin2). }
  split; [exact Hv |].
  unfold reconcile_and_insert, mbind, M_bind. by rewrite Hv.
Qed.

End Handler.

(** C3: the target table exists and shares no column with the file.  The
    reconciliation answers with the message "No matching columns found in
    existing table." and the steps that follow it are not run: the server
    is left as it was, only the message is shown.  For the handler as a
    whole the server ends as it began, or as it began with the registry
    table ensured, which is the one statement issued before the
    reconciliation: no data table is created or changed and the registry
    has the rows it had. *)
Theorem no_matching_columns_no_write
    (fit : Column → cell → cell) (astype_int : cell → cast) (F : Faults)
    (now : Z) (df : DataFrame)
    (table_name uploader_name : string) (w : World) (tbl : Table) :
  server w !! table_name = Some tbl →
  t_columns tbl ≠ [] →
  f_cursor F = false → f_check F = false → f_describe F = false →
  (∀ c, c ∈ columns df → c ∉ MySQL.column_names tbl) →
  validate_and_append_data F df table_name w = (w, Ok (None, Some no_match_msg))
  ∧ reconcile_and_insert fit F now df table_name uploader_name w
    = ({| server := server w; screen := screen w ++ [StError no_match_msg] |},
       Ok ())
  ∧ (let w' := (upload_to_mysql fit astype_int F now df table_name uploader_name w).1 in
     (server w' = server w ∨ server w' = with_registry (server w))
     ∧ (∀ name, name ≠ registry_name → server w' !! name = server w !! name)
     ∧ registry_rows (server w') = registry_rows (server w)).
Proof.
  intros Ht Hne Hcur Hc Hd Hdisj.
  destruct (reconcile_no_match fit F now df table_name uploader_name w tbl)
    as [Hv Hr]; try done.
  split; [exact Hv |]. split; [exact Hr |].
  cbv zeta.
  assert (server (upload_to_mysql fit astype_int F now df table_name uploader_name w).1
            = server w
          ∨ server (upload_to_mysql fit astype_int F now df table_name uploader_name w).1
            = with_registry (server w)) as Hcases.
  { unfold upload_to_mysql at 1 2. unfold try_except.
    destruct (blank uploader_name); [by left |].
    destruct (blank table_name); [by left |].
    destruct (index_of "applicant_id" (columns df)) as [i |]; [| by left].
    destruct (astype_column astype_int i (dropna i df)) as [df' | e] eqn:E;
      [| destruct e; by left].
    assert (columns df' = columns df) as Hcols
      by (by rewrite (columns_astype_column _ _ _ _ E)).
    unfold mbind, M_bind, get_connection, query.
    set (w0 := (if Nat.ltb 0 (len df - len df')
                then show (StWarningDropped (len df - len df'))
                else mret ()) w).
    assert (∃ scr, w0 = ({| server := server w; screen := scr |}, Ok ()))
      as [scr ->].
    { unfold w0. destruct (Nat.ltb _ _); [eexists; reflexivity |].
      exists (screen w). by destruct w. }
    destruct (f_connect F); [by left |].
    destruct (f_registry F) eqn:Hreg.
    { unfold ensure_registry, execute. by left. }
    rewrite ensure_registry_ok. cbn [server screen].
    destruct (reconcile_no_match fit F now df' table_name uploader_name
                {| server := with_registry (server w); screen := scr |} tbl)
      as [_ Hr']; try done.
    { by apply with_registry_lookup_Some. }
    { intros c. rewrite Hcols. apply Hdisj. }
    unfold where_notnull. rewrite Hr'. by right. }
  destruct Hcases as [-> | ->]; (split; [auto |]); split; try done.
  - intros name Hname. by apply with_registry_lookup_ne.
  - apply with_registry_rows.
Qed.

(** ** The primary key of the uploaded file *)

Section PrimaryKey.
Variable fit : Column → cell → cell.
Variable astype_int : cell → cast.

Lemma astype_rows_error i rows r msg :
  r ∈ rows → astype_int (r !!! i) = CastError msg →
  ∃ msg', astype_rows astype_int i rows = Raise (PyError msg').
Proof.
  intros Hin Hr. induction rows as [| r0 rows IH]; [inversion Hin |].
  simpl. destruct (astype_int (r0 !!! i)) as [z | m] eqn:E; [| by eexists].
  apply elem_of_cons in Hin as [-> | Hin]; [congruence |].
  destruct (IH Hin) as [msg' ->]. by eexists.
Qed.

Lemma astype_rows_ok i rows :
  (∀ r, r ∈ rows → ∃ z, astype_int (r !!! i) = Cast z) →
  ∃ rows', astype_rows astype_int i rows = Ok rows'
           ∧ length rows' = length rows
           ∧ Forall2 (λ r r', ∃ z, astype_int (r !!! i) = Cast z
                                   ∧ r' = <[i := CInt z]> r) rows rows'.
Proof.
  induction rows as [| r rows IH]; intros H; simpl.
  - exists []. repeat split; constructor.
  - destruct (H r) as [z Hz]; [left |]. rewrite Hz.
    destruct IH as (rows' & -> & Hlen & Hall).
    { intros r0 Hr0. apply H. by right. }
    exists (<[i := CInt z]> r :: rows'). repeat split.
    + simpl. by rewrite Hlen.
    + constructor; [by exists z | done].
Qed.

End PrimaryKey.

(** C4: when the file has no [applicant_id] column, or a non-null cell of
    that column does not convert to an integer, the upload fails as a
    whole: the handler shows one error message and nothing else, and the
    server is as it was: no table created, no row inserted, no registry
    entry. *)
Theorem invalid_primary_key_rejected
    (fit : Column → cell → cell) (astype_int : cell → cast) (F : Faults)
    (now : Z) (df : DataFrame)
    (table_name uploader_name : string) (w : World) :
  (index_of "applicant_id" (columns df) = None
   ∨ ∃ i r msg, index_of "applicant_id" (columns df) = Some i
                ∧ r ∈ df_rows df ∧ notnull (r !!! i) = true
                ∧ astype_int (r !!! i) = CastError msg) →
  ∃ msg,
    upload_to_mysql fit astype_int F now df table_name uploader_name w
    = ({| server := server w; screen := screen w ++ [StError msg] |}, Ok ())
    ∧ (blank uploader_name = false → blank table_name = false →
       index_of "applicant_id" (columns df) = None → msg = missing_key_msg).
Proof.
  intros Hbad. unfold upload_to_mysql, try_except.
  destruct (blank uploader_name); [eexists; split; [reflexivity | done] |].
  destruct (blank table_name); [eexists; split; [reflexivity | done] |].
  destruct Hbad as [-> | (i & r & msg & -> & Hin & Hnn & Hcast)].
  - eexists; split; [reflexivity | done].
  - unfold astype_column.
    destruct (astype_rows_error astype_int i (df_rows (dropna i df)) r msg)
      as [msg' ->]; [| done |].
    { unfold dropna; simpl. by apply list_elem_of_filter. }
    eexists; split; [reflexivity | done].
Qed.

Section NullKeys.
Variable fit : Column → cell → cell.
Variable astype_int : cell → cast.

Lemma length_notnull_split i (rows : list (list cell)) :
  length rows
  = (length (filter (λ r, notnull (r !!! i) = true) rows)
     + length (filter (λ r, notnull (r !!! i) = false) rows))%nat.
Proof.
  induction rows as [| r rows IH]; [done |].
  rewrite !filter_cons. destruct (notnull (r !!! i)) eqn:E.
  - rewrite decide_True by done. rewrite decide_False by done.
    simpl. by rewrite IH.
  - rewrite decide_False by done. rewrite decide_True by done.
    simpl. rewrite IH. lia.
Qed.

Lemma dropna_idem i df : dropna i (dropna i df) = dropna i df.
Proof.
  unfold dropna; simpl. f_equal.
  induction (df_rows df) as [| r rows IH]; [done |].
  rewrite filter_cons. destruct (decide (notnull (r !!! i) = true)) as [H | H].
  - rewrite filter_cons, decide_True by done. by rewrite IH.
  - exact IH.
Qed.

Lemma after_cleaning_warning F now k df table_name uploader_name w :
  after_cleaning fit F now k df table_name uploader_name w
  = after_cleaning fit F now 0 df table_name uploader_name
      {| server := server w;
         screen := screen w ++ (if Nat.ltb 0 k then [StWarningDropped k] else []) |}.
Proof.
  unfold after_cleaning, try_except, mbind, M_bind.
  destruct (Nat.ltb 0 k); simpl; [done |].
  rewrite app_nil_r. by destruct w.
Qed.

End NullKeys.

(** C5: the primary-key column of the file has [k] null cells and its
    other cells convert.  The handler drops exactly the [k] rows with a
    null key: the rows that go on are the rows with a key, in their
    order, with the key as an integer.  It reports the number [k] in a
    warning when [k] is positive, and goes on to the storage steps: the
    upload of the file is the warning followed by the upload of the file
    without those rows. *)
Theorem null_primary_keys_dropped_and_reported
    (fit : Column → cell → cell) (astype_int : cell → cast) (F : Faults)
    (now : Z) (df : DataFrame)
    (table_name uploader_name : string) (w : World) (i k : nat) :
  blank uploader_name = false →
  blank table_name = false →
  index_of "applicant_id" (columns df) = Some i →
  length (filter (λ r, notnull (r !!! i) = false) (df_rows df)) = k →
  (∀ r, r ∈ df_rows df → notnull (r !!! i) = true →
        ∃ z, astype_int (r !!! i) = Cast z) →
  ∃ df',
    astype_column astype_int i (dropna i df) = Ok df'
    ∧ len df = (len df' + k)%nat
    ∧ Forall2 (λ r r', ∃ z, astype_int (r !!! i) = Cast z ∧ r' = <[i := CInt z]> r)
        (filter (λ r, notnull (r !!! i) = true) (df_rows df)) (df_rows df')
    ∧ upload_to_mysql fit astype_int F now df table_name uploader_name w
      = after_cleaning fit F now k df' table_name uploader_name w
    ∧ upload_to_mysql fit astype_int F now df table_name uploader_name w
      = upload_to_mysql fit astype_int F now (dropna i df) table_name uploader_name
          {| server := server w;
             screen := screen w ++ (if Nat.ltb 0 k then [StWarningDropped k] else []) |}
    ∧ ((0 < k)%nat →
       StWarningDropped k
         ∈ screen (upload_to_mysql fit astype_int F now df table_name uploader_name w).1).
Proof.
  intros Hu Ht Hi Hk Hcast.
  destruct (astype_rows_ok astype_int i (df_rows (dropna i df)))
    as (rows' & Hrows & Hlen & Hall).
  { intros r Hr. unfold dropna in Hr; simpl in Hr.
    apply list_elem_of_filter in Hr as [Hnn Hin]. by apply Hcast. }
  set (df' := {| df_columns := alter (λ '(c, _), (c, int64)) i (df_columns (dropna i df));
                 df_rows := rows' |}).
  assert (astype_column astype_int i (dropna i df) = Ok df') as Hcol.
  { unfold astype_column. by rewrite Hrows. }
  assert (len df = (len df' + k)%nat) as Hcount.
  { unfold len, df'; simpl. rewrite Hlen. unfold dropna; simpl.
    rewrite <- Hk. apply length_notnull_split. }
  assert (upload_to_mysql fit astype_int F now df table_name uploader_name w
          = after_cleaning fit F now k df' table_name uploader_name w) as Hup.
  { rewrite (upload_to_mysql_cleaned fit astype_int F now df table_name
               uploader_name i df') by done.
    f_equal. lia. }
  exists df'. split; [exact Hcol |]. split; [exact Hcount |].
  split; [exact Hall |]. split; [exact Hup |]. split.
  - rewrite Hup, after_cleaning_warning.
    rewrite (upload_to_mysql_cleaned fit astype_int F now (dropna i df) table_name
               uploader_name i df'); try done.
    + f_equal. unfold len, df'; simpl. rewrite Hlen. unfold dropna; simpl. lia.
    + by rewrite dropna_idem.
  - intros Hpos. rewrite Hup, after_cleaning_warning.
    pose proof (after_cleaning_screen_grows fit F now 0 df' table_name uploader_name
                  {| server := server w;
                     screen := screen w ++
                       (if Nat.ltb 0 k then [StWarningDropped k] else []) |})
      as Hgrow.
    unfold screen_grows in Hgrow. simpl in Hgrow.
    destruct Hgrow as [rest ->].
    apply Nat.ltb_lt in Hpos. rewrite Hpos.
    rewrite !elem_of_app. left. right. by left.
Qed.

(** ** The registry under uploads into other tables *)

Section RegistryWrites.
Variable fit : Column → cell → cell.

Global Instance server_same_preorder : PreOrder server_same.
Proof.
  split.
  - by intros w.
  - intros w1 w2 w3 H12 H23. unfold server_same in *. congruence.
Qed.

Lemma validate_and_append_data_reads F df table_name w :
  server (validate_and_append_data F df table_name w).1 = server w.
Proof. apply (validate_and_append_data_keeps server_same). Qed.

(** the reconciliation shows nothing and keeps every row of the file *)
Lemma validate_and_append_data_quiet F df table_name w w1 dff :
  validate_and_append_data F df table_name w = (w1, Ok (Some dff, None)) →
  screen w1 = screen w ∧ len dff = len df.
Proof.
  unfold validate_and_append_data, get_table_columns, try_except, query,
    mbind, M_bind, mret, M_ret.
  intros Hv. repeat case_match; simplify_eq; split; try done.
  apply len_select.
Qed.

Lemma create_table_other_lookup name other cols db db' :
  name ≠ other →
  MySQL.create_table_if_not_exists name cols db = Ok db' →
  db' !! other = db !! other.
Proof.
  intros Hne. unfold MySQL.create_table_if_not_exists.
  destruct (db !! name) eqn:E; [by intros [= <-] |].
  case_bool_decide; [| done]. intros [= <-]. by rewrite lookup_insert_ne.
Qed.

Lemma insert_into_other_lookup ignore now name other cols data db db' :
  name ≠ other →
  MySQL.insert_into ignore now name cols data db = Ok db' →
  db' !! other = db !! other.
Proof.
  intros Hne. unfold MySQL.insert_into.
  destruct (db !! name) as [t |]; [| done].
  destruct (MySQL.insert_rows _ _ _ _ _); [| done].
  intros [= <-]. by rewrite lookup_insert_ne.
Qed.

(** a plain INSERT of one row adds that one row or fails *)
Lemma insert_one_appends now name cols vals db db' :
  MySQL.insert_into MySQL.Strict now name cols [vals] db = Ok db' →
  ∃ t, db !! name = Some t
       ∧ table_rows name db' = t_rows t ++ [MySQL.stored_row MySQL.Strict now t cols vals].
Proof.
  unfold MySQL.insert_into, table_rows.
  destruct (db !! name) as [t |]; [| done]. simpl.
  unfold MySQL.insert_row.
  case_bool_decide; [| done].
  destruct (MySQL.duplicate_key _ _); [done |].
  intros [= <-]. rewrite lookup_insert_eq. simpl. by eexists.
Qed.

(** the registry row of an upload, in a registry with the columns the
    portal gives it *)
Lemma stored_registry_row now t table_name uploader n :
  t_columns t = registry_columns →
  MySQL.stored_row MySQL.Strict now t ["table_name"; "uploaded_by"; "row_count"]
    [CStr table_name; CStr uploader; CInt n]
  = [CInt (MySQL.next_auto 0 (t_rows t)); CStr table_name; CStr uploader;
     CInt now; CInt n].
Proof. intros Hc. unfold MySQL.stored_row. rewrite Hc. reflexivity. Qed.

Lemma astype_rows_length astype_int i rows rows' :
  astype_rows astype_int i rows = Ok rows' → length rows' = length rows.
Proof.
  revert rows'. induction rows as [| r rows IH]; intros rows'; simpl.
  - by intros [= <-].
  - destruct (astype_int (r !!! i)); [| done].
    destruct (astype_rows astype_int i rows) as [rs |]; [| done].
    intros [= <-]. simpl. by rewrite (IH rs).
Qed.

Lemma reconcile_registers_at_most_once F now df table_name uploader_name w :
  table_name ≠ registry_name →
  let w' := (reconcile_and_insert fit F now df table_name uploader_name w).1 in
  registry_rows (server w') = registry_rows (server w)
  ∨ (∃ t,
       server w !! registry_name = Some t
       ∧ registry_rows (server w')
         = t_rows t ++ [MySQL.stored_row MySQL.Strict now t
                          ["table_name"; "uploaded_by"; "row_count"]
                          [CStr table_name; CStr uploader_name;
                           CInt (Z.of_nat (len df))]]
       ∧ f_insert F = false
       ∧ (reconcile_and_insert fit F now df table_name uploader_name w).2 = Ok ()
       ∧ screen w' = screen w ++ [StSuccess (len df) table_name uploader_name]).
Proof.
  intros Hne. cbv zeta. unfold reconcile_and_insert, mbind, M_bind.
  pose proof (validate_and_append_data_reads F df table_name w) as Hsrv.
  destruct (validate_and_append_data F df table_name w)
    as [w1 [[dff msg] | e]] eqn:Hv; simpl in Hsrv; [| left; simpl; congruence].
  destruct msg as [msg |]; [left; simpl; congruence |].
  destruct dff as [dff |]; [| left; simpl; congruence].
  apply validate_and_append_data_quiet in Hv as [Hscreen Hlen].
  unfold create_table_from_df, insert_dataframe, register_table, execute,
    where_notnull, show.
  case_bool_decide; [| left; simpl; congruence].
  destruct (f_create F); [left; simpl; congruence |].
  destruct (MySQL.create_table_if_not_exists _ _ (server w1)) as [db2 | e]
    eqn:Hcreate; [| left; simpl; congruence].
  apply (create_table_other_lookup _ registry_name) in Hcreate; [| done].
  rewrite Hsrv in Hcreate.
  assert (registry_rows db2 = registry_rows (server w)) as Hr2
    by (unfold registry_rows; by rewrite Hcreate).
  cbn [server screen].
  destruct (f_insert F) eqn:Hins; [by left |].
  destruct (MySQL.insert_into (MySQL.Ignore fit) _ _ _ _ db2) as [db3 | e] eqn:Hinsert;
    [| by left].
  apply (insert_into_other_lookup _ _ _ registry_name) in Hinsert; [| done].
  rewrite Hcreate in Hinsert.
  assert (registry_rows db3 = registry_rows (server w)) as Hr3
    by (unfold registry_rows; by rewrite Hinsert).
  cbn [server screen].
  destruct (f_register F); [by left |].
  destruct (MySQL.insert_into MySQL.Strict _ _ _ _ db3) as [db4 | e] eqn:Hreg;
    [| by left].
  apply insert_one_appends in Hreg as (t & Ht & Hrow).
  right. exists t. simpl. rewrite Hlen in *.
  split; [congruence |]. split; [exact Hrow |].
  split; [done |]. split; [done |]. by rewrite Hscreen.
Qed.

End RegistryWrites.

(** For every target table other than the registry itself, one click on
    the upload button leaves the registry as it was or appends one entry
    to it; an entry is appended only when the bulk insert went
    through, and then the upload is reported as a success, so no entry
    remains of an upload that failed.  The entry and the success line
    carry the number of rows submitted, that is the rows of the file with
    a key, whatever the bulk insert skipped. *)
Lemma upload_registers_at_most_once
    (fit : Column → cell → cell) (astype_int : cell → cast) (F : Faults)
    (now : Z) (df : DataFrame)
    (table_name uploader_name : string) (w : World) :
  table_name ≠ registry_name →
  (∀ t, server w !! registry_name = Some t → t_columns t = registry_columns) →
  let w' := (upload_to_mysql fit astype_int F now df table_name uploader_name w).1 in
  registry_rows (server w') = registry_rows (server w)
  ∨ (∃ i,
       index_of "applicant_id" (columns df) = Some i
       ∧ registry_rows (server w')
         = registry_rows (server w)
           ++ [[CInt (MySQL.next_auto 0 (registry_rows (server w)));
                CStr table_name; CStr uploader_name; CInt now;
                CInt (Z.of_nat (len (dropna i df)))]]
       ∧ f_insert F = false
       ∧ last (screen w')
         = Some (StSuccess (len (dropna i df)) table_name uploader_name)).
Proof.
  intros Hne Hschema. cbv zeta. unfold upload_to_mysql, try_except.
  destruct (blank uploader_name); [by left |].
  destruct (blank table_name); [by left |].
  destruct (index_of "applicant_id" (columns df)) as [i |]; [| by left].
  destruct (astype_column astype_int i (dropna i df)) as [df' | e] eqn:E;
    [| destruct e; by left].
  assert (len df' = len (dropna i df)) as Hlen.
  { unfold astype_column in E.
    destruct (astype_rows astype_int i (df_rows (dropna i df))) as [rows' |] eqn:Er;
      [| done].
    simplify_eq. unfold len; simpl. by eapply astype_rows_length. }
  unfold mbind, M_bind, get_connection, query.
  set (w0 := (if Nat.ltb 0 (len df - len df')
              then show (StWarningDropped (len df - len df'))
              else mret ()) w).
  assert (∃ scr, w0 = ({| server := server w; screen := scr |}, Ok ()))
    as [scr ->].
  { unfold w0. destruct (Nat.ltb _ _); [eexists; reflexivity |].
    exists (screen w). by destruct w. }
  destruct (f_connect F); [by left |].
  destruct (f_registry F) eqn:Hreg.
  { unfold ensure_registry, execute. by left. }
  rewrite ensure_registry_ok. cbn [server screen]. unfold where_notnull.
  pose proof (reconcile_registers_at_most_once fit F now df' table_name
                uploader_name
                {| server := with_registry (server w); screen := scr |} Hne)
    as Hrec.
  cbv zeta in Hrec. cbn [server screen] in Hrec.
  rewrite with_registry_rows in Hrec.
  destruct (reconcile_and_insert fit F now df' table_name uploader_name _)
    as [w2 [[] | e]]; simpl in *.
  - destruct Hrec as [Hrec | (t & Ht & Hrows & Hins & _ & Hscr)]; [by left |].
    right. exists i. split; [done |].
    assert (t_columns t = registry_columns ∧ t_rows t = registry_rows (server w))
      as [Hcols Hrows0].
    { unfold with_registry, registry_rows in *.
      destruct (server w !! registry_name) as [t0 |] eqn:E0.
      - rewrite E0 in Ht. simplify_eq. split; [by apply Hschema | done].
      - rewrite lookup_insert_eq in Ht. by simplify_eq. }
    rewrite stored_registry_row in Hrows by done.
    rewrite Hrows, Hrows0, Hlen. split; [done |]. split; [done |].
    rewrite Hscr, Hlen. apply last_snoc.
  - destruct Hrec as [Hrec | (t & _ & _ & _ & Hok & _)]; [| done].
    left. by destruct e.
Qed.

(** ** The theorems at concrete inputs *)

(** The file with a city column against the table [risk]: the city is
    dropped, the table keeps its two columns. *)
Lemma existing_table_intersection_in_file_order_witness :
  let keep := filter (λ col, col ∈ MySQL.column_names risk_table) (columns with_city) in
  keep `sublist_of` columns with_city
  ∧ (∀ c, c ∈ keep ↔ c ∈ columns with_city ∧ c ∈ MySQL.column_names risk_table)
  ∧ (keep ≠ [] →
     ∃ df', validate_and_append_data no_faults with_city "risk" risk_world = (risk_world, Ok (Some df', None))
            ∧ len df' = len with_city
            ∧ (∀ c, c ∈ columns df' ↔
                    c ∈ columns with_city ∧ c ∈ MySQL.column_names risk_table)
            ∧ (NoDup (columns with_city) →
               columns df' = keep
               ∧ (∀ j c i d,
                    keep !! j = Some c → df_columns with_city !! i = Some (c, d) →
                    df_columns df' !! j = Some (c, d))
               ∧ (∀ k r, df_rows with_city !! k = Some r →
                    ∃ r', df_rows df' !! k = Some r'
                          ∧ length r' = length keep
                          ∧ ∀ j c i,
                              keep !! j = Some c → columns with_city !! i = Some c →
                              r' !!! j = r !!! i)))
  ∧ (∃ tbl',
       server (upload_to_mysql mysql_fit int_of_cell no_faults 2000 with_city "risk" "Ben" risk_world).1
         !! "risk" = Some tbl'
       ∧ t_columns tbl' = t_columns risk_table).
Proof.
  apply (existing_table_intersection_in_file_order mysql_fit int_of_cell
           no_faults 2000 with_city "risk" "Ben" risk_world risk_table).
  - vm_compute. reflexivity.
  - discriminate.
  - reflexivity.
  - reflexivity.
  - reflexivity.
Defined.

(** The two-row file against the legacy table, which has none of its
    columns. *)
Lemma no_matching_columns_no_write_witness :
  validate_and_append_data no_faults two_applicants "legacy" legacy_world
    = (legacy_world, Ok (None, Some no_match_msg))
  ∧ reconcile_and_insert mysql_fit no_faults 1000 two_applicants "legacy" "Ann" legacy_world
    = ({| server := server legacy_world;
          screen := screen legacy_world ++ [StError no_match_msg] |}, Ok ())
  ∧ (let w' := (upload_to_mysql mysql_fit int_of_cell no_faults 1000 two_applicants
                  "legacy" "Ann" legacy_world).1 in
     (server w' = server legacy_world
      ∨ server w' = with_registry (server legacy_world))
     ∧ (∀ name, name ≠ registry_name →
                server w' !! name = server legacy_world !! name)
     ∧ registry_rows (server w') = registry_rows (server legacy_world)).
Proof.
  apply (no_matching_columns_no_write mysql_fit int_of_cell no_faults 1000 two_applicants
           "legacy" "Ann" legacy_world legacy_table).
  - vm_compute. reflexivity.
  - discriminate.
  - reflexivity.
  - reflexivity.
  - reflexivity.
  - apply (proj1 (Forall_forall (λ c, c ∉ MySQL.column_names legacy_table)
                    (columns two_applicants))).
    apply (bool_decide_unpack _). vm_compute. reflexivity.
Defined.

(** The file whose key column holds the text abc. *)
Lemma invalid_primary_key_rejected_witness :
  ∃ msg,
    upload_to_mysql mysql_fit int_of_cell no_faults 1000 bad_key_file "risk" "Ann" empty_world
    = ({| server := server empty_world;
          screen := screen empty_world ++ [StError msg] |}, Ok ())
    ∧ (blank "Ann" = false → blank "risk" = false →
       index_of "applicant_id" (columns bad_key_file) = None →
       msg = missing_key_msg).
Proof.
  apply (invalid_primary_key_rejected mysql_fit int_of_cell no_faults 1000 bad_key_file
           "risk" "Ann" empty_world).
  right. exists 0%nat, [CStr "abc"; CInt 41],
    "invalid literal for int() with base 10: 'abc'".
  split; [reflexivity |]. split; [| split; reflexivity].
  apply (bool_decide_unpack _). vm_compute. reflexivity.
Defined.

(** The five-row file with one empty key: one row dropped. *)
Lemma null_primary_keys_dropped_and_reported_witness :
  ∃ df',
    astype_column int_of_cell 0 (dropna 0 risk_batch1) = Ok df'
    ∧ len risk_batch1 = (len df' + 1)%nat
    ∧ Forall2 (λ r r', ∃ z, int_of_cell (r !!! 0%nat) = Cast z
                            ∧ r' = <[0%nat := CInt z]> r)
        (filter (λ r, notnull (r !!! 0%nat) = true) (df_rows risk_batch1))
        (df_rows df')
    ∧ upload_to_mysql mysql_fit int_of_cell no_faults 1000 risk_batch1 "risk_batch1" "Ann"
        empty_world
      = after_cleaning mysql_fit no_faults 1000 1 df' "risk_batch1" "Ann" empty_world
    ∧ upload_to_mysql mysql_fit int_of_cell no_faults 1000 risk_batch1 "risk_batch1" "Ann"
        empty_world
      = upload_to_mysql mysql_fit int_of_cell no_faults 1000 (dropna 0 risk_batch1)
          "risk_batch1" "Ann"
          {| server := server empty_world;
             screen := screen empty_world ++
                       (if Nat.ltb 0 1 then [StWarningDropped 1] else []) |}
    ∧ ((0 < 1)%nat →
       StWarningDropped 1
         ∈ screen (upload_to_mysql mysql_fit int_of_cell no_faults 1000 risk_batch1
                     "risk_batch1" "Ann" empty_world).1).
Proof.
  apply (null_primary_keys_dropped_and_reported mysql_fit int_of_cell no_faults 1000
           risk_batch1 "risk_batch1" "Ann" empty_world 0 1).
  - reflexivity.
  - reflexivity.
  - reflexivity.
  - vm_compute. reflexivity.
  - apply (proj1 (Forall_forall
                    (λ r, notnull (r !!! 0%nat) = true →
                          ∃ z, int_of_cell (r !!! 0%nat) = Cast z)
                    (df_rows risk_batch1))).
    repeat (constructor;
            [simpl; first [intros _; eexists; reflexivity | intros; discriminate] |]).
    constructor.
Defined.

(** The scenario of the page: five rows, one without applicant id, into
    a new table.  One row is dropped and reported, four rows are
    written with [applicant_id] as the key, and the registry has one
    entry with [row_count] 4. *)
Example risk_batch1_scenario :
  let w := once risk_batch1 1000 "risk_batch1" empty_world in
  screen w = [StWarningDropped 1; StSuccess 4 "risk_batch1" "Ann"]
  ∧ table_rows "risk_batch1" (server w)
    = [[CInt 1; CInt 30; CInt 100]; [CInt 2; CInt 41; CInt 200];
       [CInt 4; CInt 63; CInt 400]; [CInt 5; CInt 74; CInt 500]]
  ∧ registry_rows (server w)
    = [[CInt 1; CStr "risk_batch1"; CStr "Ann"; CInt 1000; CInt 4]].
Proof. repeat split; vm_compute; reflexivity. Qed.

(** * Further properties of the portal *)

(** ** Rows are only ever added *)

Section RowsKept.
Variable fit : Column → cell → cell.

Global Instance rows_kept_preorder : PreOrder rows_kept.
Proof.
  split.
  - intros db name t Ht. exists t. by repeat split.
  - intros db1 db2 db3 H12 H23 name t Ht.
    destruct (H12 _ _ Ht) as (t2 & Ht2 & Hc2 & Hp2).
    destruct (H23 _ _ Ht2) as (t3 & Ht3 & Hc3 & Hp3).
    exists t3. split; [done |]. split; [congruence | by etrans].
Qed.

Global Instance rows_kept_in_preorder : PreOrder rows_kept_in.
Proof.
  split.
  - intros w. unfold rows_kept_in. reflexivity.
  - intros w1 w2 w3. unfold rows_kept_in. apply transitivity.
Qed.


Lemma insert_row_rows ignore now cols t vals t' :
  MySQL.insert_row ignore now cols t vals = Ok t' →
  t_rows t' = t_rows t
  ∨ t_rows t' = t_rows t ++ [MySQL.stored_row ignore now t cols vals]
    ∧ MySQL.duplicate_key t (MySQL.stored_row ignore now t cols vals) = false.
Proof.
  unfold MySQL.insert_row. case_bool_decide; [| done].
  destruct (MySQL.duplicate_key _ _) eqn:E.
  - destruct ignore; [done |]. intros [= <-]. by left.
  - intros [= <-]. by right.
Qed.

Lemma insert_rows_prefix ignore now cols data : ∀ t t',
  MySQL.insert_rows ignore now cols t data = Ok t' →
  t_rows t `prefix_of` t_rows t'.
Proof.
  induction data as [| vals data IH]; intros t t'; simpl; [by intros [= <-] |].
  destruct (MySQL.insert_row ignore now cols t vals) as [t1 | e] eqn:E; [| done].
  intros H. etrans; [| by apply (IH t1)].
  apply insert_row_rows in E as [-> | [-> _]]; [done | by apply prefix_app_r].
Qed.


End RowsKept.


(** ** Primary keys stay unique *)

Section KeysUnique.
Variable fit : Column → cell → cell.

Global Instance keys_unique_in_preorder : PreOrder keys_unique_in.
Proof.
  split.
  - by intros w H.
  - intros w1 w2 w3 H12 H23 H. by apply H23, H12.
Qed.

Lemma duplicate_key_spec t row :
  MySQL.primary_positions t ≠ [] →
  MySQL.duplicate_key t row = true ↔ key_of t row ∈ key_of t <$> t_rows t.
Proof.
  intros Hpk. unfold MySQL.duplicate_key.
  rewrite bool_decide_eq_false_2 by done. simpl.
  rewrite existsb_exists, list_elem_of_fmap. split.
  - intros (r & Hin & Hall). exists r. split; [| by apply list_elem_of_In].
    unfold key_of. apply list_fmap_ext. intros i j Hj.
    rewrite forallb_forall in Hall.
    specialize (Hall j). rewrite bool_decide_eq_true in Hall.
    symmetry. apply Hall. apply list_elem_of_In. by eapply list_elem_of_lookup_2.
  - intros (r & Hkey & Hin). exists r. split; [by apply list_elem_of_In |].
    apply forallb_forall. intros j Hj. apply bool_decide_eq_true.
    apply list_elem_of_In, list_elem_of_lookup in Hj as [i Hi].
    unfold key_of in Hkey.
    apply (f_equal (λ l, l !! i)) in Hkey.
    rewrite !list_lookup_fmap, Hi in Hkey. simpl in Hkey. congruence.
Qed.

Lemma insert_row_keys_unique ignore now cols t vals t' :
  MySQL.insert_row ignore now cols t vals = Ok t' →
  MySQL.primary_positions t ≠ [] →
  keys_unique t → keys_unique t'.
Proof.
  intros Hins Hpk Hu.
  assert (MySQL.primary_positions t' = MySQL.primary_positions t) as Hpp.
  { unfold MySQL.primary_positions. by rewrite (insert_row_columns _ _ _ _ _ _ Hins). }
  assert (∀ r, key_of t' r = key_of t r) as Hkey.
  { intros r. unfold key_of. by rewrite Hpp. }
  apply insert_row_rows in Hins as [Hr | [Hr Hdup]];
    unfold keys_unique; rewrite Hr.
  - by rewrite (list_fmap_ext _ _ _ (λ _ r _, Hkey r)).
  - rewrite (list_fmap_ext _ _ _ (λ _ r _, Hkey r)).
    rewrite fmap_app. simpl. apply NoDup_app. split; [done |].
    split; [| apply NoDup_singleton].
    intros k Hk Hk'. apply list_elem_of_singleton in Hk'. subst k.
    apply (duplicate_key_spec t) in Hk; [congruence | done].
Qed.

Lemma insert_rows_keys_unique ignore now cols data : ∀ t t',
  MySQL.insert_rows ignore now cols t data = Ok t' →
  MySQL.primary_positions t ≠ [] →
  keys_unique t → keys_unique t'.
Proof.
  induction data as [| vals data IH]; intros t t'; simpl; [by intros [= <-] |].
  destruct (MySQL.insert_row ignore now cols t vals) as [t1 | e] eqn:E; [| done].
  intros H Hpk Hu. apply (IH t1); [done | |].
  - unfold MySQL.primary_positions.
    by rewrite (insert_row_columns _ _ _ _ _ _ E).
  - by eapply insert_row_keys_unique.
Qed.

Lemma create_table_keys_unique name cols db db' :
  MySQL.create_table_if_not_exists name cols db = Ok db' →
  keys_unique_all db → keys_unique_all db'.
Proof.
  unfold MySQL.create_table_if_not_exists.
  destruct (db !! name) eqn:E; [by intros [= <-] |].
  case_bool_decide; [| done]. intros [= <-] Hu n t Ht Hpk.
  destruct (decide (n = name)) as [-> | Hne].
  - rewrite lookup_insert_eq in Ht. simplify_eq.
    unfold keys_unique; simpl. constructor.
  - rewrite lookup_insert_ne in Ht by done. by eapply Hu.
Qed.

Lemma insert_into_keys_unique ignore now name cols data db db' :
  MySQL.insert_into ignore now name cols data db = Ok db' →
  keys_unique_all db → keys_unique_all db'.
Proof.
  unfold MySQL.insert_into.
  destruct (db !! name) as [t |] eqn:E; [| done].
  destruct (MySQL.insert_rows ignore now cols t data) as [t' | e] eqn:E';
    [| done].
  intros [= <-] Hu n t0 Ht0 Hpk.
  destruct (decide (n = name)) as [-> | Hne].
  - rewrite lookup_insert_eq in Ht0. simplify_eq.
    assert (MySQL.primary_positions t ≠ []) as Hpk'.
    { unfold MySQL.primary_positions in *.
      by rewrite <- (insert_rows_columns _ _ _ _ _ _ E'). }
    eapply insert_rows_keys_unique; [exact E' | done | by eapply Hu].
  - rewrite lookup_insert_ne in Ht0 by done. by eapply Hu.
Qed.

End KeysUnique.

(** When no table with a primary key holds two rows with the same key,
    none does after a click on the upload button: not the target table,
    whose bulk insert skips the rows whose key is taken, nor the
    registry, nor any other table; whatever the file and whatever
    fails. *)
Theorem upload_keeps_primary_keys_unique
    (fit : Column → cell → cell) (astype_int : cell → cast) (F : Faults)
    (now : Z) (df : DataFrame)
    (table_name uploader_name : string) (w : World) :
  keys_unique_all (server w) →
  keys_unique_all
    (server (upload_to_mysql fit astype_int F now df table_name uploader_name w).1).
Proof.
  apply (upload_to_mysql_keeps keys_unique_in); unfold keys_unique_in; simpl.
  - by intros.
  - intros; by eapply create_table_keys_unique.
  - intros; by eapply insert_into_keys_unique.
Qed.

(** ** Inserting the same rows again *)

Section InsertAgain.
Variable fit : Column → cell → cell.

Lemma primary_positions_columns t t' :
  t_columns t' = t_columns t →
  MySQL.primary_positions t' = MySQL.primary_positions t.
Proof. intros H. unfold MySQL.primary_positions. by rewrite H. Qed.

(** in a plain table the stored row depends on the statement alone *)
Lemma stored_row_plain m now now' t t' cols vals :
  plain_table t → t_columns t' = t_columns t →
  MySQL.stored_row m now' t' cols vals = MySQL.stored_row m now t cols vals.
Proof.
  intros Hplain Hc. unfold MySQL.stored_row. rewrite Hc.
  apply imap_ext. intros j c Hj.
  unfold plain_table in Hplain. rewrite Forall_lookup in Hplain.
  by rewrite (Hplain j c Hj).
Qed.

Lemma duplicate_key_mono t t' row :
  t_columns t' = t_columns t →
  t_rows t `prefix_of` t_rows t' →
  MySQL.primary_positions t ≠ [] →
  MySQL.duplicate_key t row = true → MySQL.duplicate_key t' row = true.
Proof.
  intros Hc [more Hrows] Hpk.
  pose proof (primary_positions_columns t t' Hc) as Hpp.
  rewrite !duplicate_key_spec by (by rewrite ?Hpp).
  unfold key_of. rewrite Hpp, Hrows, fmap_app, elem_of_app. by left.
Qed.

Lemma insert_row_then_duplicate now cols t vals t1 :
  MySQL.insert_row (MySQL.Ignore fit) now cols t vals = Ok t1 →
  MySQL.primary_positions t ≠ [] →
  MySQL.duplicate_key t1 (MySQL.stored_row (MySQL.Ignore fit) now t cols vals) = true.
Proof.
  intros Hins Hpk.
  pose proof (insert_row_columns _ _ _ _ _ _ Hins) as Hc.
  pose proof (primary_positions_columns t t1 Hc) as Hpp.
  unfold MySQL.insert_row in Hins. case_bool_decide; [| done].
  destruct (MySQL.duplicate_key t _) eqn:E.
  - by simplify_eq.
  - simplify_eq. apply duplicate_key_spec; [by rewrite Hpp |].
    unfold key_of; simpl. rewrite Hpp, fmap_app, elem_of_app. right.
    simpl. by left.
Qed.

Lemma insert_rows_then_duplicates now cols data : ∀ t t1,
  MySQL.insert_rows (MySQL.Ignore fit) now cols t data = Ok t1 →
  plain_table t → MySQL.primary_positions t ≠ [] →
  ∀ vals, vals ∈ data →
          MySQL.duplicate_key t1 (MySQL.stored_row (MySQL.Ignore fit) now t cols vals) = true.
Proof.
  induction data as [| v data IH]; intros t t1; simpl;
    [intros _ _ _ vals Hin; inversion Hin |].
  destruct (MySQL.insert_row (MySQL.Ignore fit) now cols t v) as [t2 | e] eqn:E; [| done].
  intros Hrest Hplain Hpk vals Hin.
  pose proof (insert_row_columns _ _ _ _ _ _ E) as Hc2.
  assert (plain_table t2) as Hplain2 by (unfold plain_table; by rewrite Hc2).
  assert (MySQL.primary_positions t2 ≠ []) as Hpk2
    by (by rewrite (primary_positions_columns t t2 Hc2)).
  apply elem_of_cons in Hin as [-> | Hin].
  - apply (duplicate_key_mono t2 t1); [| | done |].
    + by eapply insert_rows_columns.
    + by eapply insert_rows_prefix.
    + by apply insert_row_then_duplicate.
  - rewrite <- (stored_row_plain _ now now t t2 cols vals Hplain Hc2).
    by apply (IH t2 t1).
Qed.

Lemma insert_rows_all_skipped now cols data t :
  (data ≠ [] → NoDup cols ∧ cols ⊆ MySQL.column_names t) →
  (∀ vals, vals ∈ data →
           MySQL.duplicate_key t (MySQL.stored_row (MySQL.Ignore fit) now t cols vals) = true) →
  MySQL.insert_rows (MySQL.Ignore fit) now cols t data = Ok t.
Proof.
  induction data as [| v data IH]; intros Hcols Hdup; simpl; [done |].
  unfold MySQL.insert_row.
  rewrite bool_decide_eq_true_2 by (by apply Hcols).
  rewrite Hdup by left.
  apply IH.
  - intros _. by apply Hcols.
  - intros vals Hin. apply Hdup. by right.
Qed.

Lemma insert_rows_idempotent now now' cols data t t1 :
  plain_table t → MySQL.primary_positions t ≠ [] →
  MySQL.insert_rows (MySQL.Ignore fit) now cols t data = Ok t1 →
  MySQL.insert_rows (MySQL.Ignore fit) now' cols t1 data = Ok t1.
Proof.
  intros Hplain Hpk Hins.
  pose proof (insert_rows_columns _ _ _ _ _ _ Hins) as Hc.
  apply insert_rows_all_skipped.
  - intros Hne. destruct data as [| v data]; [done |]. simpl in Hins.
    unfold MySQL.insert_row in Hins. unfold MySQL.column_names. rewrite Hc.
    by case_bool_decide.
  - intros vals Hin.
    rewrite (stored_row_plain _ now now' t t1 cols vals Hplain Hc).
    by eapply insert_rows_then_duplicates.
Qed.

End InsertAgain.

(** The bulk insert is idempotent on a table with a primary key whose
    columns have no defaults, such as the tables the portal creates: once
    a dataframe has been inserted, inserting it again, at any later time,
    succeeds and leaves the server exactly as it is. *)
Theorem insert_dataframe_again_changes_nothing
    (fit : Column → cell → cell) (now now' : Z) (df : DataFrame)
    (table_name : string) (w w1 : World) (t : Table) :
  server w !! table_name = Some t →
  plain_table t →
  MySQL.primary_positions t ≠ [] →
  insert_dataframe fit false now df table_name w = (w1, Ok ()) →
  insert_dataframe fit false now' df table_name w1 = (w1, Ok ()).
Proof.
  intros Ht Hplain Hpk.
  unfold insert_dataframe, execute, MySQL.insert_into, where_notnull.
  rewrite Ht.
  destruct (MySQL.insert_rows (MySQL.Ignore fit) now (columns df) t (df_rows df)) as [t1 | e]
    eqn:E; [| done].
  intros [= <-]. cbn [server screen]. rewrite lookup_insert_eq.
  rewrite (insert_rows_idempotent fit now now' _ _ t t1) by done.
  by rewrite insert_insert_eq.
Qed.

(** ** Registering an upload *)

Section Register.

Lemma next_auto_above j rows r z :
  r ∈ rows → r !!! j = CInt z → z < MySQL.next_auto j rows.
Proof.
  unfold MySQL.next_auto. intros Hin Hz.
  induction rows as [| r0 rows IH]; [inversion Hin |].
  simpl. apply elem_of_cons in Hin as [<- | Hin].
  - rewrite Hz. lia.
  - specialize (IH Hin). destruct (r0 !!! j); lia.
Qed.

Lemma registry_primary_positions t :
  t_columns t = registry_columns → MySQL.primary_positions t = [0%nat].
Proof. intros Hc. unfold MySQL.primary_positions. by rewrite Hc. Qed.

Lemma registry_entry_not_duplicate now t table_name uploader n :
  t_columns t = registry_columns →
  MySQL.duplicate_key t
    (registry_entry (MySQL.next_auto 0 (t_rows t)) table_name uploader now n)
  = false.
Proof.
  intros Hc. destruct (MySQL.duplicate_key _ _) eqn:E; [| done].
  apply duplicate_key_spec in E; [| by rewrite registry_primary_positions].
  unfold key_of in E. rewrite registry_primary_positions in E by done.
  apply list_elem_of_fmap in E as (r & Hkey & Hin).
  simpl in Hkey. injection Hkey as Hkey.
  pose proof (next_auto_above 0 (t_rows t) r _ Hin (eq_sym Hkey)). lia.
Qed.

Lemma register_table_ok now table_name uploader n w t :
  server w !! registry_name = Some t →
  t_columns t = registry_columns →
  register_table false now table_name uploader n w
  = ({| server :=
          <[registry_name :=
              {| t_columns := t_columns t;
                 t_rows := t_rows t ++
                   [registry_entry (MySQL.next_auto 0 (t_rows t))
                      table_name uploader now n] |}]> (server w);
        screen := screen w |}, Ok ()).
Proof.
  intros Ht Hc.
  unfold register_table, execute, MySQL.insert_into. rewrite Ht. simpl.
  unfold MySQL.insert_row.
  rewrite bool_decide_eq_true_2.
  2:{ unfold MySQL.column_names. rewrite Hc.
      split; apply (bool_decide_unpack _); reflexivity. }
  rewrite stored_registry_row by done.
  fold (registry_entry (MySQL.next_auto 0 (t_rows t)) table_name uploader now n).
  by rewrite registry_entry_not_duplicate.
Qed.

End Register.

(** Ensuring the registry and registering an upload, on a server whose
    registry is missing or is the portal's own: the two calls go through,
    the registry gains exactly the entry of the upload, with the time of
    the server and an id above every id in the registry; the entries that
    were there and every other table are as they were, and nothing is
    shown. *)
Theorem ensure_then_register_appends_entry
    (now : Z) (table_name uploader : string) (n : nat) (w : World) :
  registry_is_portals (server w) →
  ∃ w',
    (ensure_registry false;; register_table false now table_name uploader n) w
    = (w', Ok ())
    ∧ registry_rows (server w')
      = registry_rows (server w)
        ++ [registry_entry (MySQL.next_auto 0 (registry_rows (server w)))
              table_name uploader now n]
    ∧ (∀ r z, r ∈ registry_rows (server w) → r !!! 0%nat = CInt z →
              z < MySQL.next_auto 0 (registry_rows (server w)))
    ∧ (∀ name, name ≠ registry_name → server w' !! name = server w !! name)
    ∧ registry_is_portals (server w')
    ∧ screen w' = screen w.
Proof.
  intros Hportal. unfold mbind, M_bind. rewrite ensure_registry_ok.
  assert (∃ t, with_registry (server w) !! registry_name = Some t
               ∧ t_columns t = registry_columns
               ∧ t_rows t = registry_rows (server w)) as (t & Ht & Hc & Hr).
  { unfold with_registry, registry_rows.
    destruct (server w !! registry_name) as [t |] eqn:E.
    - exists t. rewrite E. split; [done |]. split; [by apply Hportal | done].
    - eexists. rewrite lookup_insert_eq. by repeat split. }
  erewrite register_table_ok; [| exact Ht | exact Hc].
  eexists. split; [reflexivity |]. cbn [server screen].
  split; [| split; [| split; [| split]]].
  - unfold registry_rows at 1. rewrite lookup_insert_eq. simpl. by rewrite Hr.
  - intros r z Hin Hz. by eapply next_auto_above.
  - intros name Hne. rewrite lookup_insert_ne by done.
    by apply with_registry_lookup_ne.
  - intros t' Ht'. rewrite lookup_insert_eq in Ht'. by simplify_eq.
  - done.
Qed.

(** ** The outcomes of the reconciliation *)

(** The reconciliation only reads: whatever it returns, the world is as it
    was.  It raises exactly when no cursor can be had.  Otherwise it
    returns either a dataframe and no message, or no dataframe and one of
    its two messages; a returned dataframe has all the rows of the file
    and columns of the file only.  A table that does not exist, and a
    DESCRIBE that fails, both give back the dataframe as it came, and a
    failing existence check gives the message about the structure. *)
Theorem validate_and_append_data_outcomes
    (F : Faults) (df : DataFrame) (table_name : string) (w : World) :
  ∃ r,
    validate_and_append_data F df table_name w = (w, r)
    ∧ (f_cursor F = true ↔ r = Raise MySQLError)
    ∧ (f_cursor F = false →
       (∃ df', r = Ok (Some df', None)
               ∧ columns df' ⊆ columns df ∧ len df' = len df)
       ∨ r = Ok (None, Some no_match_msg)
       ∨ r = Ok (None, Some validate_failed_msg))
    ∧ (f_cursor F = false → f_check F = true →
       r = Ok (None, Some validate_failed_msg))
    ∧ (f_cursor F = false → f_check F = false →
       server w !! table_name = None ∨ f_describe F = true →
       r = Ok (Some df, None)).
Proof.
  unfold validate_and_append_data, get_table_columns, try_except, query,
    mbind, M_bind, mret, M_ret.
  destruct (f_cursor F).
  { eexists. split; [reflexivity |]. repeat split; try done. }
  destruct (f_check F).
  { eexists. split; [reflexivity |].
    split; [split; intros; discriminate |].
    split; [intros _; right; by right |]. split; [done | intros; discriminate]. }
  simpl.
  destruct (server w !! table_name) as [t |] eqn:Ht.
  - rewrite bool_decide_eq_true_2 by eauto.
    destruct (f_describe F).
    { eexists. split; [reflexivity |].
      split; [split; intros; discriminate |].
      split; [| split; [intros; discriminate | done]].
      intros _. left. exists df. by repeat split. }
    simpl. rewrite Ht.
    destruct (MySQL.column_names t) as [| c cs] eqn:Hn.
    { eexists. split; [reflexivity |].
      split; [split; intros; discriminate |].
      split; [| split; [intros; discriminate | intros _ _ [? | ?]; discriminate]].
      intros _. left. exists df. by repeat split. }
    destruct (filter (λ col, col ∈ c :: cs) (columns df)) as [| k ks] eqn:Hk.
    { eexists. split; [reflexivity |].
      split; [split; intros; discriminate |].
      split; [intros _; right; by left |].
      split; [intros; discriminate | intros _ _ [? | ?]; discriminate]. }
    eexists. split; [reflexivity |].
    split; [split; intros; discriminate |].
    split; [| split; [intros; discriminate | intros _ _ [? | ?]; discriminate]].
    intros _. left. eexists. split; [reflexivity |]. split.
    + intros x Hx. by apply elem_of_columns_select in Hx as [_ ?].
    + apply len_select.
  - rewrite bool_decide_eq_false_2 by (by intros [? ?]).
    eexists. split; [reflexivity |].
    split; [split; intros; discriminate |].
    split; [| split; [intros; discriminate | done]].
    intros _. left. exists df. by repeat split.
Qed.

(** ** Uploading into a new table *)

Section NewTable.
Variable fit : Column → cell → cell.

Lemma created_columns_names df : col_name <$> created_columns df = columns df.
Proof.
  unfold created_columns. rewrite fmap_imap.
  rewrite (imap_ext _ (λ _ col, col)) by done.
  induction (columns df) as [| c l IH]; [done |].
  simpl. f_equal. by rewrite <- IH at 2.
Qed.

Lemma created_columns_lookup df j c :
  created_columns df !! j = Some c →
  columns df !! j = Some (col_name c)
  ∧ col_primary c = bool_decide (col_name c = "applicant_id")
  ∧ col_extra_of c = Plain.
Proof.
  unfold created_columns. rewrite list_lookup_imap.
  destruct (columns df !! j) as [col |]; simpl; [| done].
  intros [= <-]. by repeat split.
Qed.

Lemma created_table_plain df rows :
  plain_table {| t_columns := created_columns df; t_rows := rows |}.
Proof.
  unfold plain_table. apply Forall_lookup. intros j c Hj.
  by apply created_columns_lookup in Hj as (_ & _ & ?).
Qed.

Lemma elem_of_primary_positions t j :
  j ∈ MySQL.primary_positions t ↔
  ∃ c, t_columns t !! j = Some c ∧ col_primary c = true.
Proof.
  unfold MySQL.primary_positions. rewrite list_elem_of_omap. split.
  - intros ([j' c] & Hin & Hf).
    apply elem_of_lookup_imap in Hin as (k & c' & Heq & Hk). simplify_eq.
    destruct (col_primary c') eqn:E; [| done]. simplify_eq. eauto.
  - intros (c & Hj & Hp). exists (j, c). split.
    + by apply (elem_of_lookup_imap_2 pair).
    + by rewrite Hp.
Qed.

(** in a table the portal created, a stored row is the row of the file,
    each cell as MySQL stores it in its column *)
Lemma stored_row_created m now df rows vals j c :
  NoDup (columns df) →
  created_columns df !! j = Some c →
  MySQL.stored_row m now {| t_columns := created_columns df; t_rows := rows |}
    (columns df) vals !!! j = MySQL.stored m c (vals !!! j).
Proof.
  intros Hnd Hj. apply list_lookup_total_correct.
  unfold MySQL.stored_row. rewrite list_lookup_imap. simpl. rewrite Hj.
  apply created_columns_lookup in Hj as (Hc & _ & Hp). simpl.
  by rewrite Hp, (index_of_lookup _ _ _ Hnd Hc).
Qed.

(** a cell that is not null is a cell of the row *)
Lemma notnull_lookup_lt (r : list cell) i :
  notnull (r !!! i) = true → (i < length r)%nat.
Proof.
  intros Hn. destruct (decide (i < length r)%nat) as [| Hge]; [done |].
  rewrite list_lookup_total_alt, (proj2 (lookup_ge_None r i)) in Hn by lia.
  done.
Qed.

Lemma insert_rows_ignore_ok now cols data : ∀ t,
  NoDup cols → cols ⊆ MySQL.column_names t →
  ∃ t1, MySQL.insert_rows (MySQL.Ignore fit) now cols t data = Ok t1.
Proof.
  induction data as [| v data IH]; intros t Hnd Hsub; simpl; [by eexists |].
  unfold MySQL.insert_row. rewrite bool_decide_eq_true_2 by done.
  destruct (MySQL.duplicate_key _ _); by apply IH.
Qed.

(** every stored row was there or is the stored row of a row submitted *)
Lemma insert_rows_origin ignore now cols data : ∀ t t1,
  plain_table t →
  MySQL.insert_rows ignore now cols t data = Ok t1 →
  ∀ r', r' ∈ t_rows t1 →
        r' ∈ t_rows t
        ∨ ∃ vals, vals ∈ data ∧ r' = MySQL.stored_row ignore now t cols vals.
Proof.
  induction data as [| v data IH]; intros t t1 Hplain; simpl.
  - intros [= <-] r' Hin. by left.
  - destruct (MySQL.insert_row ignore now cols t v) as [t2 | e] eqn:E; [| done].
    intros Hrest r' Hin.
    pose proof (insert_row_columns _ _ _ _ _ _ E) as Hc2.
    assert (plain_table t2) as Hplain2 by (unfold plain_table; by rewrite Hc2).
    destruct (IH t2 t1 Hplain2 Hrest r' Hin) as [Hin2 | (vals & Hv & ->)].
    + apply insert_row_rows in E as [Hr | [Hr _]]; rewrite Hr in Hin2.
      * by left.
      * apply elem_of_app in Hin2 as [? | Hlast]; [by left |].
        apply list_elem_of_singleton in Hlast. right. exists v. split; [left | done].
    + right. exists vals. split; [by right |].
      by apply stored_row_plain.
Qed.

Lemma validate_new_table F df table_name w :
  f_cursor F = false → f_check F = false →
  server w !! table_name = None →
  validate_and_append_data F df table_name w = (w, Ok (Some df, None)).
Proof.
  intros Hcur Hc Ht.
  unfold validate_and_append_data, try_except, query, mbind, M_bind, mret, M_ret.
  rewrite Hcur, Hc, Ht. by rewrite bool_decide_eq_false_2 by (by intros [? ?]).
Qed.

Lemma create_table_from_df_new df table_name w :
  NoDup (columns df) → columns df ≠ [] →
  server w !! table_name = None →
  create_table_from_df false df table_name w
  = ({| server := <[table_name := {| t_columns := created_columns df;
                                     t_rows := [] |}]> (server w);
        screen := screen w |}, Ok ()).
Proof.
  intros Hnd Hne Ht.
  unfold create_table_from_df, execute, MySQL.create_table_if_not_exists.
  rewrite bool_decide_eq_true_2 by done. rewrite Ht.
  fold (created_columns df).
  rewrite bool_decide_eq_true_2; [done |].
  rewrite created_columns_names. split; [| done].
  intros Hnil. apply Hne. by rewrite <- created_columns_names, Hnil.
Qed.

(** the steps from the reconciliation on, for a table that is not there *)
Lemma reconcile_new_table F now df table_name uploader_name w treg t1 :
  f_cursor F = false → f_check F = false →
  f_create F = false → f_insert F = false →
  server w !! table_name = None → table_name ≠ registry_name →
  server w !! registry_name = Some treg → t_columns treg = registry_columns →
  NoDup (columns df) → columns df ≠ [] →
  MySQL.insert_rows (MySQL.Ignore fit) now (columns df)
    {| t_columns := created_columns df; t_rows := [] |} (df_rows df) = Ok t1 →
  reconcile_and_insert fit F now df table_name uploader_name w
  = if f_register F
    then ({| server := <[table_name := t1]> (server w); screen := screen w |},
          Raise MySQLError)
    else ({| server :=
               <[registry_name :=
                   {| t_columns := t_columns treg;
                      t_rows := t_rows treg ++
                        [registry_entry (MySQL.next_auto 0 (t_rows treg))
                           table_name uploader_name now (len df)] |}]>
                 (<[table_name := t1]> (server w));
             screen := screen w
                       ++ [StSuccess (len df) table_name uploader_name] |},
          Ok ()).
Proof.
  intros Hcur Hc Hcr Hin Ht Hne Hreg Hregc Hnd Hcols Hrows.
  unfold reconcile_and_insert, mbind, M_bind.
  rewrite validate_new_table by done.
  rewrite Hcr, create_table_from_df_new by done.
  unfold insert_dataframe, execute at 1, MySQL.insert_into, where_notnull.
  rewrite Hin. cbn [server screen]. rewrite lookup_insert_eq, Hrows.
  rewrite insert_insert_eq.
  destruct (f_register F).
  - unfold register_table, execute. done.
  - erewrite register_table_ok; [| | exact Hregc].
    + reflexivity.
    + cbn [server]. rewrite lookup_insert_ne by done. exact Hreg.
Qed.

(** the world after an upload into a table that is not there, when the
    storage layer works up to the bulk insert *)
Lemma upload_into_new_table_world astype_int F now df table_name uploader_name
    w i :
  blank uploader_name = false →
  blank table_name = false →
  index_of "applicant_id" (columns df) = Some i →
  NoDup (columns df) →
  (∀ r, r ∈ df_rows df → notnull (r !!! i) = true →
        ∃ z, astype_int (r !!! i) = Cast z) →
  server w !! table_name = None →
  table_name ≠ registry_name →
  registry_is_portals (server w) →
  f_connect F = false → f_registry F = false → f_cursor F = false →
  f_check F = false → f_create F = false → f_insert F = false →
  ∃ df' t1 treg scr,
    astype_column astype_int i (dropna i df) = Ok df'
    ∧ columns df' = columns df
    ∧ Forall2 (λ r r', ∃ z, astype_int (r !!! i) = Cast z
                            ∧ r' = <[i := CInt z]> r)
        (df_rows (dropna i df)) (df_rows df')
    ∧ MySQL.insert_rows (MySQL.Ignore fit) now (columns df')
        {| t_columns := created_columns df'; t_rows := [] |} (df_rows df')
      = Ok t1
    ∧ with_registry (server w) !! registry_name = Some treg
    ∧ t_columns treg = registry_columns
    ∧ t_rows treg = registry_rows (server w)
    ∧ upload_to_mysql fit astype_int F now df table_name uploader_name w
      = if f_register F
        then ({| server := <[table_name := t1]> (with_registry (server w));
                 screen := scr ++ [StError connect_failed_msg] |}, Ok ())
        else ({| server :=
                   <[registry_name :=
                       {| t_columns := t_columns treg;
                          t_rows := t_rows treg ++
                            [registry_entry (MySQL.next_auto 0 (t_rows treg))
                               table_name uploader_name now (len df')] |}]>
                     (<[table_name := t1]> (with_registry (server w)));
                 screen := scr
                           ++ [StSuccess (len df') table_name uploader_name] |},
              Ok ()).
Proof.
  intros Hu Ht Hi Hnd Hcast Hnew Hne Hportal Hf1 Hf2 Hf3 Hf4 Hf5 Hf6.
  destruct (astype_rows_ok astype_int i (df_rows (dropna i df)))
    as (rows' & Hrows & Hlen & Hall).
  { intros r Hr. unfold dropna in Hr; simpl in Hr.
    apply list_elem_of_filter in Hr as [Hnn Hin]. by apply Hcast. }
  set (df' := {| df_columns := alter (λ '(c, _), (c, int64)) i
                                 (df_columns (dropna i df));
                 df_rows := rows' |}).
  assert (astype_column astype_int i (dropna i df) = Ok df') as Hcol
    by (unfold astype_column; by rewrite Hrows).
  assert (columns df' = columns df) as Hcols
    by (by rewrite (columns_astype_column _ _ _ _ Hcol)).
  assert (columns df' ≠ []) as Hne'.
  { rewrite Hcols. intros Hnil. by rewrite Hnil in Hi. }
  assert (∃ treg, with_registry (server w) !! registry_name = Some treg
                  ∧ t_columns treg = registry_columns
                  ∧ t_rows treg = registry_rows (server w))
    as (treg & Hreg & Hregc & Hregr).
  { unfold with_registry, registry_rows.
    destruct (server w !! registry_name) as [t |] eqn:E.
    - exists t. rewrite E. split; [done |]. split; [by apply Hportal | done].
    - eexists. rewrite lookup_insert_eq. by repeat split. }
  destruct (insert_rows_ignore_ok now (columns df') (df_rows df')
              {| t_columns := created_columns df'; t_rows := [] |})
    as [t1 Hins].
  { by rewrite Hcols. }
  { unfold MySQL.column_names; simpl. by rewrite created_columns_names. }
  rewrite (upload_to_mysql_cleaned fit astype_int F now df table_name
             uploader_name i df') by done.
  unfold after_cleaning, try_except, mbind, M_bind, get_connection, query.
  set (w0 := (if Nat.ltb 0 (len df - len df')
              then show (StWarningDropped (len df - len df'))
              else mret ()) w).
  assert (∃ scr, w0 = ({| server := server w; screen := scr |}, Ok ()))
    as [scr ->].
  { unfold w0. destruct (Nat.ltb _ _); [eexists; reflexivity |].
    exists (screen w). by destruct w. }
  rewrite Hf1, Hf2, ensure_registry_ok. cbn [server screen].
  rewrite (reconcile_new_table F now df' table_name uploader_name
             {| server := with_registry (server w); screen := scr |} treg t1);
    try done.
  2:{ cbn [server]. by rewrite with_registry_lookup_ne. }
  2:{ by rewrite Hcols. }
  exists df', t1, treg, scr. repeat (split; [done |]).
  by destruct (f_register F).
Qed.

(** what the bulk insert leaves in a table the portal has just created *)
Lemma created_table_after_insert now df i t1 :
  index_of "applicant_id" (columns df) = Some i →
  NoDup (columns df) →
  MySQL.insert_rows (MySQL.Ignore fit) now (columns df)
    {| t_columns := created_columns df; t_rows := [] |} (df_rows df) = Ok t1 →
  t_columns t1 = created_columns df
  ∧ plain_table t1
  ∧ MySQL.primary_positions t1 ≠ []
  ∧ (∀ j, j ∈ MySQL.primary_positions t1 → j = i)
  ∧ i ∈ MySQL.primary_positions t1
  ∧ keys_unique t1
  ∧ (∀ vals, vals ∈ df_rows df →
             MySQL.duplicate_key t1 (MySQL.stored_row (MySQL.Ignore fit) now t1 (columns df) vals)
             = true)
  ∧ (∀ r', r' ∈ t_rows t1 →
           ∃ r, r ∈ df_rows df
                ∧ ∀ j c, created_columns df !! j = Some c →
                         r' !!! j = fit c (r !!! j)).
Proof.
  intros Hi Hnd Hins.
  pose proof (insert_rows_columns _ _ _ _ _ _ Hins) as Hc1. simpl in Hc1.
  assert (plain_table t1) as Hplain1.
  { unfold plain_table. rewrite Hc1. apply (created_table_plain df []). }
  assert (i ∈ MySQL.primary_positions t1) as Hipk.
  { apply elem_of_primary_positions. rewrite Hc1.
    unfold created_columns. rewrite list_lookup_imap.
    rewrite (index_of_Some _ _ _ Hi). simpl.
    eexists. split; [reflexivity |]. done. }
  assert (MySQL.primary_positions t1 ≠ []) as Hpk.
  { intros Hnil. rewrite Hnil in Hipk. inversion Hipk. }
  assert (MySQL.primary_positions
            {| t_columns := created_columns df; t_rows := [] |} ≠ []) as Hpk0.
  { rewrite <- (primary_positions_columns
                  {| t_columns := created_columns df; t_rows := [] |} t1 Hc1).
    exact Hpk. }
  split; [done |]. split; [done |]. split; [done |]. split.
  { intros j Hj. apply elem_of_primary_positions in Hj as (c & Hj & Hp).
    rewrite Hc1 in Hj. apply created_columns_lookup in Hj as (Hj & Hp' & _).
    rewrite Hp in Hp'. symmetry in Hp'. apply bool_decide_eq_true in Hp'.
    rewrite Hp' in Hj. apply index_of_Some in Hi.
    by eapply NoDup_lookup. }
  split; [done |]. split.
  { eapply insert_rows_keys_unique; [exact Hins | done |].
    unfold keys_unique; simpl. constructor. }
  split.
  { intros vals Hv.
    rewrite (stored_row_plain _ now now
               {| t_columns := created_columns df; t_rows := [] |} t1)
      by (done || apply created_table_plain).
    by eapply insert_rows_then_duplicates;
      [exact Hins | apply created_table_plain | |]. }
  intros r' Hr'.
  destruct (insert_rows_origin (MySQL.Ignore fit) now (columns df) (df_rows df) _ t1
              (created_table_plain df []) Hins r' Hr')
    as [Hin | (vals & Hv & ->)]; [inversion Hin |].
  exists vals. split; [done |]. intros j c Hj.
  by rewrite (stored_row_created _ now df [] vals j c Hnd Hj).
Qed.

End NewTable.

(** Uploading a file into a table that does not exist yet, when the
    storage layer works up to the bulk insert, every key of the file is
    within the range of an INT column, and MySQL stores an integer of
    that range in an INT column as it is.  The table is created with the
    columns of the file in their order, typed from the dtypes, with
    [applicant_id], an INT column, and nothing else as primary key.
    Every row of the file that has a key has a stored row with that key;
    every stored row is a row of the file, with its key, each cell as
    MySQL stores it in its column; and no two stored rows share a key.
    No other data table is touched.  When the registration goes
    through, the registry gains the one entry of the upload and the page
    ends on the success line; when the registration fails, the rows stay
    inserted, the registry has no entry for them and the page ends on
    the message about the connection. *)
Theorem upload_into_new_table
    (fit : Column → cell → cell) (astype_int : cell → cast) (F : Faults)
    (now : Z) (df : DataFrame)
    (table_name uploader_name : string) (w : World) (i : nat) :
  blank uploader_name = false →
  blank table_name = false →
  index_of "applicant_id" (columns df) = Some i →
  NoDup (columns df) →
  (∀ r, r ∈ df_rows df → notnull (r !!! i) = true →
        ∃ z, astype_int (r !!! i) = Cast z
             ∧ -2147483648 ≤ z ≤ 2147483647) →
  (∀ c z, col_type c = "INT" → -2147483648 ≤ z ≤ 2147483647 →
          fit c (CInt z) = CInt z) →
  server w !! table_name = None →
  table_name ≠ registry_name →
  registry_is_portals (server w) →
  f_connect F = false → f_registry F = false → f_cursor F = false →
  f_check F = false → f_create F = false → f_insert F = false →
  let w' := (upload_to_mysql fit astype_int F now df table_name uploader_name w).1 in
  ∃ df' tbl,
    astype_column astype_int i (dropna i df) = Ok df'
    ∧ server w' !! table_name = Some tbl
    ∧ t_columns tbl = created_columns df'
    ∧ (∀ c, c ∈ t_columns tbl →
            (col_primary c = true ↔ col_name c = "applicant_id"))
    ∧ (∃ c, t_columns tbl !! i = Some c
            ∧ col_name c = "applicant_id" ∧ col_type c = "INT")
    ∧ keys_unique tbl
    ∧ (∀ r, r ∈ df_rows df' → ∃ r', r' ∈ t_rows tbl ∧ r' !!! i = r !!! i)
    ∧ (∀ r', r' ∈ t_rows tbl →
             ∃ r, r ∈ df_rows df'
                  ∧ r' !!! i = r !!! i
                  ∧ ∀ j c, t_columns tbl !! j = Some c →
                           r' !!! j = fit c (r !!! j))
    ∧ (∀ name, name ≠ table_name → name ≠ registry_name →
               server w' !! name = server w !! name)
    ∧ (f_register F = false →
       registry_rows (server w')
       = registry_rows (server w)
         ++ [registry_entry (MySQL.next_auto 0 (registry_rows (server w)))
               table_name uploader_name now (len df')]
       ∧ last (screen w') = Some (StSuccess (len df') table_name uploader_name))
    ∧ (f_register F = true →
       registry_rows (server w') = registry_rows (server w)
       ∧ last (screen w') = Some (StError connect_failed_msg)).
Proof.
  intros Hu Ht Hi Hnd Hcast Hfit Hnew Hne Hportal Hf1 Hf2 Hf3 Hf4 Hf5 Hf6.
  cbv zeta.
  destruct (upload_into_new_table_world fit astype_int F now df table_name
              uploader_name w i)
    as (df' & t1 & treg & scr & Hcol & Hcols & Hall & Hins & Hreg & Hregc
        & Hregr & Hup);
    try done.
  { intros r Hr Hn. destruct (Hcast r Hr Hn) as (z & Hz & _). eauto. }
  rewrite Hup.
  assert (index_of "applicant_id" (columns df') = Some i) as Hi'
    by (by rewrite Hcols).
  assert (NoDup (columns df')) as Hnd' by (by rewrite Hcols).
  destruct (created_table_after_insert fit now df' i t1 Hi' Hnd' Hins)
    as (Hc1 & Hplain1 & Hpk & Hpkonly & Hipk & Huniq & Hdup & Horigin).
  assert (∀ c, c ∈ t_columns t1 →
               (col_primary c = true ↔ col_name c = "applicant_id")) as Hprim.
  { intros c Hc. rewrite Hc1 in Hc.
    apply list_elem_of_lookup in Hc as [j Hj].
    apply created_columns_lookup in Hj as (_ & -> & _).
    by rewrite bool_decide_eq_true. }
  (* the key column of the table is an INT column *)
  assert (∃ c, created_columns df' !! i = Some c
               ∧ col_name c = "applicant_id" ∧ col_type c = "INT")
    as (kc & Hkc & Hkname & Hktype).
  { pose proof (index_of_Some _ _ _ Hi') as Hl.
    unfold created_columns. rewrite list_lookup_imap, Hl. simpl.
    eexists. split; [reflexivity |]. split; [done |]. simpl.
    unfold astype_column in Hcol.
    destruct (astype_rows astype_int i (df_rows (dropna i df))); [| done].
    injection Hcol as <-. unfold column_at; simpl.
    apply index_of_Some in Hi. unfold columns in Hi.
    rewrite list_lookup_fmap in Hi.
    destruct (df_columns df !! i) as [[h d] |] eqn:E; [| done].
    rewrite list_lookup_alter_eq, E. reflexivity. }
  (* the keys of the cleaned file are integers of the range of INT *)
  assert (∀ r, r ∈ df_rows df' →
               ∃ z, r !!! i = CInt z ∧ -2147483648 ≤ z ≤ 2147483647) as Hkeys.
  { intros r' Hr'. apply list_elem_of_lookup in Hr' as [k Hk].
    destruct (Forall2_lookup_r _ _ _ _ _ Hall Hk) as (r & Hr & z & Hz & ->).
    apply list_elem_of_lookup_2 in Hr. unfold dropna in Hr; simpl in Hr.
    apply list_elem_of_filter in Hr as [Hn Hr].
    destruct (Hcast r Hr Hn) as (z' & Hz' & Hrange).
    rewrite Hz in Hz'. injection Hz' as <-.
    exists z. split; [| done].
    apply list_lookup_total_insert_eq. by apply notnull_lookup_lt. }
  assert (∀ r, r ∈ df_rows df' → fit kc (r !!! i) = r !!! i) as Hkeep.
  { intros r Hr. destruct (Hkeys r Hr) as (z & -> & Hrange). by apply Hfit. }
  assert (∀ r, r ∈ df_rows df' → ∃ r', r' ∈ t_rows t1 ∧ r' !!! i = r !!! i)
    as Hstored.
  { intros r Hr. specialize (Hdup r Hr).
    apply duplicate_key_spec in Hdup; [| done].
    apply list_elem_of_fmap in Hdup as (r' & Hkey & Hr').
    exists r'. split; [done |].
    unfold key_of in Hkey.
    apply list_elem_of_lookup in Hipk as [k Hk].
    apply (f_equal (λ l, l !! k)) in Hkey.
    rewrite !list_lookup_fmap, Hk in Hkey. simpl in Hkey.
    injection Hkey as Hkey. rewrite <- Hkey.
    rewrite (stored_row_plain _ now now
               {| t_columns := created_columns df'; t_rows := [] |} t1)
      by (done || apply created_table_plain).
    rewrite (stored_row_created _ now df' [] r i kc Hnd' Hkc). simpl.
    by apply Hkeep. }
  assert (∀ r', r' ∈ t_rows t1 →
                ∃ r, r ∈ df_rows df'
                     ∧ r' !!! i = r !!! i
                     ∧ ∀ j c, t_columns t1 !! j = Some c →
                              r' !!! j = fit c (r !!! j)) as Hfrom.
  { intros r' Hr'. destruct (Horigin r' Hr') as (r & Hr & Hcells).
    exists r. split; [done |]. split.
    - rewrite (Hcells i kc Hkc). by apply Hkeep.
    - intros j c Hj. rewrite Hc1 in Hj. by apply Hcells. }
  assert (∃ c, t_columns t1 !! i = Some c
               ∧ col_name c = "applicant_id" ∧ col_type c = "INT") as Hkcol
    by (exists kc; by rewrite Hc1).
  exists df', t1.
  destruct (f_register F) eqn:Hfr; cbn [server screen fst].
  - split; [done |]. split; [by rewrite lookup_insert_eq |].
    split; [done |]. split; [done |]. split; [done |]. split; [done |].
    split; [done |]. split; [done |]. split.
    { intros name Hn1 Hn2. rewrite lookup_insert_ne by done.
      by apply with_registry_lookup_ne. }
    split; [done |]. intros _. split.
    + unfold registry_rows at 1. rewrite lookup_insert_ne by done.
      by rewrite Hreg.
    + apply last_snoc.
  - split; [done |].
    split; [rewrite lookup_insert_ne by done; by rewrite lookup_insert_eq |].
    split; [done |]. split; [done |]. split; [done |]. split; [done |].
    split; [done |]. split; [done |]. split.
    { intros name Hn1 Hn2. rewrite !lookup_insert_ne by done.
      by apply with_registry_lookup_ne. }
    split; [| done]. intros _. split.
    + unfold registry_rows at 1. rewrite lookup_insert_eq. simpl.
      by rewrite Hregr.
    + apply last_snoc.
Qed.

(** ** A registered upload is listed *)

(** After an upload has been registered in the portal's registry, reading
    the registry lists it: the result has one row more than before, the
    row of the upload is in it with its table, uploader, time and row
    count, and it is the first row when the upload is later than every
    upload recorded before. *)
Theorem registered_upload_is_listed
    (now : Z) (table_name uploader : string) (n : nat) (w : World) (t : Table) :
  server w !! registry_name = Some t →
  t_columns t = registry_columns →
  let w' := (register_table false now table_name uploader n w).1 in
  let entry := [CStr table_name; CStr uploader; CInt now; CInt (Z.of_nat n)] in
  ∃ data,
    get_registry_data false w' = (w', Ok (registry_header, data))
    ∧ entry ∈ data
    ∧ length data = S (length (t_rows t))
    ∧ ((∀ r z, r ∈ t_rows t → r !!! 3%nat = CInt z → z < now) →
       head data = Some entry).
Proof.
  intros Ht Hc. cbv zeta. rewrite (register_table_ok _ _ _ _ _ t) by done.
  cbn [fst].
  set (t' := {| t_columns := t_columns t;
                t_rows := t_rows t ++
                  [registry_entry (MySQL.next_auto 0 (t_rows t))
                     table_name uploader now n] |}).
  set (w' := {| server := <[registry_name := t']> (server w);
                screen := screen w |}).
  destruct (select_registry_complete (server w') t') as (data & Hsel & Hperm).
  { unfold w'; simpl. by rewrite lookup_insert_eq. }
  { done. }
  pose proof (select_registry_sorted _ _ _ Hsel) as Hsorted.
  exists data. split; [| split; [| split]].
  - unfold get_registry_data, try_except, query. fold registry_header.
    by rewrite Hsel.
  - rewrite Hperm. unfold t'; simpl. rewrite fmap_app, elem_of_app. right.
    simpl. by left.
  - rewrite Hperm. unfold t'; simpl.
    rewrite length_fmap, length_app. simpl. lia.
  - intros Hlater.
    assert (∀ h, h ∈ data →
                 h = [CStr table_name; CStr uploader; CInt now; CInt (Z.of_nat n)]
                 ∨ ∀ z, h !!! 2%nat = CInt z → z < now) as Hdata.
    { intros h Hh. rewrite Hperm in Hh.
      apply list_elem_of_fmap in Hh as (r & -> & Hr).
      unfold t' in Hr; simpl in Hr. apply elem_of_app in Hr as [Hr | Hr].
      - right. intros z Hz. by apply (Hlater r z Hr).
      - apply list_elem_of_singleton in Hr. subst r. by left. }
    assert ([CStr table_name; CStr uploader; CInt now; CInt (Z.of_nat n)] ∈ data)
      as Hentry.
    { rewrite Hperm. unfold t'; simpl. rewrite fmap_app, elem_of_app. right.
      simpl. by left. }
    destruct data as [| h rest]; [inversion Hentry |]. simpl.
    destruct (Hdata h) as [-> | Hh]; [left | done |].
    apply elem_of_cons in Hentry as [<- | Hin]; [done |].
    apply StronglySorted_inv in Hsorted as [_ Hall].
    rewrite Forall_forall in Hall. specialize (Hall _ Hin).
    unfold order_desc in Hall. simpl in Hall.
    destruct (h !!! 2%nat) as [| z | | |] eqn:Ez; simpl in Hall; try done.
    specialize (Hh z eq_refl). lia.
Qed.

(** ** Failures before the bulk insert *)

Section EarlyFaults.
Variable fit : Column → cell → cell.

Lemma validate_without_cursor F df table_name w :
  f_cursor F = true →
  validate_and_append_data F df table_name w = (w, Raise MySQLError).
Proof.
  intros Hcur. unfold validate_and_append_data, query, mbind, M_bind.
  by rewrite Hcur.
Qed.

Lemma report_exception_shows e w :
  ∃ msg, report_exception e w
         = ({| server := server w; screen := screen w ++ [StError msg] |}, Ok ()).
Proof. destruct e; eexists; reflexivity. Qed.

(** the steps from the reconciliation on write nothing and end in an error
    when no cursor can be had or the table cannot be created *)
Lemma reconcile_fails_early F now df table_name uploader_name w :
  f_cursor F = true ∨ f_create F = true →
  ∃ scr msg,
    try_except (reconcile_and_insert fit F now df table_name uploader_name)
      report_exception w
    = ({| server := server w; screen := scr ++ [StError msg] |}, Ok ()).
Proof.
  intros Hfault. unfold try_except, reconcile_and_insert, mbind, M_bind.
  destruct (f_cursor F) eqn:Hcur.
  { rewrite validate_without_cursor by done. by eexists _, _. }
  destruct Hfault as [? | Hcr]; [done |].
  pose proof (validate_and_append_data_reads F df table_name w) as Hsrv.
  destruct (validate_and_append_data F df table_name w)
    as [w1 [[dff msg] | e]] eqn:Hv; simpl in Hsrv.
  - destruct msg as [msg |].
    { unfold show; simpl. exists (screen w1), msg. by rewrite <- Hsrv. }
    destruct dff as [dff |].
    2:{ unfold throw, show; simpl. eexists (screen w1), _. by rewrite <- Hsrv. }
    unfold create_table_from_df, execute, throw. rewrite Hcr.
    case_bool_decide; unfold show; simpl; eexists (screen w1), _;
      by rewrite <- Hsrv.
  - destruct (report_exception_shows e w1) as [msg ->].
    exists (screen w1), msg. by rewrite <- Hsrv.
Qed.

End EarlyFaults.

(** When the connection, the creation of the registry, the cursor of the
    reconciliation or the creation of the table fails, the upload writes
    no data: no data table is created or changed and the registry gains
    no entry.  The server is as it was, or as it was with the registry
    table ensured, and the last thing the page shows is an error.  When
    it is the connection or the creation of the registry that fails, the
    server is exactly as it was. *)
Theorem failure_before_insert_writes_no_data
    (fit : Column → cell → cell) (astype_int : cell → cast) (F : Faults)
    (now : Z) (df : DataFrame)
    (table_name uploader_name : string) (w : World) :
  f_connect F = true ∨ f_registry F = true
  ∨ f_cursor F = true ∨ f_create F = true →
  let w' := (upload_to_mysql fit astype_int F now df table_name uploader_name w).1 in
  (server w' = server w ∨ server w' = with_registry (server w))
  ∧ (f_connect F = true ∨ f_registry F = true → server w' = server w)
  ∧ (∀ name, name ≠ registry_name → server w' !! name = server w !! name)
  ∧ registry_rows (server w') = registry_rows (server w)
  ∧ ∃ msg, last (screen w') = Some (StError msg).
Proof.
  intros Hfault. cbv zeta.
  assert ((server (upload_to_mysql fit astype_int F now df table_name
                     uploader_name w).1 = server w
           ∨ (f_connect F = false ∧ f_registry F = false
              ∧ server (upload_to_mysql fit astype_int F now df table_name
                          uploader_name w).1 = with_registry (server w)))
          ∧ ∃ msg, last (screen (upload_to_mysql fit astype_int F now df table_name
                                   uploader_name w).1) = Some (StError msg))
    as [Hsrv Hlast].
  { unfold upload_to_mysql, try_except.
    destruct (blank uploader_name);
      [split; [by left | eexists; apply last_snoc] |].
    destruct (blank table_name);
      [split; [by left | eexists; apply last_snoc] |].
    destruct (index_of "applicant_id" (columns df)) as [i |];
      [| split; [by left | eexists; apply last_snoc]].
    destruct (astype_column astype_int i (dropna i df)) as [df' | e] eqn:E;
      [| destruct e; (split; [by left | eexists; apply last_snoc])].
    unfold mbind, M_bind, get_connection, query.
    set (w0 := (if Nat.ltb 0 (len df - len df')
                then show (StWarningDropped (len df - len df'))
                else mret ()) w).
    assert (∃ scr, w0 = ({| server := server w; screen := scr |}, Ok ()))
      as [scr ->].
    { unfold w0. destruct (Nat.ltb _ _); [eexists; reflexivity |].
      exists (screen w). by destruct w. }
    destruct (f_connect F) eqn:Hf1;
      [split; [by left | eexists; apply last_snoc] |].
    destruct (f_registry F) eqn:Hf2.
    { unfold ensure_registry, execute.
      split; [by left | eexists; apply last_snoc]. }
    rewrite ensure_registry_ok. cbn [server screen]. unfold where_notnull.
    destruct Hfault as [? | [? | Hfault]]; [done | done |].
    destruct (reconcile_fails_early fit F now df' table_name uploader_name
                {| server := with_registry (server w); screen := scr |} Hfault)
      as (scr' & msg & Hrec).
    unfold try_except, report_exception in Hrec. rewrite Hrec. simpl.
    split; [right; by repeat split | eexists; apply last_snoc]. }
  split; [destruct Hsrv as [? | (_ & _ & ?)]; auto |].
  split.
  { intros [Hf | Hf]; destruct Hsrv as [? | (? & ? & ?)]; congruence. }
  split; [| split; [| done]].
  - intros name Hname. destruct Hsrv as [-> | (_ & _ & ->)]; [done |].
    by apply with_registry_lookup_ne.
  - destruct Hsrv as [-> | (_ & _ & ->)]; [done |]. apply with_registry_rows.
Qed.

(** ** A bulk insert that fails *)

Section InsertFault.
Variable fit : Column → cell → cell.

Lemma with_registry_is_Some db : is_Some (with_registry db !! registry_name).
Proof.
  unfold with_registry. destruct (db !! registry_name) eqn:E.
  - by rewrite E.
  - by rewrite lookup_insert_eq.
Qed.

Lemma with_registry_new db name t :
  with_registry db !! name = Some t → db !! name = None →
  name = registry_name ∧ t_rows t = [].
Proof.
  unfold with_registry. destruct (db !! registry_name) eqn:E.
  - congruence.
  - destruct (decide (name = registry_name)) as [-> | Hne].
    + rewrite lookup_insert_eq. intros [= <-] _. done.
    + rewrite lookup_insert_ne by done. congruence.
Qed.

(** the steps from the reconciliation on, when the bulk insert fails *)
Lemma reconcile_fails_at_insert F now df table_name uploader_name w :
  f_insert F = true →
  ∃ db scr msg,
    try_except (reconcile_and_insert fit F now df table_name uploader_name)
      report_exception w
    = ({| server := db; screen := scr ++ [StError msg] |}, Ok ())
    ∧ (db = server w
       ∨ ∃ cols, server w !! table_name = None
                 ∧ db = <[table_name := {| t_columns := cols; t_rows := [] |}]>
                          (server w)).
Proof.
  intros Hins. unfold try_except, reconcile_and_insert, mbind, M_bind.
  pose proof (validate_and_append_data_reads F df table_name w) as Hsrv.
  destruct (validate_and_append_data F df table_name w)
    as [w1 [[dff msg] | e]] eqn:Hv; simpl in Hsrv.
  2:{ destruct (report_exception_shows e w1) as [msg ->].
      exists (server w1), (screen w1), msg. split; [done | by left]. }
  destruct msg as [msg |].
  { exists (server w1), (screen w1), msg. split; [done | by left]. }
  destruct dff as [dff |].
  2:{ unfold throw.
      destruct (report_exception_shows
                  (PyError "'NoneType' object has no attribute 'columns'") w1)
        as [msg ->].
      exists (server w1), (screen w1), msg. split; [done | by left]. }
  unfold create_table_from_df.
  case_bool_decide.
  2:{ unfold throw.
      destruct (report_exception_shows
                  (PyError "'DataFrame' object has no attribute 'dtype'") w1)
        as [msg ->].
      exists (server w1), (screen w1), msg. split; [done | by left]. }
  unfold execute at 1.
  destruct (f_create F).
  { destruct (report_exception_shows MySQLError w1) as [msg ->].
    exists (server w1), (screen w1), msg. split; [done | by left]. }
  unfold MySQL.create_table_if_not_exists. rewrite Hsrv.
  destruct (server w !! table_name) as [t |] eqn:Ht.
  { unfold insert_dataframe, execute. rewrite Hins.
    match goal with
    | |- context [report_exception MySQLError ?w2] =>
        destruct (report_exception_shows MySQLError w2) as [msg ->]
    end.
    cbn [server screen]. eexists _, _, msg. split; [done | by left]. }
  case_bool_decide.
  - unfold insert_dataframe, execute. rewrite Hins.
    match goal with
    | |- context [report_exception MySQLError ?w2] =>
        destruct (report_exception_shows MySQLError w2) as [msg ->]
    end.
    cbn [server screen]. eexists _, _, msg. split; [done |].
    right. by eexists.
  - destruct (report_exception_shows MySQLError w1) as [msg ->].
    exists (server w1), (screen w1), msg. split; [done | by left].
Qed.

End InsertFault.

(** When the bulk insert fails, the upload stores no row: every table
    that was there is exactly as it was, a table that was not there, the
    target table or the registry, is left empty if it has been created,
    the registry gains no entry, and the last thing the page shows is an
    error. *)
Theorem failed_insert_stores_no_row
    (fit : Column → cell → cell) (astype_int : cell → cast) (F : Faults)
    (now : Z) (df : DataFrame)
    (table_name uploader_name : string) (w : World) :
  f_insert F = true →
  let w' := (upload_to_mysql fit astype_int F now df table_name uploader_name w).1 in
  (∀ name t, server w !! name = Some t → server w' !! name = Some t)
  ∧ (∀ name t', server w' !! name = Some t' → server w !! name = None →
                t_rows t' = [] ∧ (name = table_name ∨ name = registry_name))
  ∧ registry_rows (server w') = registry_rows (server w)
  ∧ ∃ msg, last (screen w') = Some (StError msg).
Proof.
  intros Hins. cbv zeta.
  assert ((server (upload_to_mysql fit astype_int F now df table_name
                     uploader_name w).1 = server w
           ∨ server (upload_to_mysql fit astype_int F now df table_name
                       uploader_name w).1 = with_registry (server w)
           ∨ ∃ cols, with_registry (server w) !! table_name = None
               ∧ server (upload_to_mysql fit astype_int F now df table_name
                           uploader_name w).1
                 = <[table_name := {| t_columns := cols; t_rows := [] |}]>
                     (with_registry (server w)))
          ∧ ∃ msg, last (screen (upload_to_mysql fit astype_int F now df table_name
                                   uploader_name w).1) = Some (StError msg))
    as [Hsrv Hlast].
  { unfold upload_to_mysql, try_except.
    destruct (blank uploader_name);
      [split; [by left | eexists; apply last_snoc] |].
    destruct (blank table_name);
      [split; [by left | eexists; apply last_snoc] |].
    destruct (index_of "applicant_id" (columns df)) as [i |];
      [| split; [by left | eexists; apply last_snoc]].
    destruct (astype_column astype_int i (dropna i df)) as [df' | e] eqn:E;
      [| destruct e; (split; [by left | eexists; apply last_snoc])].
    unfold mbind, M_bind, get_connection, query.
    set (w0 := (if Nat.ltb 0 (len df - len df')
                then show (StWarningDropped (len df - len df'))
                else mret ()) w).
    assert (∃ scr, w0 = ({| server := server w; screen := scr |}, Ok ()))
      as [scr ->].
    { unfold w0. destruct (Nat.ltb _ _); [eexists; reflexivity |].
      exists (screen w). by destruct w. }
    destruct (f_connect F) eqn:Hf1;
      [split; [by left | eexists; apply last_snoc] |].
    destruct (f_registry F) eqn:Hf2.
    { unfold ensure_registry, execute.
      split; [by left | eexists; apply last_snoc]. }
    rewrite ensure_registry_ok. cbn [server screen]. unfold where_notnull.
    destruct (reconcile_fails_at_insert fit F now df' table_name uploader_name
                {| server := with_registry (server w); screen := scr |} Hins)
      as (db & scr' & msg & Hrec & Hdb).
    unfold try_except, report_exception in Hrec. rewrite Hrec. simpl.
    split; [| eexists; apply last_snoc].
    destruct Hdb as [-> | (cols & Hnone & ->)]; [by right; left |].
    right; right. by exists cols. }
  split; [| split; [| split; [| done]]].
  - intros name t Ht.
    destruct Hsrv as [-> | [-> | (cols & Hnone & ->)]]; [done | |].
    + by apply with_registry_lookup_Some.
    + rewrite lookup_insert_ne; [by apply with_registry_lookup_Some |].
      intros <-. apply (with_registry_lookup_Some _ _ _) in Ht. congruence.
  - intros name t' Ht' Hnew.
    destruct Hsrv as [Hs | [Hs | (cols & Hnone & Hs)]]; rewrite Hs in Ht'.
    + congruence.
    + destruct (with_registry_new _ _ _ Ht' Hnew) as [-> ?]. auto.
    + destruct (decide (name = table_name)) as [-> | Hne].
      * rewrite lookup_insert_eq in Ht'. injection Ht' as <-. auto.
      * rewrite lookup_insert_ne in Ht' by done.
        destruct (with_registry_new _ _ _ Ht' Hnew) as [-> ?]. auto.
  - destruct Hsrv as [-> | [-> | (cols & Hnone & ->)]];
      [done | apply with_registry_rows |].
    rewrite <- (with_registry_rows (server w)).
    unfold registry_rows at 1. rewrite lookup_insert_ne; [done |].
    intros ->. destruct (with_registry_is_Some (server w)) as [? ?]. congruence.
Qed.

(** ** Uploading the same file again *)

Section Reupload.
Variable fit : Column → cell → cell.

Lemma omap_index_of_from (p s : list string) :
  NoDup (p ++ s) →
  omap (λ c, index_of c (p ++ s)) s = seq (length p) (length s).
Proof.
  revert p. induction s as [| c s IH]; intros p Hnd; [done |].
  cbn [omap list_omap].
  rewrite (index_of_lookup (p ++ c :: s) (length p) c Hnd)
    by (by rewrite list_lookup_middle).
  simpl. f_equal.
  rewrite (cons_middle c p s), app_assoc in Hnd |- *.
  rewrite (IH (p ++ [c]) Hnd). rewrite length_app. simpl.
  by rewrite Nat.add_1_r.
Qed.

Lemma omap_index_of_self (l : list string) :
  NoDup l → omap (λ c, index_of c l) l = seq 0 (length l).
Proof. intros Hnd. by apply (omap_index_of_from [] l). Qed.

Lemma filter_elem_of_self (l : list string) : filter (λ c, c ∈ l) l = l.
Proof.
  assert (∀ k : list string, k ⊆ l → filter (λ c, c ∈ l) k = k) as H.
  { induction k as [| c k IH]; intros Hsub; [done |].
    rewrite filter_cons_True by (apply Hsub; left).
    f_equal. apply IH. intros x Hx. apply Hsub. by right. }
  by apply H.
Qed.

(** selecting every column of the file gives its rows, cut to the header *)
Lemma select_all_rows df :
  NoDup (columns df) →
  df_rows (select (columns df) df)
  = (λ r, (λ i, r !!! i) <$> seq 0 (length (columns df))) <$> df_rows df.
Proof.
  intros Hnd. rewrite select_NoDup by done. simpl.
  by rewrite omap_index_of_self.
Qed.

(** the stored row reads the values at the positions of the header only *)
Lemma stored_row_ext m now t cols vals vals' :
  (∀ i, (i < length cols)%nat → vals !!! i = vals' !!! i) →
  MySQL.stored_row m now t cols vals = MySQL.stored_row m now t cols vals'.
Proof.
  intros Hext. unfold MySQL.stored_row. apply imap_ext. intros j c _.
  destruct (index_of (col_name c) cols) as [i |] eqn:E; [| done].
  simpl. rewrite (Hext i); [done |].
  apply index_of_Some in E. by eapply lookup_lt_Some.
Qed.

Lemma lookup_total_header_cut (r : list cell) n i :
  (i < n)%nat → ((λ k, r !!! k) <$> seq 0 n) !!! i = r !!! i.
Proof.
  intros Hi. apply list_lookup_total_correct.
  by rewrite list_lookup_fmap, lookup_seq_lt.
Qed.

(** the steps from the reconciliation on, for a file whose rows are all
    in the table the portal made for it *)
Lemma reconcile_same_file_again F now now' df table_name uploader_name w t1 treg :
  f_cursor F = false → f_check F = false → f_describe F = false →
  f_create F = false → f_insert F = false →
  server w !! table_name = Some t1 → table_name ≠ registry_name →
  t_columns t1 = created_columns df →
  server w !! registry_name = Some treg → t_columns treg = registry_columns →
  NoDup (columns df) → columns df ≠ [] →
  (∀ vals, vals ∈ df_rows df →
           MySQL.duplicate_key t1 (MySQL.stored_row (MySQL.Ignore fit) now t1 (columns df) vals)
           = true) →
  reconcile_and_insert fit F now' df table_name uploader_name w
  = if f_register F
    then ({| server := server w; screen := screen w |}, Raise MySQLError)
    else ({| server :=
               <[registry_name :=
                   {| t_columns := t_columns treg;
                      t_rows := t_rows treg ++
                        [registry_entry (MySQL.next_auto 0 (t_rows treg))
                           table_name uploader_name now' (len df)] |}]>
                 (server w);
             screen := screen w
                       ++ [StSuccess (len df) table_name uploader_name] |},
          Ok ()).
Proof.
  intros Hcur Hc Hd Hcr Hin Ht Hne Hc1 Hreg Hregc Hnd Hcols Hdup.
  assert (MySQL.column_names t1 = columns df) as Hnames
    by (unfold MySQL.column_names; by rewrite Hc1, created_columns_names).
  assert (plain_table t1) as Hplain
    by (unfold plain_table; rewrite Hc1; apply (created_table_plain df [])).
  unfold reconcile_and_insert, mbind, M_bind.
  rewrite (validate_existing_table F df table_name w t1); try done.
  2:{ rewrite Hc1. intros Hnil. apply Hcols.
      by rewrite <- created_columns_names, Hnil. }
  rewrite Hnames, filter_elem_of_self.
  assert (match columns df with
          | [] => (None, Some no_match_msg)
          | keep => (Some (select keep df), None)
          end = (Some (select (columns df) df), None)) as ->
    by (by destruct (columns df)).
  set (dff := select (columns df) df).
  assert (columns dff = columns df) as Hcf by (by apply columns_select).
  assert (len dff = len df) as Hlen.
  { unfold len, dff. rewrite select_all_rows by done. by rewrite length_fmap. }
  unfold create_table_from_df.
  rewrite bool_decide_eq_true_2 by (by rewrite Hcf).
  unfold execute at 1, MySQL.create_table_if_not_exists.
  rewrite Hcr, Ht.
  unfold insert_dataframe, execute at 1, MySQL.insert_into, where_notnull.
  rewrite Hin. cbn [server screen]. rewrite Ht, Hcf.
  rewrite (insert_rows_all_skipped fit now' (columns df) (df_rows dff) t1).
  2:{ intros _. by rewrite Hnames. }
  2:{ intros vals Hv. unfold dff in Hv. rewrite select_all_rows in Hv by done.
      apply list_elem_of_fmap in Hv as (r & -> & Hr).
      rewrite (stored_row_ext _ now' t1 (columns df) _ r)
        by (intros i Hi; by apply lookup_total_header_cut).
      rewrite (stored_row_plain _ now now' t1 t1) by done.
      by apply Hdup. }
  rewrite insert_id by done. rewrite Hlen.
  destruct (f_register F).
  - unfold register_table, execute. done.
  - erewrite register_table_ok; [| exact Hreg | exact Hregc]. reflexivity.
Qed.

End Reupload.

(** Uploading a file into a table that does not exist yet and then
    uploading the same file again, by anyone and at any later time, with
    a storage layer that works up to the bulk insert both times: the
    second upload leaves the data table, and every table other than the
    registry, exactly as the first one left it.  When the registration
    of the second upload goes through, the registry still gains an entry
    whose row count is the number of rows of the file with a key, and
    the page reports that number as uploaded, although no row was
    stored. *)
Theorem upload_again_stores_nothing_new
    (fit : Column → cell → cell) (astype_int : cell → cast) (F F' : Faults)
    (now now' : Z) (df : DataFrame)
    (table_name uploader_name uploader_name' : string) (w : World) (i : nat) :
  blank uploader_name = false →
  blank uploader_name' = false →
  blank table_name = false →
  index_of "applicant_id" (columns df) = Some i →
  NoDup (columns df) →
  (∀ r, r ∈ df_rows df → notnull (r !!! i) = true →
        ∃ z, astype_int (r !!! i) = Cast z) →
  server w !! table_name = None →
  table_name ≠ registry_name →
  registry_is_portals (server w) →
  f_connect F = false → f_registry F = false → f_cursor F = false →
  f_check F = false → f_create F = false → f_insert F = false →
  f_connect F' = false → f_registry F' = false → f_cursor F' = false →
  f_check F' = false → f_describe F' = false → f_create F' = false →
  f_insert F' = false →
  let w1 := (upload_to_mysql fit astype_int F now df table_name uploader_name w).1 in
  let w2 :=
    (upload_to_mysql fit astype_int F' now' df table_name uploader_name' w1).1 in
  let n := len (dropna i df) in
  is_Some (server w1 !! table_name)
  ∧ server w2 !! table_name = server w1 !! table_name
  ∧ (∀ name, name ≠ registry_name → server w2 !! name = server w1 !! name)
  ∧ (f_register F' = false →
     registry_rows (server w2)
     = registry_rows (server w1)
       ++ [registry_entry (MySQL.next_auto 0 (registry_rows (server w1)))
             table_name uploader_name' now' n]
     ∧ last (screen w2) = Some (StSuccess n table_name uploader_name'))
  ∧ (f_register F' = true →
     server w2 = server w1
     ∧ last (screen w2) = Some (StError connect_failed_msg)).
Proof.
  intros Hu Hu' Ht Hi Hnd Hcast Hnew Hne Hportal Hf1 Hf2 Hf3 Hf4 Hf5 Hf6
    Hg1 Hg2 Hg3 Hg4 Hg5 Hg6 Hg7. cbv zeta.
  destruct (upload_into_new_table_world fit astype_int F now df table_name
              uploader_name w i)
    as (df' & t1 & treg & scr & Hcol & Hcols & Hall & Hins & Hreg & Hregc
        & Hregr & Hup);
    try done.
  assert (index_of "applicant_id" (columns df') = Some i) as Hi'
    by (by rewrite Hcols).
  assert (NoDup (columns df')) as Hnd' by (by rewrite Hcols).
  assert (columns df' ≠ []) as Hne'.
  { rewrite Hcols. intros Hnil. by rewrite Hnil in Hi. }
  destruct (created_table_after_insert fit now df' i t1 Hi' Hnd' Hins)
    as (Hc1 & _ & _ & _ & _ & _ & Hdup & _).
  assert (len df' = len (dropna i df)) as Hlen.
  { unfold astype_column in Hcol.
    destruct (astype_rows astype_int i (df_rows (dropna i df))) as [rows' |] eqn:E;
      [| done].
    injection Hcol as <-. unfold len; simpl.
    by apply (astype_rows_length astype_int i _ _ E). }
  rewrite <- Hlen.
  set (w1 := (upload_to_mysql fit astype_int F now df table_name uploader_name w).1).
  assert (∃ treg1,
            server w1 !! table_name = Some t1
            ∧ server w1 !! registry_name = Some treg1
            ∧ t_columns treg1 = registry_columns) as (treg1 & Ht1 & Hreg1 & Hregc1).
  { unfold w1. rewrite Hup. destruct (f_register F); cbn [fst server].
    - exists treg. split; [by rewrite lookup_insert_eq |].
      split; [| done]. by rewrite lookup_insert_ne.
    - eexists. split.
      + rewrite lookup_insert_ne by done. by rewrite lookup_insert_eq.
      + split; [by rewrite lookup_insert_eq | done]. }
  clearbody w1.
  rewrite (upload_to_mysql_cleaned fit astype_int F' now' df table_name
             uploader_name' i df') by done.
  unfold after_cleaning, try_except, mbind, M_bind, get_connection, query.
  set (w0 := (if Nat.ltb 0 (len df - len df')
              then show (StWarningDropped (len df - len df'))
              else mret ()) w1).
  assert (∃ scr', w0 = ({| server := server w1; screen := scr' |}, Ok ()))
    as [scr' ->].
  { unfold w0. destruct (Nat.ltb _ _); [eexists; reflexivity |].
    exists (screen w1). by destruct w1. }
  rewrite Hg1, Hg2, ensure_registry_ok. cbn [server screen].
  assert (with_registry (server w1) = server w1) as ->
    by (unfold with_registry; by rewrite Hreg1).
  rewrite (reconcile_same_file_again fit F' now now' df' table_name uploader_name'
             {| server := server w1; screen := scr' |} t1 treg1); try done.
  split; [by rewrite Ht1 |].
  destruct (f_register F') eqn:Hfr; cbn [server screen fst].
  - unfold report_exception, show. cbn [server screen fst].
    split; [done |]. split; [done |]. split; [done |].
    intros _. split; [done |]. apply last_snoc.
  - split; [by rewrite lookup_insert_ne |].
    split; [intros name Hn; by rewrite lookup_insert_ne |].
    split; [| done]. intros _. split; [| apply last_snoc].
    unfold registry_rows. rewrite lookup_insert_eq, Hreg1. done.
Qed.

(** ** Signing in and out *)

Section LoginProperties.

Variables app_username app_password : option string.

Lemma show_login_signs_in u p st :
  authenticated (show_login app_username app_password u p st).1 = true →
  authenticated st = true
  ∨ (show_login app_username app_password u p st
     = ({| authenticated := true; username := Some u |}, None)
     ∧ app_username = Some u ∧ app_password = Some p ∧ u ≠ "" ∧ p ≠ "").
Proof.
  unfold show_login, authenticate.
  destruct u as [| a u]; [simpl; auto |].
  destruct p as [| b p]; [simpl; auto |].
  cbn [PyStr.is_empty orb].
  repeat case_bool_decide; cbn [andb fst]; auto.
  intros _. right. by repeat split.
Qed.

End LoginProperties.

(** Whatever is clicked and typed, from a new session on: the session is
    authenticated only if the sign-in form has been submitted with the
    user name and the password of the environment, both set and neither
    empty, and its user name is then that name; a session that is not
    authenticated has no user name.  With [APP_USER] or [APP_PASSWORD]
    unset or empty nobody signs in. *)
Theorem authenticated_only_with_configured_credentials
    (app_username app_password : option string) (clicks : list click) :
  let st := foldl (run_app app_username app_password) new_session clicks in
  (authenticated st = true →
   ∃ u p, username st = Some u
          ∧ app_username = Some u ∧ app_password = Some p
          ∧ u ≠ "" ∧ p ≠ ""
          ∧ SignIn u p ∈ clicks)
  ∧ (authenticated st = false → username st = None).
Proof.
  cbv zeta. induction clicks as [| c clicks IH] using rev_ind.
  - simpl. split; [done | done].
  - rewrite foldl_snoc.
    set (st := foldl (run_app app_username app_password) new_session clicks)
      in *.
    destruct IH as [IH1 IH0]. unfold run_app.
    destruct (authenticated st) eqn:Hauth; cbn [negb].
    + destruct (IH1 eq_refl) as (u & p & Hu & Hau & Hap & Hne1 & Hne2 & Hin).
      destruct c as [u' p' |].
      * rewrite Hauth. split; [| done]. intros _.
        exists u, p. repeat (split; [done |]). apply elem_of_app. by left.
      * simpl. split; [done | done].
    + destruct c as [u' p' |].
      * split.
        -- intros Hs.
           apply show_login_signs_in in Hs as [Hs | (Hs & Hau & Hap & ? & ?)];
             [congruence |].
           rewrite Hs. exists u', p'. repeat (split; [done |]).
           apply elem_of_app. right. left.
        -- unfold show_login.
           destruct (_ || _); [simpl; intros; by apply IH0 |].
           destruct (authenticate _ _ _ _); simpl; [done |].
           intros. by apply IH0.
      * rewrite Hauth. split; [done |]. intros _. by apply IH0.
Qed.

(** ** What the bulk insert stores *)

Section InsertSpec.
Variable fit : Column → cell → cell.

Lemma insert_rows_length ignore now cols data : ∀ t t1,
  MySQL.insert_rows ignore now cols t data = Ok t1 →
  (length (t_rows t1) ≤ length (t_rows t) + length data)%nat.
Proof.
  induction data as [| v data IH]; intros t t1; simpl.
  - intros [= <-]. lia.
  - destruct (MySQL.insert_row ignore now cols t v) as [t2 | e] eqn:E; [| done].
    intros Hrest. specialize (IH t2 t1 Hrest).
    apply insert_row_rows in E as [Hr | [Hr _]]; rewrite Hr in IH.
    + lia.
    + rewrite length_app in IH. simpl in IH. lia.
Qed.

(** the cell of a stored row, in a table without defaults *)
Lemma stored_row_named now t cols vals j c i :
  plain_table t →
  t_columns t !! j = Some c →
  index_of (col_name c) cols = Some i →
  MySQL.stored_row (MySQL.Ignore fit) now t cols vals !!! j = fit c (vals !!! i).
Proof.
  intros Hplain Hj Hi. apply list_lookup_total_correct.
  unfold MySQL.stored_row. rewrite list_lookup_imap, Hj. simpl. rewrite Hi.
  unfold plain_table in Hplain. rewrite Forall_lookup in Hplain.
  by rewrite (Hplain j c Hj).
Qed.

Lemma stored_row_unnamed now t cols vals j c :
  plain_table t →
  t_columns t !! j = Some c →
  index_of (col_name c) cols = None →
  MySQL.stored_row (MySQL.Ignore fit) now t cols vals !!! j = fit c CNull.
Proof.
  intros Hplain Hj Hi. apply list_lookup_total_correct.
  unfold MySQL.stored_row. rewrite list_lookup_imap, Hj. simpl. rewrite Hi.
  unfold plain_table in Hplain. rewrite Forall_lookup in Hplain.
  by rewrite (Hplain j c Hj).
Qed.

(** without a primary key no row is a duplicate *)
Lemma insert_rows_without_key now cols data : ∀ t t1,
  plain_table t →
  MySQL.primary_positions t = [] →
  MySQL.insert_rows (MySQL.Ignore fit) now cols t data = Ok t1 →
  t_rows t1
  = t_rows t ++ (MySQL.stored_row (MySQL.Ignore fit) now t cols <$> data).
Proof.
  induction data as [| v data IH]; intros t t1 Hplain Hpk; simpl.
  - intros [= <-]. by rewrite app_nil_r.
  - destruct (MySQL.insert_row (MySQL.Ignore fit) now cols t v) as [t2 | e]
      eqn:E; [| done].
    intros Hrest.
    pose proof (insert_row_columns _ _ _ _ _ _ E) as Hc2.
    assert (MySQL.duplicate_key t
              (MySQL.stored_row (MySQL.Ignore fit) now t cols v) = false) as Hd.
    { unfold MySQL.duplicate_key. by rewrite Hpk. }
    assert (t_rows t2
            = t_rows t ++ [MySQL.stored_row (MySQL.Ignore fit) now t cols v])
      as Hr.
    { unfold MySQL.insert_row in E. case_bool_decide; [| done].
      rewrite Hd in E. by injection E as <-. }
    rewrite (IH t2 t1); [| unfold plain_table; by rewrite Hc2
                          | by rewrite (primary_positions_columns t t2 Hc2)
                          | done].
    rewrite Hr, <- app_assoc. simpl. do 2 f_equal.
    apply list_fmap_ext. intros k r _.
    by apply stored_row_plain.
Qed.

End InsertSpec.

(** The bulk insert into a table without AUTO_INCREMENT and DEFAULT
    columns, for a dataframe whose columns are distinct columns of the
    table: it succeeds and changes that table only; the rows the table
    had stay as they are and come first, so a stored row is never
    overwritten by a row of the file; at most one row per row of the
    file is added, and every row added is what MySQL stores for a row of
    the file: each named column holds the value of the file as MySQL
    fits it to the column, each other column what MySQL stores for NULL.
    With a primary key, unique keys stay unique; without one, every row
    of the file is added, in the order of the file. *)
Theorem insert_dataframe_stores_rows_of_the_file
    (fit : Column → cell → cell) (now : Z) (df : DataFrame)
    (table_name : string) (w : World) (t : Table) :
  server w !! table_name = Some t →
  plain_table t →
  NoDup (columns df) →
  columns df ⊆ MySQL.column_names t →
  let stored_form := MySQL.stored_row (MySQL.Ignore fit) now t (columns df) in
  ∃ t1,
    insert_dataframe fit false now df table_name w
    = ({| server := <[table_name := t1]> (server w); screen := screen w |},
       Ok ())
    ∧ t_columns t1 = t_columns t
    ∧ t_rows t `prefix_of` t_rows t1
    ∧ (length (t_rows t1) ≤ length (t_rows t) + len df)%nat
    ∧ (∀ r', r' ∈ t_rows t1 →
             r' ∈ t_rows t ∨ ∃ vals, vals ∈ df_rows df ∧ r' = stored_form vals)
    ∧ (∀ vals j c i,
         t_columns t !! j = Some c →
         index_of (col_name c) (columns df) = Some i →
         stored_form vals !!! j = fit c (vals !!! i))
    ∧ (∀ vals j c,
         t_columns t !! j = Some c →
         index_of (col_name c) (columns df) = None →
         stored_form vals !!! j = fit c CNull)
    ∧ (MySQL.primary_positions t ≠ [] → keys_unique t → keys_unique t1)
    ∧ (MySQL.primary_positions t = [] →
       t_rows t1 = t_rows t ++ (stored_form <$> df_rows df)).
Proof.
  intros Ht Hplain Hnd Hsub stored_form.
  destruct (insert_rows_ignore_ok fit now (columns df) (df_rows df) t Hnd Hsub)
    as [t1 Hins].
  pose proof (insert_rows_columns _ _ _ _ _ _ Hins) as Hc.
  exists t1.
  split.
  { unfold insert_dataframe, execute, MySQL.insert_into, where_notnull.
    by rewrite Ht, Hins. }
  split; [done |].
  split; [by eapply insert_rows_prefix |].
  split; [by eapply insert_rows_length |].
  split; [by eapply insert_rows_origin |].
  split.
  { intros vals j c i Hj Hi. by apply (stored_row_named fit now t). }
  split.
  { intros vals j c Hj Hi. by apply (stored_row_unnamed fit now t). }
  split; [intros Hpk Hu; by eapply insert_rows_keys_unique |].
  intros Hpk. by apply (insert_rows_without_key fit now (columns df)).
Qed.


(** ** The further properties at concrete inputs *)

(** The later file against the table [risk], where applicant 2 is stored. *)
Lemma upload_keeps_primary_keys_unique_witness :
  keys_unique_all
    (server (upload_to_mysql mysql_fit int_of_cell no_faults 2000 later_applicants "risk" "Ben" risk_world).1).
Proof.
  apply (upload_keeps_primary_keys_unique mysql_fit int_of_cell no_faults 2000 later_applicants "risk" "Ben"
           risk_world).
  - apply (bool_decide_unpack
             (map_Forall (λ _ t, MySQL.primary_positions t ≠ []
                                 → NoDup (key_of t <$> t_rows t))
                (server risk_world))).
    vm_compute. reflexivity.
Defined.

(** The later file inserted into [risk] twice. *)
Lemma insert_dataframe_again_changes_nothing_witness :
  insert_dataframe mysql_fit false 3000 later_applicants "risk" (insert_dataframe mysql_fit false 2000 later_applicants "risk" risk_world).1 = ((insert_dataframe mysql_fit false 2000 later_applicants "risk" risk_world).1, Ok ()).
Proof.
  apply (insert_dataframe_again_changes_nothing mysql_fit 2000 3000 later_applicants "risk" risk_world
           (insert_dataframe mysql_fit false 2000 later_applicants "risk"
              risk_world).1
           risk_table).
  - vm_compute. reflexivity.
  - apply (bool_decide_unpack _). vm_compute. reflexivity.
  - vm_compute. discriminate.
  - vm_compute. reflexivity.
Defined.

(** A second entry for [risk]. *)
Lemma ensure_then_register_appends_entry_witness :
  ∃ w',
    (ensure_registry false;; register_table false 2000 "risk" "Ben" 2%nat) risk_world
    = (w', Ok ())
    ∧ registry_rows (server w')
      = registry_rows (server risk_world)
        ++ [registry_entry (MySQL.next_auto 0 (registry_rows (server risk_world)))
              "risk" "Ben" 2000 2%nat]
    ∧ (∀ r z, r ∈ registry_rows (server risk_world) → r !!! 0%nat = CInt z →
              z < MySQL.next_auto 0 (registry_rows (server risk_world)))
    ∧ (∀ name, name ≠ registry_name → server w' !! name = server risk_world !! name)
    ∧ registry_is_portals (server w')
    ∧ screen w' = screen risk_world.
Proof.
  apply (ensure_then_register_appends_entry 2000 "risk" "Ben" 2%nat risk_world).
  - intros t Ht. vm_compute in Ht. injection Ht as <-. reflexivity.
Defined.

(** The five-row file, one row without applicant id, on an empty server. *)
Lemma upload_into_new_table_witness :
  let w' := (upload_to_mysql mysql_fit int_of_cell no_faults 1000 risk_batch1 "risk" "Ann" empty_world).1 in
  ∃ df' tbl,
    astype_column int_of_cell 0%nat (dropna 0%nat risk_batch1) = Ok df'
    ∧ server w' !! "risk" = Some tbl
    ∧ t_columns tbl = created_columns df'
    ∧ (∀ c, c ∈ t_columns tbl →
            (col_primary c = true ↔ col_name c = "applicant_id"))
    ∧ (∃ c, t_columns tbl !! 0%nat = Some c
            ∧ col_name c = "applicant_id" ∧ col_type c = "INT")
    ∧ keys_unique tbl
    ∧ (∀ r, r ∈ df_rows df' → ∃ r', r' ∈ t_rows tbl ∧ r' !!! 0%nat = r !!! 0%nat)
    ∧ (∀ r', r' ∈ t_rows tbl →
             ∃ r, r ∈ df_rows df'
                  ∧ r' !!! 0%nat = r !!! 0%nat
                  ∧ ∀ j c, t_columns tbl !! j = Some c →
                           r' !!! j = mysql_fit c (r !!! j))
    ∧ (∀ name, name ≠ "risk" → name ≠ registry_name →
               server w' !! name = server empty_world !! name)
    ∧ (f_register no_faults = false →
       registry_rows (server w')
       = registry_rows (server empty_world)
         ++ [registry_entry (MySQL.next_auto 0 (registry_rows (server empty_world)))
               "risk" "Ann" 1000 (len df')]
       ∧ last (screen w') = Some (StSuccess (len df') "risk" "Ann"))
    ∧ (f_register no_faults = true →
       registry_rows (server w') = registry_rows (server empty_world)
       ∧ last (screen w') = Some (StError connect_failed_msg)).
Proof.
  apply (upload_into_new_table mysql_fit int_of_cell no_faults 1000 risk_batch1 "risk" "Ann"
           empty_world 0%nat).
  - reflexivity.
  - reflexivity.
  - reflexivity.
  - apply (bool_decide_unpack _). vm_compute. reflexivity.
  - intros r Hr Hn.
    repeat (apply elem_of_cons in Hr as [-> | Hr];
            [first [by vm_compute in Hn
                   | eexists; split; [reflexivity | cbv; split; discriminate]] |]).
    by apply elem_of_nil in Hr.
  - intros c z Hty Hz. unfold mysql_fit, mysql_fit_int. rewrite Hty.
    simpl. unfold clamp. f_equal. lia.
  - reflexivity.
  - discriminate.
  - intros t Ht. vm_compute in Ht. discriminate.
  - reflexivity.
  - reflexivity.
  - reflexivity.
  - reflexivity.
  - reflexivity.
  - reflexivity.
Defined.

(** A second entry for [risk], listed above the first. *)
Lemma registered_upload_is_listed_witness :
  let w' := (register_table false 2000 "risk" "Ben" 2%nat risk_world).1 in
  let entry := [CStr "risk"; CStr "Ben"; CInt 2000; CInt (Z.of_nat 2%nat)] in
  ∃ data,
    get_registry_data false w' = (w', Ok (registry_header, data))
    ∧ entry ∈ data
    ∧ length data = S (length (t_rows risk_registry))
    ∧ ((∀ r z, r ∈ t_rows risk_registry → r !!! 3%nat = CInt z → z < 2000) →
       head data = Some entry).
Proof.
  apply (registered_upload_is_listed 2000 "risk" "Ben" 2%nat risk_world risk_registry).
  - vm_compute. reflexivity.
  - reflexivity.
Defined.

(** CREATE TABLE fails for a new table beside [risk]. *)
Lemma failure_before_insert_writes_no_data_witness :
  let w' := (upload_to_mysql mysql_fit int_of_cell create_fails 2000 two_applicants "fresh" "Ben" risk_world).1 in
  (server w' = server risk_world ∨ server w' = with_registry (server risk_world))
  ∧ (f_connect create_fails = true ∨ f_registry create_fails = true → server w' = server risk_world)
  ∧ (∀ name, name ≠ registry_name → server w' !! name = server risk_world !! name)
  ∧ registry_rows (server w') = registry_rows (server risk_world)
  ∧ ∃ msg, last (screen w') = Some (StError msg).
Proof.
  apply (failure_before_insert_writes_no_data mysql_fit int_of_cell create_fails 2000 two_applicants "fresh" "Ben"
           risk_world).
  - right; right; right. reflexivity.
Defined.

(** The bulk insert fails for a new table beside [risk]. *)
Lemma failed_insert_stores_no_row_witness :
  let w' := (upload_to_mysql mysql_fit int_of_cell insert_fails 2000 two_applicants "fresh" "Ben" risk_world).1 in
  (∀ name t, server risk_world !! name = Some t → server w' !! name = Some t)
  ∧ (∀ name t', server w' !! name = Some t' → server risk_world !! name = None →
                t_rows t' = [] ∧ (name = "fresh" ∨ name = registry_name))
  ∧ registry_rows (server w') = registry_rows (server risk_world)
  ∧ ∃ msg, last (screen w') = Some (StError msg).
Proof.
  apply (failed_insert_stores_no_row mysql_fit int_of_cell insert_fails 2000 two_applicants "fresh" "Ben"
           risk_world).
  - reflexivity.
Defined.

(** The five-row file uploaded by Ann and again by Ben. *)
Lemma upload_again_stores_nothing_new_witness :
  let w1 := (upload_to_mysql mysql_fit int_of_cell no_faults 1000 risk_batch1 "risk" "Ann" empty_world).1 in
  let w2 :=
    (upload_to_mysql mysql_fit int_of_cell no_faults 2000 risk_batch1 "risk" "Ben" w1).1 in
  let n := len (dropna 0%nat risk_batch1) in
  is_Some (server w1 !! "risk")
  ∧ server w2 !! "risk" = server w1 !! "risk"
  ∧ (∀ name, name ≠ registry_name → server w2 !! name = server w1 !! name)
  ∧ (f_register no_faults = false →
     registry_rows (server w2)
     = registry_rows (server w1)
       ++ [registry_entry (MySQL.next_auto 0 (registry_rows (server w1)))
             "risk" "Ben" 2000 n]
     ∧ last (screen w2) = Some (StSuccess n "risk" "Ben"))
  ∧ (f_register no_faults = true →
     server w2 = server w1
     ∧ last (screen w2) = Some (StError connect_failed_msg)).
Proof.
  apply (upload_again_stores_nothing_new mysql_fit int_of_cell no_faults no_faults 1000 2000
           risk_batch1 "risk" "Ann" "Ben" empty_world 0%nat).
  - reflexivity.
  - reflexivity.
  - reflexivity.
  - reflexivity.
  - apply (bool_decide_unpack _). vm_compute. reflexivity.
  - intros r Hr Hn.
    repeat (apply elem_of_cons in Hr as [-> | Hr];
            [first [by vm_compute in Hn | by eexists] |]).
    by apply elem_of_nil in Hr.
  - reflexivity.
  - discriminate.
  - intros t Ht. vm_compute in Ht. discriminate.
  - reflexivity.
  - reflexivity.
  - reflexivity.
  - reflexivity.
  - reflexivity.
  - reflexivity.
  - reflexivity.
  - reflexivity.
  - reflexivity.
  - reflexivity.
  - reflexivity.
  - reflexivity.
  - reflexivity.
Defined.

(** The later file into [risk]: applicant 2 stays as stored, applicant 3 is added. *)
Lemma insert_dataframe_stores_rows_of_the_file_witness :
  let stored_form := MySQL.stored_row (MySQL.Ignore mysql_fit) 2000 risk_table (columns later_applicants) in
  ∃ t1,
    insert_dataframe mysql_fit false 2000 later_applicants "risk" risk_world
    = ({| server := <["risk" := t1]> (server risk_world); screen := screen risk_world |},
       Ok ())
    ∧ t_columns t1 = t_columns risk_table
    ∧ t_rows risk_table `prefix_of` t_rows t1
    ∧ (length (t_rows t1) ≤ length (t_rows risk_table) + len later_applicants)%nat
    ∧ (∀ r', r' ∈ t_rows t1 →
             r' ∈ t_rows risk_table ∨ ∃ vals, vals ∈ df_rows later_applicants ∧ r' = stored_form vals)
    ∧ (∀ vals j c i,
         t_columns risk_table !! j = Some c →
         index_of (col_name c) (columns later_applicants) = Some i →
         stored_form vals !!! j = mysql_fit c (vals !!! i))
    ∧ (∀ vals j c,
         t_columns risk_table !! j = Some c →
         index_of (col_name c) (columns later_applicants) = None →
         stored_form vals !!! j = mysql_fit c CNull)
    ∧ (MySQL.primary_positions risk_table ≠ [] → keys_unique risk_table → keys_unique t1)
    ∧ (MySQL.primary_positions risk_table = [] →
       t_rows t1 = t_rows risk_table ++ (stored_form <$> df_rows later_applicants)).
Proof.
  apply (insert_dataframe_stores_rows_of_the_file mysql_fit 2000 later_applicants "risk" risk_world risk_table).
  - vm_compute. reflexivity.
  - apply (bool_decide_unpack _). vm_compute. reflexivity.
  - apply (bool_decide_unpack _). vm_compute. reflexivity.
  - apply (bool_decide_unpack _). vm_compute. reflexivity.
Defined.
